(** * Actual Build: the provisioning scripts and the root layout

    The executable part of the repository is two bash scripts
    ([scripts/setup.sh] and the Codespace [setup.sh]), one React
    component ([RootLayout]) and the TypeScript utilities the Codespace
    script writes to [shared/src/utils/index.ts].

    The scripts are embedded as programs of a small shell monad.  A script
    threads a shell state (the project tree, the working directory,
    everything outside the tree, the standard output, the log of the
    commands it ran, the [errexit] flag and the positional parameters) and
    stops where the shell would: at [exit], or under [set -e] at a failing
    statement.

    Conventions of the model:
    - builtins and core utilities ([echo], [[], [cd], [cp], [mkdir -p],
      redirections, [cut]) have their semantics written out;
    - programs the scripts only call ([npm], [npx], [apt-get] through
      [sudo]) are an oracle: a function of the command line, the working
      directory, the outside world and the tree, giving a status, output, a
      new tree and a new world.  Results are stated for every oracle;
    - [command -v node] and [node -v] only read the outside world;
    - paths are lists of components below the directory the script is
      started in, which both scripts take to be the project root;
    - the tree holds regular files and directories. *)

From Stdlib Require Import String Ascii NArith ZArith List Lia Bool.
From Stdlib Require Import Decimal DecimalString DecimalN.
From stdpp Require Import base option list strings gmap.

Open Scope string_scope.
Open Scope N_scope.
Open Scope list_scope.

(* ================================================================== *)
(** ** Text utilities used by the scripts *)

Module Text.

(** One line of [cut -d<d>]: the fields of a line. *)
Fixpoint split_on (d : ascii) (s : string) : list string :=
  match s with
  | EmptyString => [EmptyString]
  | String c r =>
      if Ascii.eqb c d then EmptyString :: split_on d r
      else match split_on d r with
           | f :: fs => String c f :: fs
           | [] => [String c EmptyString]
           end
  end.

(** [cut -d<d> -f<n>] on one line: a line without the delimiter is printed
    whole, otherwise field [n] (counted from 1), empty when the line has
    fewer fields. *)
Definition cut (d : ascii) (n : nat) (line : string) : string :=
  match split_on d line with
  | [_] => line
  | fields => nth (n - 1) fields EmptyString
  end.

(** [isspace], skipped by [strtoimax] before the number. *)
Definition is_space (c : ascii) : bool :=
  let n := nat_of_ascii c in
  (Nat.eqb n 32 || (Nat.leb 9 n && Nat.leb n 13))%bool.

(** Blank or tab, skipped by bash after the number. *)
Definition is_blank (c : ascii) : bool :=
  let n := nat_of_ascii c in (Nat.eqb n 32 || Nat.eqb n 9)%bool.

Fixpoint drop_leading_space (s : string) : string :=
  match s with
  | String c r => if is_space c then drop_leading_space r else s
  | EmptyString => EmptyString
  end.

Fixpoint drop_trailing_blank (s : string) : string :=
  match s with
  | EmptyString => EmptyString
  | String c r =>
      match drop_trailing_blank r with
      | EmptyString => if is_blank c then EmptyString else String c EmptyString
      | r' => String c r'
      end
  end.

Definition intmax_max : Z := (2 ^ 63 - 1)%Z.
Definition intmax_min : Z := (- 2 ^ 63)%Z.

(** What bash accepts as the integer operand of [[ a -lt b ]]:
    optional white space, an optional sign, at least one decimal digit,
    optional blanks, and a value that fits [intmax_t]. *)
Definition parse_int (s : string) : option Z :=
  let body := drop_trailing_blank (drop_leading_space s) in
  let '(neg, ds) :=
    match body with
    | String "-" r => (true, r)
    | String "+" r => (false, r)
    | _ => (false, body)
    end in
  match ds with
  | EmptyString => None
  | _ =>
      match NilEmpty.uint_of_string ds with
      | Some u =>
          let z := Z.of_N (N.of_uint u) in
          let z := if neg then (- z)%Z else z in
          if ((intmax_min <=? z) && (z <=? intmax_max))%Z then Some z else None
      | None => None
      end
  end.

(** Decimal numeral of a natural number, as [node -v] prints each
    component of the version. *)
Definition dec (n : N) : string := NilEmpty.string_of_uint (N.to_uint n).

(** The line [node -v] prints for version [major.minor.patch]. *)
Definition version_line (major minor patch : N) : string :=
  "v" +:+ dec major +:+ "." +:+ dec minor +:+ "." +:+ dec patch.

(** Characters of a text, for the facts about [cut]. *)
Fixpoint has_char (d : ascii) (s : string) : bool :=
  match s with
  | EmptyString => false
  | String c r => Ascii.eqb c d || has_char d r
  end.

Definition is_digit (c : ascii) : bool :=
  let n := nat_of_ascii c in (Nat.leb 48 n && Nat.leb n 57)%bool.

Fixpoint all_digits (s : string) : bool :=
  match s with
  | EmptyString => true
  | String c r => is_digit c && all_digits r
  end.

(** Status of [[ a -lt b ]]: 0 if less, 1 if not, 2 when [a] is not an
    integer. *)
Definition lt_status (a : string) (b : Z) : N :=
  match parse_int a with
  | Some z => if (z <? b)%Z then 0 else 1
  | None => 2
  end.

End Text.

(* ================================================================== *)
(** ** The file tree *)

(** A path is the list of its components, counted from the directory the
    script is started in (the project root). *)
Abbreviation path := (list string).

Inductive node :=
  | File (content : string)
  | Dir.

#[global] Instance node_eq_dec : EqDecision node.
Proof. solve_decision. Defined.

(** The tree below the project root; the root itself is always a directory. *)
Abbreviation tree := (gmap path node).

Module Tree.

Definition is_file (t : tree) (p : path) : bool :=
  match t !! p with Some (File _) => true | _ => false end.

Definition is_dir (t : tree) (p : path) : bool :=
  match p with
  | [] => true
  | _ => match t !! p with Some Dir => true | _ => false end
  end.

Definition parent (p : path) : path := removelast p.

Definition basename (p : path) : path :=
  match last p with Some c => [c] | None => [] end.

(** A redirection [> p] or the target of [cp]: the file is created or
    truncated when [p] is not a directory and lies in a directory. *)
Definition write (p : path) (content : string) (t : tree) : option tree :=
  if is_dir t p then None
  else if is_dir t (parent p) then Some (<[p := File content]> t)
  else None.

(** [mkdir -p]: every missing component below [base] is created; a
    component that is a regular file makes it fail. *)
Fixpoint mkdir_p (base : path) (comps : list string) (t : tree) : N * tree :=
  match comps with
  | [] => (0, t)
  | c :: cs =>
      let d := base ++ [c] in
      match t !! d with
      | Some (File _) => (1, t)
      | Some Dir => mkdir_p d cs t
      | None => mkdir_p d cs (<[d := Dir]> t)
      end
  end.

(** [cp src dst] without [-r]: [src] must be a regular file; a [dst] that
    is a directory receives the file under the name of [src]. *)
Definition cp (src dst : path) (t : tree) : N * tree :=
  match t !! src with
  | Some (File c) =>
      let target := if is_dir t dst then dst ++ basename src else dst in
      match write target c t with
      | Some t' => (0, t')
      | None => (1, t)
      end
  | _ => (1, t)
  end.

(** How a path is spelled on a command line. *)
Definition show (p : path) : string :=
  match p with
  | [] => "."
  | _ => String.concat "/" p
  end.

End Tree.

(* ================================================================== *)
(** ** The shell *)

(** Where a command stands in the script. *)
Inductive ctx :=
  | Stmt   (* a command of its own *)
  | Cond   (* the test of an [if] *)
  | Sub    (* inside [$(...)]: a stage of a pipeline but the last, or the
              command of a substitution in the argument of another *)
  | Tail.  (* the last stage of the pipeline of [x=$(...)]: its status is
              the status of the assignment *)

(** The commands [set -e] reacts to. *)
Definition guarded (k : ctx) : bool :=
  match k with Stmt | Tail => true | Cond | Sub => false end.

(** The commands whose output is captured by [$(...)] or piped on. *)
Definition captured (k : ctx) : bool :=
  match k with Sub | Tail => true | Stmt | Cond => false end.

#[global] Instance ctx_eq_dec : EqDecision ctx.
Proof. solve_decision. Defined.

(** One command the shell ran, with the status it returned. *)
Record event := Ev { ev_argv : list string; ev_ctx : ctx; ev_status : N }.

#[global] Instance event_eq_dec : EqDecision event.
Proof. solve_decision. Defined.

Definition newline : string := String (ascii_of_nat 10) EmptyString.

(** The text a command substitution [$(...)] yields: the lines printed,
    without the trailing newlines. *)
Fixpoint drop_trailing_empty (ls : list string) : list string :=
  match ls with
  | [] => []
  | l :: r =>
      match drop_trailing_empty r with
      | [] => if String.eqb l EmptyString then [] else [l]
      | r' => l :: r'
      end
  end.

Definition subst_text (ls : list string) : string :=
  String.concat newline (drop_trailing_empty ls).

Section Shell.

(** Everything outside the project tree that a command can depend on or
    change: the programs installed, package caches, the package
    registries. *)
Variable W : Type.

(** What a command sees and can change. *)
Record machine := Mach { fs : tree; cwd : path; world : W }.

(** What a command leaves: its exit status, the lines it printed on
    standard output, the machine after it.  Standard error is not
    kept. *)
Record result := Res { r_status : N; r_out : list string; r_mach : machine }.

Definition action := machine → result.

Record state := St {
  mach : machine;
  out : list string;      (* lines written to standard output *)
  trace : list event;     (* commands run so far, oldest first *)
  errexit : bool;         (* the -e option *)
  args : list string      (* positional parameters *)
}.

Inductive outcome (A : Type) :=
  | Ret (a : A) (s : state)       (* the script goes on *)
  | Halt (code : N) (s : state).  (* the shell has exited *)
Arguments Ret {A} a s.
Arguments Halt {A} code s.

Definition sh (A : Type) := state → outcome A.

Definition ret {A} (a : A) : sh A := λ s, Ret a s.

Definition bind {A B} (m : sh A) (k : A → sh B) : sh B :=
  λ s, match m s with
       | Ret a s' => k a s'
       | Halt n s' => Halt n s'
       end.

Definition final {A} (o : outcome A) : state :=
  match o with Ret _ s => s | Halt _ s => s end.

Definition last_status (s : state) : N :=
  match last (trace s) with Some ev => ev_status ev | None => 0 end.

(** Exit status of the shell process: the argument of [exit] or the
    status that tripped [errexit], otherwise the status of the last
    command run. *)
Definition exit_status {A} (o : outcome A) : N :=
  match o with
  | Ret _ s => last_status s
  | Halt n _ => n
  end.

(** A script is started with its positional parameters, in the project
    root, with no option set. *)
Definition boot (argv : list string) (t : tree) (w : W) : state :=
  {| mach := Mach t [] w; out := []; trace := []; errexit := false;
     args := argv |}.

(** *** Running one command *)

(** The state once a command has run: captured output goes to the next
    stage or into the substitution, any other output to the terminal. *)
Definition record (k : ctx) (argv : list string) (r : result) (s : state)
  : state :=
  {| mach := r_mach r;
     out := if captured k then out s else out s ++ r_out r;
     trace := trace s ++ [Ev argv k (r_status r)];
     errexit := errexit s;
     args := args s |}.

(** Under [errexit] a guarded command that fails ends the script; a
    failing test of an [if] or a failing command inside a substitution
    does not. *)
Definition command (k : ctx) (argv : list string) (act : action)
  : sh result :=
  λ s,
    let r := act (mach s) in
    let s' := record k argv r s in
    if guarded k && negb (r_status r =? 0) && errexit s
    then Halt (r_status r) s' else Ret r s'.

(** A command that is a statement of the script. *)
Definition run (argv : list string) (act : action) : sh unit :=
  bind (command Stmt argv act) (λ _, ret tt).

(** A command that is the condition of an [if]: true on status 0. *)
Definition test (argv : list string) (act : action) : sh bool :=
  bind (command Cond argv act) (λ r, ret (r_status r =? 0)).

(** A pipeline stage: its output goes to the next stage. *)
Definition stage (argv : list string) (act : action) : sh (list string) :=
  bind (command Sub argv act) (λ r, ret (r_out r)).

(** The last stage of the pipeline of an assignment [x=$(...)]. *)
Definition last_stage (argv : list string) (act : action)
  : sh (list string) :=
  bind (command Tail argv act) (λ r, ret (r_out r)).

(** [set -e] *)
Definition set_e : sh unit :=
  λ s, Ret tt {| mach := mach s; out := out s;
                 trace := trace s ++ [Ev ["set"; "-e"] Stmt 0];
                 errexit := true; args := args s |}.

(** [exit n] *)
Definition exit_ (n : N) : sh unit :=
  λ s, Halt n {| mach := mach s; out := out s;
                 trace := trace s ++ [Ev ["exit"; Text.dec n] Stmt n];
                 errexit := errexit s; args := args s |}.

(** [$n], the n-th positional parameter (empty when unset). *)
Definition positional (n : nat) : sh string :=
  λ s, Ret (nth n (args s) EmptyString) s.

(** *** Builtins and core utilities *)

Definition with_fs (m : machine) (t : tree) : machine :=
  Mach t (cwd m) (world m).

Definition act_print (line : string) : action := λ m, Res 0 [line] m.

Definition echo (line : string) : sh unit :=
  run ["echo"; line] (act_print line).

Definition act_cut (d : ascii) (n : nat) (input : list string) : action :=
  λ m, Res 0 (map (Text.cut d n) input) m.

(** [[ a -lt b ]]: status 0 if less, 1 if not, 2 when [a] is not an
    integer.  In the last case bash also prints a diagnostic (integer
    expression expected) on standard error, which is not kept. *)
Definition act_test_lt (a : string) (b : Z) : action :=
  λ m, Res (Text.lt_status a b) [] m.

Definition test_lt (a : string) (b : N) : sh bool :=
  test ["["; a; "-lt"; Text.dec b; "]"] (act_test_lt a (Z.of_N b)).

(** [[ ! -f p ]] *)
Definition not_f (p : path) : sh bool :=
  test ["["; "!"; "-f"; Tree.show p; "]"]
    (λ m, Res (if Tree.is_file (fs m) (cwd m ++ p) then 1 else 0) [] m).

(** [[ ! -d p ]] *)
Definition not_d (p : path) : sh bool :=
  test ["["; "!"; "-d"; Tree.show p; "]"]
    (λ m, Res (if Tree.is_dir (fs m) (cwd m ++ p) then 1 else 0) [] m).

(** [cd p] *)
Definition cd (p : path) : sh unit :=
  run ["cd"; Tree.show p]
    (λ m, if Tree.is_dir (fs m) (cwd m ++ p)
          then Res 0 [] (Mach (fs m) (cwd m ++ p) (world m))
          else Res 1 [] m).

(** [cd ..] *)
Definition cd_up : sh unit :=
  run ["cd"; ".."]
    (λ m, Res 0 [] (Mach (fs m) (Tree.parent (cwd m)) (world m))).

(** [mkdir -p p] *)
Definition mkdir_p (p : path) : sh unit :=
  run ["mkdir"; "-p"; Tree.show p]
    (λ m, let '(n, t) := Tree.mkdir_p (cwd m) p (fs m) in
          Res n [] (with_fs m t)).

(** [cp a b] *)
Definition cp (a b : path) : sh unit :=
  run ["cp"; Tree.show a; Tree.show b]
    (λ m, let '(n, t) := Tree.cp (cwd m ++ a) (cwd m ++ b) (fs m) in
          Res n [] (with_fs m t)).

(** [cat > p << 'EOF' ... EOF]: a failed redirection is a failed command. *)
Definition cat_to (p : path) (content : string) : sh unit :=
  run ["cat"; ">"; Tree.show p]
    (λ m, match Tree.write (cwd m ++ p) content (fs m) with
          | Some t => Res 0 [] (with_fs m t)
          | None => Res 1 [] m
          end).

(** *** Programs the scripts call *)

Record effect := Eff {
  ef_status : N; ef_out : list string; ef_fs : tree; ef_world : W }.

Record env := Env {
  (** [command -v node] finds the program *)
  has_node : W → bool;
  (** status and output of [node -v], which only prints *)
  node_v : W → N * list string;
  (** any other program, by its command line and working directory *)
  exec : list string → path → W → tree → effect
}.

Definition act_exec (e : env) (argv : list string) : action :=
  λ m, let r := exec e argv (cwd m) (world m) (fs m) in
       Res (ef_status r) (ef_out r) (Mach (ef_fs r) (cwd m) (ef_world r)).

Definition external (e : env) (argv : list string) : sh unit :=
  run argv (act_exec e argv).

(** [command -v node &> /dev/null] *)
Definition command_v_node (e : env) : sh bool :=
  test ["command"; "-v"; "node"]
    (λ m, Res (if has_node e (world m) then 0 else 1) [] m).

Definition act_node_v (e : env) : action :=
  λ m, Res (node_v e (world m)).1 (node_v e (world m)).2 m.

(** [$(node -v)] *)
Definition node_v_text (e : env) : sh string :=
  bind (stage ["node"; "-v"] (act_node_v e)) (λ ls, ret (subst_text ls)).

(** [$(node -v | cut -d'v' -f2 | cut -d'.' -f1)] *)
Definition node_major (e : env) : sh string :=
  bind (stage ["node"; "-v"] (act_node_v e)) (λ v,
  bind (stage ["cut"; "-dv"; "-f2"] (act_cut "v" 2 v)) (λ f,
  bind (last_stage ["cut"; "-d."; "-f1"] (act_cut "." 1 f)) (λ g,
  ret (subst_text g)))).

End Shell.

Arguments Mach {W} fs cwd world.
Arguments fs {W} m.
Arguments cwd {W} m.
Arguments world {W} m.
Arguments St {W} mach out trace errexit args.
Arguments mach {W} s.
Arguments out {W} s.
Arguments trace {W} s.
Arguments errexit {W} s.
Arguments args {W} s.
Arguments Ret {W A} a s.
Arguments Halt {W A} code s.
Arguments ret {W A} a s.
Arguments bind {W A B} m k s.
Arguments final {W A} o.
Arguments last_status {W} s.
Arguments exit_status {W A} o.
Arguments boot {W} argv t w.
Arguments Res {W} r_status r_out r_mach.
Arguments r_status {W} r.
Arguments r_out {W} r.
Arguments r_mach {W} r.
Arguments record {W} k argv r s.
Arguments command {W} k argv act s.
Arguments act_exec {W} e argv m.
Arguments run {W} argv act.
Arguments test {W} argv act.
Arguments stage {W} argv act.
Arguments last_stage {W} argv act.
Arguments set_e {W} s.
Arguments exit_ {W} n s.
Arguments positional {W} n s.
Arguments with_fs {W} m t.
Arguments act_print {W} line m.
Arguments echo {W} line.
Arguments act_cut {W} d n input m.
Arguments act_test_lt {W} a b m.
Arguments test_lt {W} a b.
Arguments not_f {W} p.
Arguments not_d {W} p.
Arguments cd {W} p.
Arguments cd_up {W}.
Arguments mkdir_p {W} p.
Arguments cp {W} a b.
Arguments cat_to {W} p content.
Arguments Eff {W} ef_status ef_out ef_fs ef_world.
Arguments ef_status {W} e.
Arguments ef_out {W} e.
Arguments ef_fs {W} e.
Arguments ef_world {W} e.
Arguments Env {W} has_node node_v exec.
Arguments has_node {W} e w.
Arguments node_v {W} e w.
Arguments exec {W} e argv cwd w t.
Arguments external {W} e argv.
Arguments command_v_node {W} e.
Arguments act_node_v {W} e m.
Arguments node_v_text {W} e.
Arguments node_major {W} e.

(** Sequencing of commands, written as in the scripts. *)
Declare Scope sh_scope.
Notation "x ← y ; z" := (bind y (λ x, z))
  (at level 20, y at level 100, z at level 200, only parsing) : sh_scope.
Notation "x ;; z" := (bind x (λ _, z))
  (at level 100, z at level 200, only parsing, right associativity) : sh_scope.
Open Scope sh_scope.

(** Here-documents: the lines between the markers, each ended by a newline.
    A line with double quotes is given by the pieces between them. *)
Definition dq : string := String (ascii_of_nat 34) EmptyString.
Definition dq_join (pieces : list string) : string := String.concat dq pieces.
Definition heredoc (lines : list string) : string :=
  String.concat EmptyString (map (λ l, l +:+ newline) lines).

(* ================================================================== *)
(** ** [scripts/setup.sh] *)

Module Setup.

(** Body of the here-document written to [frontend/package.json]. *)
Definition frontend_package_json : string :=
  heredoc
    [ "{";
      dq_join ["  "; "name"; ": "; "actual-build-frontend"; ","];
      dq_join ["  "; "version"; ": "; "1.0.0"; ","];
      dq_join ["  "; "description"; ": "; "Frontend for Actual Build"; ","];
      dq_join ["  "; "main"; ": "; "index.js"; ","];
      dq_join ["  "; "scripts"; ": {"];
      dq_join ["    "; "dev"; ": "; "echo 'Frontend development server not configured yet'"; ","];
      dq_join ["    "; "build"; ": "; "echo 'Frontend build not configured yet'"; ","];
      dq_join ["    "; "test"; ": "; "echo 'Frontend tests not configured yet'"; ","];
      dq_join ["    "; "lint"; ": "; "echo 'Frontend linting not configured yet'"; ""];
      "  },";
      dq_join ["  "; "keywords"; ": ["; "frontend"; ", "; "web"; "],"];
      dq_join ["  "; "author"; ": "; "Nibert Investments"; ","];
      dq_join ["  "; "license"; ": "; "MIT"; ""];
      "}" ].

(** Body of the here-document written to [backend/package.json]. *)
Definition backend_package_json : string :=
  heredoc
    [ "{";
      dq_join ["  "; "name"; ": "; "actual-build-backend"; ","];
      dq_join ["  "; "version"; ": "; "1.0.0"; ","];
      dq_join ["  "; "description"; ": "; "Backend API for Actual Build"; ","];
      dq_join ["  "; "main"; ": "; "index.js"; ","];
      dq_join ["  "; "scripts"; ": {"];
      dq_join ["    "; "dev"; ": "; "echo 'Backend development server not configured yet'"; ","];
      dq_join ["    "; "start"; ": "; "echo 'Backend production server not configured yet'"; ","];
      dq_join ["    "; "build"; ": "; "echo 'Backend build not configured yet'"; ","];
      dq_join ["    "; "test"; ": "; "echo 'Backend tests not configured yet'"; ","];
      dq_join ["    "; "lint"; ": "; "echo 'Backend linting not configured yet'"; ""];
      "  },";
      dq_join ["  "; "keywords"; ": ["; "backend"; ", "; "api"; ", "; "nodejs"; "],"];
      dq_join ["  "; "author"; ": "; "Nibert Investments"; ","];
      dq_join ["  "; "license"; ": "; "MIT"; ""];
      "}" ].


Section Script.
Context {W : Type}.
Variable e : env W.

(** Lines 10-21: Node.js must be installed, with major version 18 or
    more. *)
Definition version_check : sh W unit :=
  found ← command_v_node e;
  (if negb found then
     echo "❌ Node.js is not installed. Please install Node.js 18+ and try again." ;;
     exit_ 1
   else ret tt) ;;
  NODE_VERSION ← node_major e;
  old ← test_lt NODE_VERSION 18;
  (if old then
     v ← node_v_text e;
     echo ("❌ Node.js version 18+ is required. Current version: " +:+ v) ;;
     exit_ 1
   else ret tt).

(** Lines 29-36 *)
Definition env_file : sh W unit :=
  absent ← not_f [".env"];
  if absent then
    echo "📝 Creating .env file from template..." ;;
    cp [".env.example"] [".env"] ;;
    echo "⚠️  Please edit .env file with your configuration before starting development"
  else
    echo "✅ .env file already exists".

(** Lines 39-59 *)
Definition frontend_package : sh W unit :=
  absent ← not_f ["frontend"; "package.json"];
  if absent then
    echo "📦 Creating frontend package.json..." ;;
    mkdir_p ["frontend"] ;;
    cat_to ["frontend"; "package.json"] frontend_package_json
  else ret tt.

(** Lines 61-82 *)
Definition backend_package : sh W unit :=
  absent ← not_f ["backend"; "package.json"];
  if absent then
    echo "📦 Creating backend package.json..." ;;
    mkdir_p ["backend"] ;;
    cat_to ["backend"; "package.json"] backend_package_json
  else ret tt.

(** Lines 84-92 *)
Definition closing : sh W unit :=
  echo "✅ Setup complete!" ;;
  echo "" ;;
  echo "🎉 Next steps:" ;;
  echo "1. Edit .env file with your configuration" ;;
  echo "2. Set up your frontend framework in the frontend/ directory" ;;
  echo "3. Set up your backend server in the backend/ directory" ;;
  echo "4. Run 'npm run dev' to start development servers" ;;
  echo "" ;;
  echo "📚 Check the README.md for detailed instructions".

(** Lines 23-92: what runs once the version check has passed. *)
Definition provision : sh W unit :=
  v ← node_v_text e;
  echo ("✅ Node.js version: " +:+ v) ;;
  echo "📦 Installing root dependencies..." ;;
  external e ["npm"; "install"] ;;
  env_file ;;
  frontend_package ;;
  backend_package ;;
  closing.

(** Lines 8-92 *)
Definition main : sh W unit :=
  echo "🚀 Setting up Actual Build development environment..." ;;
  version_check ;;
  provision.

(** The script: line 6, then the rest under [errexit]. *)
Definition setup : sh W unit :=
  set_e ;;
  main.

End Script.

End Setup.

(* ================================================================== *)
(** ** The Codespace [setup.sh] *)

Module Codespace.

(** Body of the here-document written to [tsconfig.json]. *)
Definition backend_tsconfig_json : string :=
  heredoc
    [ "{";
      dq_join ["  "; "compilerOptions"; ": {"];
      dq_join ["    "; "target"; ": "; "ES2020"; ","];
      dq_join ["    "; "module"; ": "; "commonjs"; ","];
      dq_join ["    "; "lib"; ": ["; "ES2020"; "],"];
      dq_join ["    "; "outDir"; ": "; "./dist"; ","];
      dq_join ["    "; "rootDir"; ": "; "./src"; ","];
      dq_join ["    "; "strict"; ": true,"];
      dq_join ["    "; "esModuleInterop"; ": true,"];
      dq_join ["    "; "skipLibCheck"; ": true,"];
      dq_join ["    "; "forceConsistentCasingInFileNames"; ": true,"];
      dq_join ["    "; "resolveJsonModule"; ": true,"];
      dq_join ["    "; "declaration"; ": true,"];
      dq_join ["    "; "declarationMap"; ": true,"];
      dq_join ["    "; "sourceMap"; ": true"];
      "  },";
      dq_join ["  "; "include"; ": ["; "src/**/*"; "],"];
      dq_join ["  "; "exclude"; ": ["; "node_modules"; ", "; "dist"; ", "; "**/*.test.ts"; "]"];
      "}" ].

(** Body of the here-document written to [src/index.ts]. *)
Definition backend_index_ts : string :=
  heredoc
    [ "import express from 'express';";
      "import cors from 'cors';";
      "import helmet from 'helmet';";
      "import morgan from 'morgan';";
      "import dotenv from 'dotenv';";
      "";
      "// Load environment variables";
      "dotenv.config();";
      "";
      "const app = express();";
      "const PORT = process.env.API_PORT || 3001;";
      "";
      "// Middleware";
      "app.use(helmet());";
      "app.use(cors({";
      "  origin: process.env.CORS_ORIGIN || 'http://localhost:3000',";
      "  credentials: true";
      "}));";
      "app.use(morgan('combined'));";
      "app.use(express.json());";
      "app.use(express.urlencoded({ extended: true }));";
      "";
      "// Routes";
      "app.get('/api/health', (req, res) => {";
      "  res.json({ ";
      "    status: 'OK', ";
      "    message: 'Actual Build API is running',";
      "    timestamp: new Date().toISOString(),";
      "    version: '1.0.0'";
      "  });";
      "});";
      "";
      "app.get('/api', (req, res) => {";
      "  res.json({ ";
      "    message: 'Welcome to Actual Build API',";
      "    endpoints: [";
      "      'GET /api/health - Health check',";
      "      'GET /api - This endpoint'";
      "    ]";
      "  });";
      "});";
      "";
      "// Error handling middleware";
      "app.use((err: any, req: express.Request, res: express.Response, next: express.NextFunction) => {";
      "  console.error(err.stack);";
      "  res.status(500).json({ ";
      "    error: 'Something went wrong!',";
      "    message: process.env.NODE_ENV === 'development' ? err.message : 'Internal server error'";
      "  });";
      "});";
      "";
      "// 404 handler";
      "app.use('*', (req, res) => {";
      "  res.status(404).json({ error: 'Route not found' });";
      "});";
      "";
      "app.listen(PORT, () => {";
      "  console.log(`🚀 Server running on port ${PORT}`);";
      "  console.log(`📡 API available at http://localhost:${PORT}/api`);";
      "  console.log(`🏥 Health check at http://localhost:${PORT}/api/health`);";
      "});" ].

(** Body of the here-document written to [tsconfig.json]. *)
Definition shared_tsconfig_json : string :=
  heredoc
    [ "{";
      dq_join ["  "; "compilerOptions"; ": {"];
      dq_join ["    "; "target"; ": "; "ES2020"; ","];
      dq_join ["    "; "module"; ": "; "commonjs"; ","];
      dq_join ["    "; "lib"; ": ["; "ES2020"; "],"];
      dq_join ["    "; "outDir"; ": "; "./dist"; ","];
      dq_join ["    "; "rootDir"; ": "; "./src"; ","];
      dq_join ["    "; "strict"; ": true,"];
      dq_join ["    "; "esModuleInterop"; ": true,"];
      dq_join ["    "; "skipLibCheck"; ": true,"];
      dq_join ["    "; "forceConsistentCasingInFileNames"; ": true,"];
      dq_join ["    "; "declaration"; ": true,"];
      dq_join ["    "; "declarationMap"; ": true,"];
      dq_join ["    "; "sourceMap"; ": true"];
      "  },";
      dq_join ["  "; "include"; ": ["; "src/**/*"; "],"];
      dq_join ["  "; "exclude"; ": ["; "node_modules"; ", "; "dist"; ", "; "**/*.test.ts"; "]"];
      "}" ].

(** Body of the here-document written to [src/types/index.ts]. *)
Definition shared_types_index_ts : string :=
  heredoc
    [ "// Shared type definitions for Actual Build";
      "";
      "export interface User {";
      "  id: string;";
      "  email: string;";
      "  name: string;";
      "  createdAt: Date;";
      "  updatedAt: Date;";
      "}";
      "";
      "export interface ApiResponse<T = any> {";
      "  success: boolean;";
      "  data?: T;";
      "  error?: string;";
      "  message?: string;";
      "}";
      "";
      "export interface PaginatedResponse<T = any> extends ApiResponse<T[]> {";
      "  pagination: {";
      "    page: number;";
      "    limit: number;";
      "    total: number;";
      "    pages: number;";
      "  };";
      "}" ].

(** Body of the here-document written to [src/index.ts]. *)
Definition shared_index_ts : string :=
  heredoc
    [ "// Shared utilities and types";
      "export * from './types';";
      "export * from './utils';" ].

(** Body of the here-document written to [src/utils/index.ts]. *)
Definition shared_utils_index_ts : string :=
  heredoc
    [ "// Shared utility functions";
      "";
      "export const formatDate = (date: Date): string => {";
      "  return date.toISOString().split('T')[0];";
      "};";
      "";
      "export const validateEmail = (email: string): boolean => {";
      "  const emailRegex = /^[^\s@]+@[^\s@]+\.[^\s@]+$/;";
      "  return emailRegex.test(email);";
      "};";
      "";
      "export const generateId = (): string => {";
      "  return Math.random().toString(36).substr(2, 9);";
      "};" ].

(** Body of the here-document written to [.prettierrc]. *)
Definition prettierrc : string :=
  heredoc
    [ "{";
      dq_join ["  "; "semi"; ": true,"];
      dq_join ["  "; "trailingComma"; ": "; "es5"; ","];
      dq_join ["  "; "singleQuote"; ": true,"];
      dq_join ["  "; "printWidth"; ": 80,"];
      dq_join ["  "; "tabWidth"; ": 2,"];
      dq_join ["  "; "useTabs"; ": false"];
      "}" ].

(** Body of the here-document written to [.eslintrc.js]. *)
Definition eslintrc_js : string :=
  heredoc
    [ "module.exports = {";
      "  root: true,";
      "  env: {";
      "    node: true,";
      "    es2022: true,";
      "  },";
      "  extends: [";
      "    'eslint:recommended',";
      "    '@typescript-eslint/recommended',";
      "  ],";
      "  parser: '@typescript-eslint/parser',";
      "  parserOptions: {";
      "    ecmaVersion: 2022,";
      "    sourceType: 'module',";
      "  },";
      "  plugins: ['@typescript-eslint'],";
      "  rules: {";
      "    '@typescript-eslint/no-unused-vars': 'error',";
      "    '@typescript-eslint/no-explicit-any': 'warn',";
      "  },";
      "  ignorePatterns: ['dist/', 'node_modules/', '*.js'],";
      "};" ].


Section Script.
Context {W : Type}.
Variable e : env W.

(** Lines 10-13 *)
Definition system_dependencies : sh W unit :=
  echo "📦 Installing system dependencies..." ;;
  external e ["sudo"; "apt-get"; "update"] ;;
  external e ["sudo"; "apt-get"; "install"; "-y"; "postgresql-client"; "git"; "curl"].

(** Lines 15-22 *)
Definition env_file : sh W unit :=
  absent ← not_f [".env"];
  if absent then
    echo "📝 Creating .env file from template..." ;;
    cp [".env.example"] [".env"] ;;
    echo "✅ Created .env file (edit with your actual credentials)"
  else
    echo "✅ .env file already exists".

(** Lines 28-45 *)
Definition frontend : sh W unit :=
  echo "🎨 Setting up frontend environment..." ;;
  cd ["frontend"] ;;
  missing ← not_d ["node_modules"];
  (if missing then
     echo "Installing Next.js frontend..." ;;
     external e ["npx"; "create-next-app@latest"; "."; "--typescript"; "--tailwind"; "--eslint"; "--app"; "--src-dir"; "--import-alias"; "@/*"; "--yes"] ;;
     external e ["npm"; "pkg"; "set"; "scripts.dev=next dev"] ;;
     external e ["npm"; "pkg"; "set"; "scripts.build=next build"] ;;
     external e ["npm"; "pkg"; "set"; "scripts.start=next start"] ;;
     external e ["npm"; "pkg"; "set"; "scripts.lint=next lint"] ;;
     external e ["npm"; "pkg"; "set"; "scripts.test=jest"] ;;
     external e ["npm"; "install"; "--save-dev"; "jest"; "@testing-library/react"; "@testing-library/jest-dom"]
   else ret tt) ;;
  cd_up.

(** Lines 47-153 *)
Definition backend : sh W unit :=
  echo "🔧 Setting up backend environment..." ;;
  cd ["backend"] ;;
  missing ← not_d ["node_modules"];
  (if missing then
     echo "Installing Express backend..." ;;
     external e ["npm"; "install"; "express"; "cors"; "helmet"; "morgan"; "dotenv"; "bcryptjs"; "jsonwebtoken"] ;;
     external e ["npm"; "install"; "--save-dev"; "nodemon"; "@types/node"; "@types/express"; "@types/cors"; "@types/bcryptjs"; "@types/jsonwebtoken"; "typescript"; "ts-node"; "eslint"; "@typescript-eslint/parser"; "@typescript-eslint/eslint-plugin"; "prettier"] ;;
     external e ["npm"; "pkg"; "set"; "scripts.dev=nodemon src/index.ts"] ;;
     external e ["npm"; "pkg"; "set"; "scripts.start=node dist/index.js"] ;;
     external e ["npm"; "pkg"; "set"; "scripts.build=tsc"] ;;
     external e ["npm"; "pkg"; "set"; "scripts.test=jest"] ;;
     external e ["npm"; "pkg"; "set"; "scripts.lint=eslint src --ext .ts,.js"] ;;
     external e ["npm"; "pkg"; "set"; "main=dist/index.js"] ;;
     echo "Creating TypeScript configuration..." ;;
     cat_to ["tsconfig.json"] backend_tsconfig_json ;;
     mkdir_p ["src"] ;;
     cat_to ["src"; "index.ts"] backend_index_ts
   else ret tt) ;;
  cd_up.

(** Lines 155-246 *)
Definition shared : sh W unit :=
  echo "🔧 Setting up shared utilities..." ;;
  cd ["shared"] ;;
  absent ← not_f ["package.json"];
  (if absent then
     external e ["npm"; "init"; "-y"] ;;
     external e ["npm"; "pkg"; "set"; "name=actual-build-shared"] ;;
     external e ["npm"; "pkg"; "set"; "description=Shared utilities and types for Actual Build"] ;;
     external e ["npm"; "pkg"; "set"; "main=dist/index.js"] ;;
     external e ["npm"; "pkg"; "set"; "types=dist/index.d.ts"] ;;
     external e ["npm"; "install"; "--save-dev"; "typescript"; "@types/node"] ;;
     cat_to ["tsconfig.json"] shared_tsconfig_json ;;
     mkdir_p ["src"; "types"] ;;
     cat_to ["src"; "types"; "index.ts"] shared_types_index_ts ;;
     cat_to ["src"; "index.ts"] shared_index_ts ;;
     mkdir_p ["src"; "utils"] ;;
     cat_to ["src"; "utils"; "index.ts"] shared_utils_index_ts ;;
     external e ["npm"; "pkg"; "set"; "scripts.build=tsc"] ;;
     external e ["npm"; "pkg"; "set"; "scripts.dev=tsc --watch"]
   else ret tt) ;;
  cd_up.

(** Lines 248-291 *)
Definition configuration : sh W unit :=
  echo "⚙️ Creating development configuration..." ;;
  no_prettierrc ← not_f [".prettierrc"];
  (if no_prettierrc then cat_to [".prettierrc"] prettierrc else ret tt) ;;
  no_eslintrc ← not_f [".eslintrc.js"];
  (if no_eslintrc then cat_to [".eslintrc.js"] eslintrc_js else ret tt).

(** Lines 293-311 *)
Definition closing : sh W unit :=
  echo "✅ Codespace setup complete!" ;;
  echo "" ;;
  echo "🎉 Your development environment is ready!" ;;
  echo "" ;;
  echo "📝 Next steps:" ;;
  echo "1. Edit .env file with your actual configuration" ;;
  echo "2. Run 'npm run dev' to start both frontend and backend" ;;
  echo "3. Frontend will be available at http://localhost:3000" ;;
  echo "4. Backend API will be available at http://localhost:3001" ;;
  echo "" ;;
  echo "🔧 Available commands:" ;;
  echo "  npm run dev          - Start both frontend and backend" ;;
  echo "  npm run dev:frontend - Start only frontend" ;;
  echo "  npm run dev:backend  - Start only backend" ;;
  echo "  npm run build        - Build both applications" ;;
  echo "  npm run test         - Run all tests" ;;
  echo "  npm run lint         - Lint all code" ;;
  echo "" ;;
  echo "📚 Check the docs/ directory for detailed guides".

(** Lines 8-311 *)
Definition main : sh W unit :=
  echo "🚀 Setting up Actual Build Codespace..." ;;
  system_dependencies ;;
  env_file ;;
  echo "📦 Installing root dependencies..." ;;
  external e ["npm"; "install"] ;;
  frontend ;;
  backend ;;
  shared ;;
  configuration ;;
  closing.

(** The script: line 6, then the rest under [errexit]. *)
Definition setup : sh W unit :=
  set_e ;;
  main.

End Script.

End Codespace.

(* ================================================================== *)
(** ** The root layout ([frontend/src/app/layout.tsx]) *)

Module Layout.

Set Warnings "-register-all".

(** What a component receives as children and returns. *)
Inductive ReactNode :=
  | Null
  | Undefined
  | Boolean (b : bool)
  | Text (s : string)
  | Number (z : Z)
  | Fragment (items : list ReactNode)
  | Element (tag : string) (props : list (string * string))
      (children : list ReactNode).

Record Metadata := { title : string; description : string }.

Definition metadata : Metadata :=
  {| title := "Actual Build";
     description := "Full Stack Development Environment" |}.

Definition RootLayout (children : ReactNode) : ReactNode :=
  Element "html" [("lang", "en")]
    [Element "body" [("className", "antialiased")]
       [children]].

Definition tag_of (n : ReactNode) : option string :=
  match n with Element tag _ _ => Some tag | _ => None end.

Definition props_of (n : ReactNode) : list (string * string) :=
  match n with Element _ props _ => props | _ => [] end.

Definition children_of (n : ReactNode) : list ReactNode :=
  match n with Element _ _ children => children | _ => [] end.

End Layout.

(* ================================================================== *)
(** ** [shared/src/utils/index.ts]

    The module the Codespace script writes at lines 226-241.  JavaScript
    strings are sequences of UTF-16 code units, given here by their
    numbers. *)

Abbreviation jsstring := (list N).

(** Regular expressions without captures or look-around, with the
    constructs their derivatives need. *)
Module Regex.

Inductive regex :=
  | Void                       (* matches nothing *)
  | Eps                        (* matches the empty string *)
  | Class (p : N → bool)       (* one code unit of a class *)
  | Seq (r1 r2 : regex)
  | Alt (r1 r2 : regex)
  | Star (r : regex).

(** A literal code unit, and [r+]. *)
Definition Chr (c : N) : regex := Class (N.eqb c).
Definition Plus (r : regex) : regex := Seq r (Star r).

Fixpoint nullable (r : regex) : bool :=
  match r with
  | Void => false
  | Eps => true
  | Class _ => false
  | Seq r1 r2 => nullable r1 && nullable r2
  | Alt r1 r2 => nullable r1 || nullable r2
  | Star _ => true
  end.

Fixpoint deriv (c : N) (r : regex) : regex :=
  match r with
  | Void => Void
  | Eps => Void
  | Class p => if p c then Eps else Void
  | Seq r1 r2 =>
      if nullable r1 then Alt (Seq (deriv c r1) r2) (deriv c r2)
      else Seq (deriv c r1) r2
  | Alt r1 r2 => Alt (deriv c r1) (deriv c r2)
  | Star r1 => Seq (deriv c r1) (Star r1)
  end.

(** [/^r$/.test(s)]: the whole of [s] matches [r]. *)
Fixpoint test (r : regex) (s : jsstring) : bool :=
  match s with
  | [] => nullable r
  | c :: s' => test (deriv c r) s'
  end.

(** The strings of a regular expression. *)
Inductive lang : regex → jsstring → Prop :=
  | lang_eps : lang Eps []
  | lang_class p c : p c = true → lang (Class p) [c]
  | lang_seq r1 r2 s1 s2 :
      lang r1 s1 → lang r2 s2 → lang (Seq r1 r2) (s1 ++ s2)
  | lang_alt_l r1 r2 s : lang r1 s → lang (Alt r1 r2) s
  | lang_alt_r r1 r2 s : lang r2 s → lang (Alt r1 r2) s
  | lang_star_nil r : lang (Star r) []
  | lang_star_app r s1 s2 :
      lang r s1 → lang (Star r) s2 → lang (Star r) (s1 ++ s2).

End Regex.

Module Utils.

(** [\s]: the white space and line terminators of ECMAScript. *)
Definition is_space (c : N) : bool :=
  ((9 <=? c) && (c <=? 13))
  || existsb (N.eqb c) [32; 160; 5760; 8232; 8233; 8239; 8287; 12288; 65279]
  || ((8192 <=? c) && (c <=? 8202)).

Definition at_sign : N := 64.     (* @ *)
Definition full_stop : N := 46.   (* . *)

(** [[^\s@]] *)
Definition plain (c : N) : bool := negb (is_space c || (c =? at_sign)).

(** [/^[^\s@]+@[^\s@]+\.[^\s@]+$/] *)
Definition emailRegex : Regex.regex :=
  Regex.Seq (Regex.Plus (Regex.Class plain))
    (Regex.Seq (Regex.Chr at_sign)
       (Regex.Seq (Regex.Plus (Regex.Class plain))
          (Regex.Seq (Regex.Chr full_stop)
             (Regex.Plus (Regex.Class plain))))).

Definition validateEmail (email : jsstring) : bool :=
  Regex.test emailRegex email.

(** Strings without white space and [@], and the shape of the strings
    [emailRegex] describes. *)
Definition all_plain (s : jsstring) : Prop :=
  Forall (λ c, plain c = true) s.

Definition email_shape (email : jsstring) : Prop :=
  ∃ user host rest,
    email = user ++ [at_sign] ++ host ++ [full_stop] ++ rest
    ∧ user ≠ [] ∧ host ≠ [] ∧ rest ≠ []
    ∧ all_plain user ∧ all_plain host ∧ all_plain rest.

(** How often a code unit occurs in a string. *)
Definition occurrences (c : N) (s : jsstring) : nat :=
  length (filter (λ x, x = c) s).

(** *** Dates *)

Definition digit (n : N) : N := 48 + n mod 10.

Definition is_digit (c : N) : Prop := 48 ≤ c ≤ 57.

(** The decimal numeral of [n] in exactly two, three, four and six
    digits, for fields that fit. *)
Definition two (n : N) : jsstring := [digit (n / 10); digit n].
Definition three (n : N) : jsstring :=
  [digit (n / 100); digit (n / 10); digit n].
Definition four (n : N) : jsstring :=
  [digit (n / 1000); digit (n / 100); digit (n / 10); digit n].
Definition six (n : N) : jsstring :=
  [digit (n / 100000); digit (n / 10000); digit (n / 1000);
   digit (n / 100); digit (n / 10); digit n].

(** A [Date], by the UTC fields of its time value; the month is counted
    from 1.  [Invalid] is the date whose time value is NaN. *)
Inductive Date :=
  | Invalid
  | Utc (year : Z) (month day hours minutes seconds milliseconds : N).

(** The year of the ISO format: four digits from 0 to 9999, otherwise a
    sign and six digits. *)
Definition iso_year (y : Z) : jsstring :=
  if ((0 <=? y) && (y <=? 9999))%Z then four (Z.to_N y)
  else (if (y <? 0)%Z then 45 else 43) :: six (Z.to_N (Z.abs y)).

Definition iso_date (y : Z) (month day : N) : jsstring :=
  iso_year y ++ [45] ++ two month ++ [45] ++ two day.

(** [Date.prototype.toISOString]: [YYYY-MM-DDTHH:mm:ss.sssZ], or a
    [RangeError] (here [None]) on an invalid date. *)
Definition toISOString (d : Date) : option jsstring :=
  match d with
  | Invalid => None
  | Utc y mo da h mi s ms =>
      Some (iso_date y mo da ++ [84] ++ two h ++ [58] ++ two mi ++ [58]
            ++ two s ++ [46] ++ three ms ++ [90])
  end.

(** [s.split(sep)] for a separator of one code unit. *)
Fixpoint split (sep : N) (s : jsstring) : list jsstring :=
  match s with
  | [] => [[]]
  | c :: r =>
      if c =? sep then [] :: split sep r
      else match split sep r with
           | f :: fs => (c :: f) :: fs
           | [] => [[c]]
           end
  end.

(** [date.toISOString().split('T')[0]] *)
Definition formatDate (date : Date) : option jsstring :=
  match toISOString date with
  | Some iso => head (split 84 iso)
  | None => None
  end.

End Utils.

(* ================================================================== *)
(** ** What is observed of a run *)

(** [script P m]: [m] is made of commands, [set -e], [exit] and their
    sequencing, and every command line it can run satisfies [P]. *)
Inductive script {W : Type} (P : ctx → list string → Prop)
  : ∀ {A : Type}, sh W A → Prop :=
  | script_ret A (a : A) : script P (ret a)
  | script_bind A B (m : sh W A) (k : A → sh W B) :
      script P m → (∀ a, script P (k a)) → script P (bind m k)
  | script_command k argv act :
      P k argv → script P (command k argv act)
  | script_set_e : P Stmt ["set"; "-e"] → script P set_e
  | script_exit n : n ≠ 0 → P Stmt ["exit"; Text.dec n] → script P (exit_ n).

(** Change of the positional parameters of a state, and of the states of an
    outcome. *)
Definition with_args {W} (a : list string) (s : state W) : state W :=
  St (mach s) (out s) (trace s) (errexit s) a.

Definition on_final {W A} (f : state W → state W) (o : outcome W A)
  : outcome W A :=
  match o with
  | Ret x s => Ret x (f s)
  | Halt n s => Halt n (f s)
  end.

(** A guarded command that returned non-zero: what [errexit] reacts to. *)
Definition failed_stmt (ev : event) : bool :=
  guarded (ev_ctx ev) && negb (ev_status ev =? 0).

(** The state of a script under [errexit] in which no guarded command has
    failed so far. *)
Definition tidy {W : Type} (s : state W) : Prop :=
  errexit s = true ∧ Forall (λ ev, failed_stmt ev = false) (trace s).

(** The state in which the shell has exited with [n]: the last command is
    a guarded one that returned [n], and none failed before it. *)
Definition stopped {W : Type} (n : N) (s : state W) : Prop :=
  n ≠ 0 ∧
  ∃ pre ev, trace s = pre ++ [ev]
            ∧ Forall (λ ev, failed_stmt ev = false) pre
            ∧ guarded (ev_ctx ev) = true ∧ ev_status ev = n.

(** A program that, when it reaches its end, has just run a command that
    returned 0. *)
Definition ends_calm {W A : Type} (m : sh W A) : Prop :=
  ∀ s a s', m s = Ret a s' → last_status s' = 0.

(** Two states that differ in output and log only. *)
Definition unchanged_but_log {W : Type} (s s' : state W) : Prop :=
  mach s' = mach s ∧ errexit s' = errexit s ∧ args s' = args s.

(* ================================================================== *)
(** ** The command lines of the two scripts *)

Definition program (argv : list string) : string :=
  match argv with p :: _ => p | [] => EmptyString end.

Definition is_one_of (x : string) (l : list string) : bool :=
  existsb (String.eqb x) l.

(** What a command line is, as far as the scripts use it. *)
Inductive kind :=
  | Builtin          (* set, echo, command, [, cd, exit *)
  | Utility          (* cp, mkdir, cat, cut: local files and text only *)
  | NodeQuery        (* node -v *)
  | PackageManager   (* apt-get (through sudo), npm, npx *)
  | Unknown.

#[global] Instance kind_eq_dec : EqDecision kind.
Proof. solve_decision. Defined.

Definition classify (argv : list string) : kind :=
  let p := program argv in
  if is_one_of p ["set"; "echo"; "command"; "["; "cd"; "exit"] then Builtin
  else if is_one_of p ["cp"; "mkdir"; "cat"; "cut"] then Utility
  else if String.eqb p "node" then
    match argv with [_; v] => if String.eqb v "-v" then NodeQuery else Unknown
                  | _ => Unknown end
  else if is_one_of p ["npm"; "npx"] then PackageManager
  else if String.eqb p "sudo" then
    match argv with
    | _ :: q :: _ => if String.eqb q "apt-get" then PackageManager else Unknown
    | _ => Unknown
    end
  else Unknown.

Definition known (k : ctx) (argv : list string) : Prop :=
  classify argv ≠ Unknown.

(** Package-manager commands that fetch from a package registry or
    archive: [apt-get update], [apt-get install], [npm install] and [npx]
    of a package given with a version tag. *)
Definition downloads (argv : list string) : bool :=
  match argv with
  | [] => false
  | p :: rest =>
      if String.eqb p "sudo" then
        match rest with
        | q :: sub :: _ =>
            String.eqb q "apt-get" && is_one_of sub ["update"; "install"]
        | _ => false
        end
      else if String.eqb p "npm" then
        match rest with sub :: _ => String.eqb sub "install" | [] => false end
      else String.eqb p "npx"
  end.

(** Commands that stay on the machine: the builtins ([command] only as
    [command -v], which looks a program up without running it), the core
    utilities on local files and text, and [node -v]. *)
Definition local_command (argv : list string) : bool :=
  match classify argv with
  | Builtin =>
      negb (String.eqb (program argv) "command")
      || match argv with
         | _ :: flag :: _ => String.eqb flag "-v"
         | _ => false
         end
  | Utility | NodeQuery => true
  | PackageManager | Unknown => false
  end.

(** The package-manager calls, by program and subcommand: [sudo apt-get
    update], [sudo apt-get install], [npm install], [npm init],
    [npm pkg] and [npx create-next-app@latest]. *)
Definition package_call (argv : list string) : bool :=
  match argv with
  | p :: sub :: rest =>
      if String.eqb p "sudo" then
        String.eqb sub "apt-get"
        && match rest with
           | op :: _ => is_one_of op ["update"; "install"]
           | [] => false
           end
      else if String.eqb p "npm" then is_one_of sub ["install"; "init"; "pkg"]
      else if String.eqb p "npx" then String.eqb sub "create-next-app@latest"
      else false
  | _ => false
  end.

(** Commands run through [sudo], which checks that the invoking user may
    run them as root and may ask for a password: the one authentication
    check a command of the scripts can make. *)
Definition elevates (argv : list string) : bool :=
  String.eqb (program argv) "sudo".

(** Commands of a tool-version check as [scripts/setup.sh] makes it: the
    look-up of the tool, the query of its version, the extraction of the
    major version and the numeric comparison. *)
Definition probes_version (argv : list string) : bool :=
  is_one_of (program argv) ["command"; "node"; "cut"]
  || (String.eqb (program argv) "["
      && match argv with _ :: _ :: op :: _ => String.eqb op "-lt" | _ => false end).

Definition known_unprobing (k : ctx) (argv : list string) : Prop :=
  classify argv ≠ Unknown ∧ probes_version argv = false.

(** The two provisioning scripts of the repository. *)
Inductive provisioning :=
  | ScriptsSetup      (* scripts/setup.sh *)
  | CodespaceSetup.   (* the Codespace setup.sh *)

Definition script_of {W : Type} (p : provisioning) (e : env W) : sh W unit :=
  match p with
  | ScriptsSetup => Setup.setup e
  | CodespaceSetup => Codespace.setup e
  end.

(** What a command line of script [p] may be: local or one of the
    package-manager calls, and run through [sudo] only in the Codespace
    script, for the two [apt-get] commands of lines 12 and 13. *)
Definition fits (p : provisioning) (k : ctx) (argv : list string) : Prop :=
  (local_command argv = true ∨ package_call argv = true)
  ∧ (elevates argv = true →
     p = CodespaceSetup
     ∧ (argv = ["sudo"; "apt-get"; "update"]
        ∨ argv = ["sudo"; "apt-get"; "install"; "-y"; "postgresql-client";
                  "git"; "curl"])).

(** What follows [set -e] in each. *)
Definition main_of {W : Type} (p : provisioning) (e : env W) : sh W unit :=
  match p with
  | ScriptsSetup => Setup.main e
  | CodespaceSetup => Codespace.main e
  end.

(** The state [set -e] leaves when it is the first command. *)
Definition armed {W : Type} (argv : list string) (t : tree) (w : W) : state W :=
  {| mach := Mach t [] w; out := [];
     trace := [Ev ["set"; "-e"] Stmt 0]; errexit := true; args := argv |}.

(** What is installed: no Node.js, or Node.js of some version. *)
Inductive node_install :=
  | Missing
  | Version (major minor patch : N).

(** The precondition of the script: Node.js 18 or later. *)
Definition meets_precondition (n : node_install) : bool :=
  match n with
  | Missing => false
  | Version major _ _ => 18 <=? major
  end.

(** The oracle answers as the installation [n] does: [command -v node]
    finds Node.js when there is one, and [node -v] prints its version
    line. *)
Definition installed {W} (e : env W) (w : W) (n : node_install) : Prop :=
  match n with
  | Missing => has_node e w = false
  | Version major minor patch =>
      has_node e w = true
      ∧ (node_v e w).2 = [Text.version_line major minor patch]
  end.

Definition passes {W A} (o : outcome W A) : bool :=
  match o with Ret _ _ => true | Halt _ _ => false end.

Definition msg_no_node : string :=
  "❌ Node.js is not installed. Please install Node.js 18+ and try again.".

Definition msg_old_node (line : string) : string :=
  "❌ Node.js version 18+ is required. Current version: " +:+ line.

(** What the script prints before it gives up. *)
Definition complaint (n : node_install) : string :=
  match n with
  | Missing => msg_no_node
  | Version major minor patch =>
      msg_old_node (Text.version_line major minor patch)
  end.

(** Command lines that can create or change files of the tree. *)
Definition modifies_files (argv : list string) : bool :=
  is_one_of (program argv) ["cp"; "mkdir"; "cat"; "npm"; "npx"; "sudo"].

Definition probe_only (k : ctx) (argv : list string) : Prop :=
  modifies_files argv = false.

(* ================================================================== *)
(** ** [scripts/setup.sh] from the version check on *)

Definition line_setting_up : string :=
  "🚀 Setting up Actual Build development environment...".

(** The state in which the version check starts: [set -e] and line 8 have
    run. *)
Definition started {W : Type} (argv : list string) (t : tree) (w : W) : state W :=
  {| mach := Mach t [] w;
     out := [line_setting_up];
     trace := [Ev ["set"; "-e"] Stmt 0; Ev ["echo"; line_setting_up] Stmt 0];
     errexit := true;
     args := argv |}.

(* ================================================================== *)
(** ** What [scripts/setup.sh] does to the project tree *)

Module SetupTree.

(** Lines 29-36 on the tree: nothing when [.env] is a regular file,
    otherwise the copy, which may fail. *)
Definition env_tree (t : tree) : option tree :=
  if Tree.is_file t [".env"] then Some t
  else match Tree.cp [".env.example"] [".env"] t with
       | (0, t') => Some t'
       | _ => None
       end.

(** Lines 39-59 and 61-82 on the tree: nothing when [dir/package.json] is
    a regular file, otherwise [mkdir -p dir] and the redirection, either
    of which may fail. *)
Definition package_tree (dir content : string) (t : tree) : option tree :=
  if Tree.is_file t [dir; "package.json"] then Some t
  else match Tree.mkdir_p [] [dir] t with
       | (0, t') => Tree.write [dir; "package.json"] content t'
       | _ => None
       end.

Definition files_tree (t : tree) : option tree :=
  match env_tree t with
  | Some t1 =>
      match package_tree "frontend" Setup.frontend_package_json t1 with
      | Some t2 => package_tree "backend" Setup.backend_package_json t2
      | None => None
      end
  | None => None
  end.

(** A tree on which the three steps cannot fail. *)
Definition env_ready (t : tree) : bool :=
  Tree.is_file t [".env"]
  || (Tree.is_file t [".env.example"] && bool_decide (t !! [".env"] = None)).

Definition package_ready (dir : string) (t : tree) : bool :=
  Tree.is_file t [dir; "package.json"]
  || (negb (Tree.is_file t [dir])
      && bool_decide (t !! [dir; "package.json"] = None)).

Definition ready (t : tree) : bool :=
  env_ready t && package_ready "frontend" t && package_ready "backend" t.

End SetupTree.

(* ================================================================== *)
(** ** Sample installations *)

Module Sample.

(** An oracle over a world without state: [node -v] prints [line] when
    Node.js is there, and every other program succeeds without touching
    the tree. *)
Definition still (present : bool) (line : string) : env unit :=
  {| has_node := λ _, present;
     node_v := λ _, if present then (0, [line]) else (127, []);
     exec := λ _ _ w t, Eff 0 [] t w |}.

Definition node20 : env unit := still true "v20.11.1".
Definition node16 : env unit := still true "v16.20.2".
Definition no_node : env unit := still false EmptyString.

(** A checkout with the environment template only. *)
Definition template : tree :=
  {[ [".env.example"] := File "DATABASE_URL=your_database_url" ]}.

(** A checkout with the template and the three package directories. *)
Definition checkout : tree :=
  <[["frontend"] := Dir]> (<[["backend"] := Dir]> (<[["shared"] := Dir]>
    template)).

(** [npm install] in a project whose workspaces are [frontend] and
    [backend]: the lock file names the workspaces whose [package.json]
    it finds. *)
Definition lock_of (t : tree) : string :=
  "root"
  +:+ (if Tree.is_file t ["frontend"; "package.json"] then " frontend"
       else EmptyString)
  +:+ (if Tree.is_file t ["backend"; "package.json"] then " backend"
       else EmptyString).

Definition workspaces : env unit :=
  {| has_node := λ _, true;
     node_v := λ _, (0, ["v20.11.1"]);
     exec := λ argv c w t,
       if bool_decide (argv = ["npm"; "install"])
       then Eff 0 [] (<[c ++ ["package-lock.json"] := File (lock_of t)]> t) w
       else Eff 0 [] t w |}.

End Sample.

(* ================================================================== *)
(** ** More of [scripts/setup.sh] *)

(** The text line 17 assigns to [NODE_VERSION], from the lines [node -v]
    printed. *)
Definition major_text (lines : list string) : string :=
  subst_text (map (Text.cut "." 1) (map (Text.cut "v" 2) lines)).

(** A version line without the leading [v]. *)
Definition bare_version_line (major minor patch : N) : string :=
  Text.dec major +:+ "." +:+ Text.dec minor +:+ "." +:+ Text.dec patch.

(** What the [npm install] of line 27 returns when the script is started
    on tree [t] in world [w]. *)
Definition npm_install {W : Type} (e : env W) (t : tree) (w : W) : effect W :=
  exec e ["npm"; "install"] [] w t.

(** Every path lines 29-82 can write: the three files they create, the two
    package directories, and the copy inside [.env] when that is a
    directory. *)
Definition setup_reach : list path :=
  [ [".env"]; [".env"; ".env.example"];
    ["frontend"]; ["frontend"; "package.json"];
    ["backend"]; ["backend"; "package.json"] ].

(* ================================================================== *)
(** ** More sample installations *)

Module Cases.

(** Node.js is found but does not start: [node -v] prints nothing. *)
Definition broken_node : env unit :=
  {| has_node := λ _, true;
     node_v := λ _, (127, []);
     exec := λ _ _ w t, Eff 0 [] t w |}.

(** Node.js 20.11.1 on a machine without network: every package
    manager call fails and leaves the tree alone. *)
Definition offline : env unit :=
  {| has_node := λ _, true;
     node_v := λ _, (0, ["v20.11.1"]);
     exec := λ _ _ w t, Eff 1 ["network unreachable"] t w |}.

(** A [node] that prints its version without the [v]. *)
Definition bare20 : env unit := Sample.still true "20.11.1".

(** A checkout in which the developer has filled in [.env] and
    [frontend/package.json]. *)
Definition configured : tree :=
  <[[".env"] := File "DATABASE_URL=postgres://localhost/actual"]>
    (<[["frontend"; "package.json"] := File "{}"]>
       (<[["README.md"] := File "# Actual Build"]> Sample.checkout)).

(** A checkout whose frontend has been installed before. *)
Definition frontend_installed : tree :=
  <[["frontend"; "node_modules"] := Dir]> Sample.checkout.

End Cases.

(* ================================================================== *)
(** ** More of the Codespace [setup.sh] *)

(** The three blocks that set up a package directory (lines 28-45, 47-153
    and 155-246). *)
Inductive block :=
  | Frontend
  | Backend
  | Shared.

Definition block_dir (b : block) : string :=
  match b with
  | Frontend => "frontend"
  | Backend => "backend"
  | Shared => "shared"
  end.

Definition block_of {W : Type} (e : env W) (b : block) : sh W unit :=
  match b with
  | Frontend => Codespace.frontend e
  | Backend => Codespace.backend e
  | Shared => Codespace.shared e
  end.

(** What the guard of a block looks for: [node_modules] as a directory
    (lines 31 and 50), [package.json] as a regular file (line 158). *)
Definition block_set_up (b : block) (t : tree) : bool :=
  match b with
  | Frontend => Tree.is_dir t ["frontend"; "node_modules"]
  | Backend => Tree.is_dir t ["backend"; "node_modules"]
  | Shared => Tree.is_file t ["shared"; "package.json"]
  end.

(** Pre- and postconditions of a shell program, for the runs that reach
    its end. *)
Definition triple {W A : Type}
    (P : state W → Prop) (m : sh W A) (Q : A → state W → Prop) : Prop :=
  ∀ s, P s → match m s with Ret a s' => Q a s' | Halt _ _ => True end.

(** The shell runs under [errexit] in directory [c], on a tree with
    property [T]. *)
Definition within {W : Type} (c : path) (T : tree → Prop) (s : state W)
  : Prop :=
  errexit s = true ∧ cwd (mach s) = c ∧ T (fs (mach s)).

Definition home {W : Type} (c : path) : state W → Prop :=
  within c (λ _, True).

(** The configuration files of lines 251-291 are regular files. *)
Definition configured (t : tree) : Prop :=
  Tree.is_file t [".prettierrc"] = true
  ∧ Tree.is_file t [".eslintrc.js"] = true.
(* ================================================================== *)
(** ** When the Codespace [setup.sh] cannot fail *)

Module CodespaceTree.

(** The directories the script enters with [cd]. *)
Definition entered : list path := [["frontend"]; ["backend"]; ["shared"]].

(** The directories it makes with [mkdir -p], with those on the way. *)
Definition made : list path :=
  [ ["backend"; "src"];
    ["shared"; "src"]; ["shared"; "src"; "types"];
    ["shared"; "src"; "utils"] ].

(** The files it writes with [cat >]. *)
Definition written : list path :=
  [ ["backend"; "tsconfig.json"]; ["backend"; "src"; "index.ts"];
    ["shared"; "tsconfig.json"]; ["shared"; "src"; "types"; "index.ts"];
    ["shared"; "src"; "index.ts"]; ["shared"; "src"; "utils"; "index.ts"];
    [".prettierrc"]; [".eslintrc.js"] ].

(** The entries of the tree that decide whether a step of the script's
    own succeeds: those above, and the two the [.env] step reads. *)
Definition scaffold : list path :=
  [[".env"]; [".env.example"]] ++ entered ++ made ++ written.

(** A tree on which no step of the script's own can fail: [.env] is a
    regular file, or is absent with [.env.example] a regular file; the
    three package directories are there; nothing that [mkdir -p] is to
    make is a regular file; and nothing that [cat >] is to write is a
    directory. *)
Definition ready (t : tree) : bool :=
  SetupTree.env_ready t
  && forallb (Tree.is_dir t) entered
  && forallb (λ p, negb (Tree.is_file t p)) made
  && forallb (λ p, negb (Tree.is_dir t p)) written.

End CodespaceTree.

(** The package managers do their work: every call of [apt-get], [npm]
    and [npx] returns 0 and leaves the entries of the scaffold as they
    are (whatever else it installs or creates). *)
Definition calm {W : Type} (e : env W) : Prop :=
  ∀ (argv : list string) (c : path) (w : W) (t : tree),
    classify argv = PackageManager →
    ef_status (exec e argv c w t) = 0
    ∧ ∀ p, In p CodespaceTree.scaffold →
           ef_fs (exec e argv c w t) !! p = t !! p.

(** The shell runs under [errexit] in directory [c], on a ready tree in
    which the directories [ds] exist. *)
Definition sound {W : Type} (c : path) (ds : list path) (s : state W) : Prop :=
  errexit s = true ∧ cwd (mach s) = c
  ∧ CodespaceTree.ready (fs (mach s)) = true
  ∧ Forall (λ d, fs (mach s) !! d = Some Dir) ds.

(** Pre- and postconditions of a shell program that reaches its end. *)
Definition total {W A : Type}
    (P : state W → Prop) (m : sh W A) (Q : A → state W → Prop) : Prop :=
  ∀ s, P s → ∃ a s', m s = Ret a s' ∧ Q a s'.

(* ================================================================== *)
(** ** The version line: what the pipeline of [setup.sh] extracts *)

Module TextFacts.
Import Text.

Lemma split_on_nonempty d s : split_on d s ≠ [].
Proof.
  induction s as [|c r IH]; simpl; [discriminate|].
  destruct (Ascii.eqb c d); [discriminate|].
  destruct (split_on d r); [contradiction|discriminate].
Qed.

Lemma split_on_absent d s : has_char d s = false → split_on d s = [s].
Proof.
  induction s as [|c r IH]; simpl; [reflexivity|].
  destruct (Ascii.eqb c d); simpl; [discriminate|].
  intros H. rewrite (IH H). reflexivity.
Qed.

Lemma split_on_first d s1 s2 :
  has_char d s1 = false →
  split_on d (s1 +:+ String d s2) = s1 :: split_on d s2.
Proof.
  induction s1 as [|c r IH]; simpl.
  - intros _. rewrite Ascii.eqb_refl. reflexivity.
  - destruct (Ascii.eqb c d); simpl; [discriminate|].
    intros H. rewrite (IH H). reflexivity.
Qed.

Lemma has_char_app d s1 s2 :
  has_char d (s1 +:+ s2) = has_char d s1 || has_char d s2.
Proof.
  induction s1 as [|c r IH]; simpl; [reflexivity|].
  rewrite IH. apply orb_assoc.
Qed.

Lemma digits_without d s :
  is_digit d = false → all_digits s = true → has_char d s = false.
Proof.
  intros Hd. induction s as [|c r IH]; simpl; [reflexivity|].
  intros [Hc Hr]%andb_true_iff. rewrite (IH Hr), orb_false_r.
  destruct (Ascii.eqb_spec c d) as [->|]; [congruence|reflexivity].
Qed.

Lemma string_of_uint_digits u : all_digits (NilEmpty.string_of_uint u) = true.
Proof. induction u; simpl; auto. Qed.

Lemma dec_digits n : all_digits (dec n) = true.
Proof. apply string_of_uint_digits. Qed.

Lemma dec_nonempty n : dec n ≠ EmptyString.
Proof.
  unfold dec. destruct n as [|p]; simpl; [discriminate|].
  pose proof (DecimalPos.Unsigned.to_uint_nonnil p) as H.
  destruct (Pos.to_uint p); simpl; congruence.
Qed.

Lemma digit_not_space c : is_digit c = true → is_space c = false.
Proof. destruct c as [[] [] [] [] [] [] [] []]; vm_compute; congruence. Qed.

Lemma digit_not_blank c : is_digit c = true → is_blank c = false.
Proof. destruct c as [[] [] [] [] [] [] [] []]; vm_compute; congruence. Qed.

Lemma digits_no_leading_space s :
  all_digits s = true → drop_leading_space s = s.
Proof.
  destruct s as [|c r]; simpl; [reflexivity|].
  intros [Hc _]%andb_true_iff. rewrite (digit_not_space c Hc). reflexivity.
Qed.

Lemma digits_no_trailing_blank s :
  all_digits s = true → drop_trailing_blank s = s.
Proof.
  induction s as [|c r IH]; simpl; [reflexivity|].
  intros [Hc Hr]%andb_true_iff. rewrite (IH Hr).
  destruct r; [rewrite (digit_not_blank c Hc)|]; reflexivity.
Qed.

(** A decimal numeral is read back as its value when it fits, and is
    refused by [[] when it does not. *)
Lemma parse_int_dec n :
  parse_int (dec n) =
    if (Z.of_N n <=? intmax_max)%Z then Some (Z.of_N n) else None.
Proof.
  unfold parse_int.
  rewrite (digits_no_leading_space _ (dec_digits n)).
  rewrite (digits_no_trailing_blank _ (dec_digits n)).
  pose proof (dec_digits n) as Hd. pose proof (dec_nonempty n) as Hn.
  assert (Hu : NilEmpty.uint_of_string (dec n) = Some (N.to_uint n))
    by apply NilEmpty.usu.
  destruct (dec n) as [|c r] eqn:E; [congruence|].
  assert (Hc : is_digit c = true).
  { simpl in Hd. apply andb_true_iff in Hd. tauto. }
  assert (c ≠ "-"%char) by (intros ->; discriminate).
  assert (c ≠ "+"%char) by (intros ->; discriminate).
  assert (Hb : match String c r with
               | String "-" r0 => (true, r0)
               | String "+" r0 => (false, r0)
               | _ => (false, String c r)
               end = (false, String c r)).
  { destruct c as [[] [] [] [] [] [] [] []]; try reflexivity; congruence. }
  rewrite Hb, Hu, DecimalN.Unsigned.of_to.
  assert (Hm : (intmax_min <=? Z.of_N n)%Z = true)
    by (apply Z.leb_le; unfold intmax_min; lia).
  rewrite Hm.
  reflexivity.
Qed.

Lemma cut_after_v rest :
  has_char "v" rest = false → cut "v" 2 ("v" +:+ rest) = rest.
Proof.
  intros Hv. unfold cut.
  change (split_on "v" ("v" +:+ rest))
    with (EmptyString :: split_on "v" rest).
  rewrite (split_on_absent _ _ Hv). reflexivity.
Qed.

(** The pipeline [cut -d'v' -f2 | cut -d'.' -f1] keeps the numeral of the
    major version. *)
Lemma cut_version_line major minor patch :
  cut "." 1 (cut "v" 2 (version_line major minor patch)) = dec major.
Proof.
  unfold version_line.
  set (rest := dec major +:+ "." +:+ dec minor +:+ "." +:+ dec patch).
  assert (Hv : has_char "v" rest = false).
  { unfold rest. repeat rewrite has_char_app.
    rewrite !(digits_without "v" _ eq_refl (dec_digits _)). reflexivity. }
  rewrite (cut_after_v rest Hv). unfold cut, rest.
  change (dec major +:+ "." +:+ dec minor +:+ "." +:+ dec patch)
    with (dec major +:+ String "." (dec minor +:+ "." +:+ dec patch)).
  rewrite split_on_first
    by (apply digits_without; [reflexivity|apply dec_digits]).
  pose proof (split_on_nonempty "." (dec minor +:+ "." +:+ dec patch)).
  destruct (split_on "." (dec minor +:+ "." +:+ dec patch));
    [contradiction|reflexivity].
Qed.

Lemma subst_text_line l : l ≠ EmptyString → subst_text [l] = l.
Proof.
  intros H. unfold subst_text. simpl.
  destruct (String.eqb_spec l EmptyString); [contradiction|reflexivity].
Qed.

Lemma lt_status_dec major :
  (lt_status (dec major) 18 =? 0) = (major <? 18).
Proof.
  unfold lt_status. rewrite parse_int_dec.
  destruct (N.ltb_spec major 18).
  - assert (Hm : (Z.of_N major <=? intmax_max)%Z = true)
      by (apply Z.leb_le; unfold intmax_max; lia).
    assert (Hl : (Z.of_N major <? 18)%Z = true) by (apply Z.ltb_lt; lia).
    rewrite Hm, Hl. reflexivity.
  - destruct (Z.of_N major <=? intmax_max)%Z; [|reflexivity].
    assert (Hl : (Z.of_N major <? 18)%Z = false) by (apply Z.ltb_ge; lia).
    rewrite Hl. reflexivity.
Qed.

End TextFacts.

Example cut_v_18 : Text.cut "." 1 (Text.cut "v" 2 "v18.17.0") = "18".
Proof. reflexivity. Qed.

Example parse_18 : Text.parse_int (Text.dec 18) = Some 18%Z.
Proof. reflexivity. Qed.

Example version_line_20 : Text.version_line 20 11 1 = "v20.11.1".
Proof. reflexivity. Qed.


(* ================================================================== *)
(** ** How single commands run *)

Section Steps.
Context {W : Type}.
Implicit Types (s : state W) (e : env W) (act : action W).

Lemma bind_ret_eq {A B} (m : sh W A) (k : A → sh W B) s a s' :
  m s = Ret a s' → bind m k s = k a s'.
Proof. unfold bind. intros ->. reflexivity. Qed.

Lemma bind_halt_eq {A B} (m : sh W A) (k : A → sh W B) s n s' :
  m s = Halt n s' → bind m k s = Halt n s'.
Proof. unfold bind. intros ->. reflexivity. Qed.

Lemma test_run argv act s :
  test argv act s =
    Ret (r_status (act (mach s)) =? 0) (record Cond argv (act (mach s)) s).
Proof. reflexivity. Qed.

Lemma stage_run argv act s :
  stage argv act s =
    Ret (r_out (act (mach s))) (record Sub argv (act (mach s)) s).
Proof. reflexivity. Qed.

Lemma run_ok argv act s :
  r_status (act (mach s)) = 0 →
  run argv act s = Ret tt (record Stmt argv (act (mach s)) s).
Proof.
  intros H. unfold run, bind, command. rewrite H. reflexivity.
Qed.

Lemma run_fail argv act s :
  errexit s = true → r_status (act (mach s)) ≠ 0 →
  run argv act s =
    Halt (r_status (act (mach s))) (record Stmt argv (act (mach s)) s).
Proof.
  intros He Hn. unfold run, bind, command. rewrite He.
  destruct (N.eqb_spec (r_status (act (mach s))) 0); [contradiction|].
  reflexivity.
Qed.

Lemma echo_run line s :
  echo line s = Ret tt (record Stmt ["echo"; line] (Res 0 [line] (mach s)) s).
Proof. apply run_ok. reflexivity. Qed.

Lemma node_v_text_run e s :
  node_v_text e s
  = Ret (subst_text (node_v e (world (mach s))).2)
      (record Sub ["node"; "-v"] (act_node_v e (mach s)) s).
Proof. reflexivity. Qed.

Lemma external_ok e argv s :
  ef_status (exec e argv (cwd (mach s)) (world (mach s)) (fs (mach s))) = 0 →
  external e argv s = Ret tt (record Stmt argv (act_exec e argv (mach s)) s).
Proof. intros H. apply run_ok. exact H. Qed.

Lemma external_fail e argv s :
  errexit s = true →
  ef_status (exec e argv (cwd (mach s)) (world (mach s)) (fs (mach s))) ≠ 0 →
  external e argv s
  = Halt (ef_status (exec e argv (cwd (mach s)) (world (mach s)) (fs (mach s))))
      (record Stmt argv (act_exec e argv (mach s)) s).
Proof. intros He H. apply (run_fail argv (act_exec e argv) s He H). Qed.

Lemma last_status_record k argv (r : result W) s :
  last_status (record k argv r s) = r_status r.
Proof. unfold last_status, record. simpl. rewrite last_snoc. reflexivity. Qed.

(** Either way a statement leaves the state [record] describes. *)
Lemma run_final argv act s :
  final (run argv act s) = record Stmt argv (act (mach s)) s.
Proof.
  unfold run, bind, command.
  destruct (guarded Stmt && negb (r_status (act (mach s)) =? 0)
            && errexit s); reflexivity.
Qed.

End Steps.

(* ================================================================== *)
(** ** Programs built from the shell's constructs *)

Section Scripts.
Context {W : Type}.
Implicit Types (s : state W) (P : ctx → list string → Prop).

Lemma script_weaken P Q A (m : sh W A) :
  (∀ k argv, P k argv → Q k argv) → script P m → script Q m.
Proof. intros HPQ H. induction H; constructor; auto. Qed.

(** A script only appends to the log, and only commands it may run. *)
Lemma script_trace P A (m : sh W A) :
  script P m →
  ∀ s, ∃ evs, trace (final (m s)) = trace s ++ evs
              ∧ Forall (λ ev, P (ev_ctx ev) (ev_argv ev)) evs.
Proof.
  induction 1 as [A a|A B m k Hm IHm Hk IHk|k argv act HP|HP|n Hn HP]; intros s.
  - exists []. split; [symmetry; apply app_nil_r|constructor].
  - destruct (IHm s) as (evs1 & E1 & F1). unfold bind.
    destruct (m s) as [a s'|n s']; simpl in *.
    + destruct (IHk a s') as (evs2 & E2 & F2).
      exists (evs1 ++ evs2). rewrite E2, E1, app_assoc.
      split; [reflexivity|apply Forall_app; auto].
    + exists evs1. auto.
  - exists [Ev argv k (r_status (act (mach s)))].
    split; [|repeat constructor; exact HP].
    unfold command.
    destruct (guarded k && negb (r_status (act (mach s)) =? 0)
              && errexit s); reflexivity.
  - exists [Ev ["set"; "-e"] Stmt 0]. split; [reflexivity|repeat constructor; exact HP].
  - exists [Ev ["exit"; Text.dec n] Stmt n].
    split; [reflexivity|repeat constructor; exact HP].
Qed.

(** Nothing a script does depends on its positional parameters. *)
Lemma script_args P A (m : sh W A) :
  script P m → ∀ a s, m (with_args a s) = on_final (with_args a) (m s).
Proof.
  induction 1 as [A x|A B m k Hm IHm Hk IHk|k argv act HP|HP|n Hn HP];
    intros a s.
  - reflexivity.
  - unfold bind. rewrite IHm. destruct (m s) as [x s'|n s']; simpl; auto.
  - unfold command. simpl.
    destruct (guarded k && negb (r_status (act (mach s)) =? 0)
              && errexit s); reflexivity.
  - reflexivity.
  - reflexivity.
Qed.

Lemma script_tidy P A (m : sh W A) :
  script P m →
  ∀ s, tidy s →
       match m s with
       | Ret _ s' => tidy s'
       | Halt n s' => stopped n s'
       end.
Proof.
  induction 1 as [A x|A B m k Hm IHm Hk IHk|k argv act HP|HP|n Hn HP];
    intros s [He Ht].
  - split; assumption.
  - unfold bind. specialize (IHm s (conj He Ht)).
    destruct (m s) as [x s'|n s']; [apply IHk; exact IHm|exact IHm].
  - unfold command. set (r := act (mach s)).
    rewrite He, andb_true_r.
    destruct (guarded k && negb (r_status r =? 0)) eqn:Hg; simpl.
    + apply andb_true_iff in Hg as [Hk Hr].
      split; [intros E; rewrite E in Hr; discriminate|].
      exists (trace s), (Ev argv k (r_status r)). auto.
    + split; [exact He|]. simpl. apply Forall_app. split; [exact Ht|].
      repeat constructor. exact Hg.
  - split; [reflexivity|]. simpl. apply Forall_app. split; [exact Ht|].
    repeat constructor.
  - split; [exact Hn|].
    exists (trace s), (Ev ["exit"; Text.dec n] Stmt n). auto.
Qed.

(** A script extends the log of whatever ran before it. *)
Lemma bind_trace_extends P A B (m : sh W A) (k : A → sh W B) s :
  (∀ a, script P (k a)) →
  ∃ rest, trace (final (bind m k s)) = trace (final (m s)) ++ rest.
Proof.
  intros Hk. unfold bind. destruct (m s) as [a s'|n s']; simpl.
  - destruct (script_trace P _ _ (Hk a) s') as (evs & E & _). eauto.
  - exists []. symmetry. apply app_nil_r.
Qed.

Lemma ends_calm_bind A B (m : sh W A) (k : A → sh W B) :
  (∀ a, ends_calm (k a)) → ends_calm (bind m k).
Proof.
  intros Hk s b s'. unfold bind.
  destruct (m s) as [a s0|n s0]; [apply Hk|discriminate].
Qed.

Lemma ends_calm_echo line : ends_calm (echo (W := W) line).
Proof.
  intros s a s'. rewrite echo_run. intros [= _ <-].
  apply last_status_record.
Qed.

(** One failed statement among calm ones is the last of the log. *)
Lemma failed_stmt_is_last (pre pre' post : list event) (ev ev' : event) :
  pre ++ ev :: post = pre' ++ [ev'] →
  Forall (λ x, failed_stmt x = false) pre' →
  failed_stmt ev = true →
  post = [] ∧ ev = ev'.
Proof.
  intros E Hpre Hev.
  destruct post as [|x post0 _] using rev_ind.
  - apply (app_inj_tail pre pre' ev ev') in E as [_ ->]. auto.
  - exfalso.
    replace (pre ++ ev :: post0 ++ [x]) with ((pre ++ ev :: post0) ++ [x])
      in E by (rewrite <- app_assoc; reflexivity).
    apply app_inj_tail in E as [<- _].
    apply Forall_app in Hpre as [_ Hpre].
    apply Forall_cons in Hpre as [Hpre _]. congruence.
Qed.

End Scripts.

(* ================================================================== *)
(** ** Proof automation *)

(** Derivations of [script] for concrete scripts are found by taking the
    program apart. *)
Ltac head_of t :=
  lazymatch t with
  | ?f _ => head_of f
  | _ => t
  end.

Ltac script_step side :=
  lazymatch goal with
  | |- ∀ _, _ => intro
  | |- script _ (if ?b then _ else _) => destruct b
  | |- script _ (bind _ _) => apply script_bind
  | |- script _ (ret _) => apply script_ret
  | |- script _ (command _ _ _) => apply script_command; side
  | |- script _ set_e => apply script_set_e; side
  | |- script _ (exit_ _) => apply script_exit; [discriminate | side]
  | |- script _ ?m => let h := head_of m in unfold h
  end.

Ltac script_auto side := repeat script_step side.

Ltac calm_step :=
  lazymatch goal with
  | |- ∀ _, _ => intro
  | |- ends_calm (bind _ _) => apply ends_calm_bind
  | |- ends_calm (echo _) => apply ends_calm_echo
  | |- ends_calm ?m => let h := head_of m in unfold h
  end.

Ltac side_known := first [ discriminate | split; [discriminate | reflexivity] ].

Ltac side_probe := exact eq_refl.

Ltac side_fits :=
  split;
  [ first [ left; reflexivity | right; reflexivity ]
  | first [ intros H; discriminate H
          | intros _; split;
            [ reflexivity | first [ left; reflexivity | right; reflexivity ] ] ] ].

(* ================================================================== *)
(** ** The scripts are programs of the shell *)

Lemma downloads_package_manager (argv : list string) :
  downloads argv = true → classify argv = PackageManager.
Proof.
  destruct argv as [|p rest]; [discriminate|].
  unfold downloads.
  destruct (String.eqb_spec p "sudo") as [->|Hsudo].
  - destruct rest as [|q [|sub rest]]; try discriminate.
    intros [Hq _]%andb_true_iff. apply String.eqb_eq in Hq as ->.
    reflexivity.
  - destruct (String.eqb_spec p "npm") as [->|Hnpm]; [reflexivity|].
    intros ->%String.eqb_eq. reflexivity.
Qed.

Section Derivations.
Context {W : Type}.
Variable e : env W.

Lemma setup_version_check_script : script known (Setup.version_check e).
Proof. script_auto side_known. Qed.

Lemma setup_provision_script : script known (Setup.provision e).
Proof. script_auto side_known. Qed.

Lemma setup_main_script : script known (Setup.main e).
Proof. script_auto side_known. Qed.

Lemma setup_script : script known (Setup.setup e).
Proof. script_auto side_known. Qed.

Lemma codespace_main_script : script known_unprobing (Codespace.main e).
Proof. script_auto side_known. Qed.

Lemma codespace_script : script known_unprobing (Codespace.setup e).
Proof. script_auto side_known. Qed.

Lemma script_of_script (p : provisioning) : script known (script_of p e).
Proof.
  destruct p; [exact setup_script|].
  apply (script_weaken known_unprobing); [|exact codespace_script].
  intros k argv [H _]. exact H.
Qed.

Lemma main_of_script (p : provisioning) : script known (main_of p e).
Proof.
  destruct p; [exact setup_main_script|].
  apply (script_weaken known_unprobing); [|exact codespace_main_script].
  intros k argv [H _]. exact H.
Qed.

Lemma script_of_fits (p : provisioning) : script (fits p) (script_of p e).
Proof. destruct p; script_auto side_fits. Qed.

Lemma script_of_boot (p : provisioning) (argv : list string) (t : tree) (w : W) :
  script_of p e (boot argv t w) = main_of p e (armed argv t w).
Proof. destruct p; reflexivity. Qed.

Lemma armed_tidy (argv : list string) (t : tree) (w : W) : tidy (armed argv t w).
Proof. split; [reflexivity|]. repeat constructor. Qed.

Lemma setup_ends_calm : ends_calm (Setup.setup e).
Proof. repeat calm_step. Qed.

Lemma codespace_ends_calm : ends_calm (Codespace.setup e).
Proof. repeat calm_step. Qed.

End Derivations.

(* ================================================================== *)
(** ** The version check of [scripts/setup.sh] *)

Section VersionCheck.
Context {W : Type}.
Variable e : env W.
Implicit Types (s : state W).

Import TextFacts.

Lemma major_of_version_line major minor patch :
  subst_text
    (map (Text.cut "." 1)
       (map (Text.cut "v" 2) [Text.version_line major minor patch]))
  = Text.dec major.
Proof.
  simpl map. rewrite cut_version_line.
  apply subst_text_line, dec_nonempty.
Qed.

Lemma version_line_nonempty major minor patch :
  Text.version_line major minor patch ≠ EmptyString.
Proof. discriminate. Qed.

(** [$(node -v | cut -d'v' -f2 | cut -d'.' -f1)] changes nothing but the
    log. *)
Lemma node_major_run s :
  ∃ s', node_major e s
        = Ret (subst_text (map (Text.cut "." 1)
                 (map (Text.cut "v" 2) (node_v e (world (mach s))).2))) s'
        ∧ mach s' = mach s ∧ out s' = out s
        ∧ errexit s' = errexit s ∧ args s' = args s.
Proof. eexists. split; [reflexivity|]. simpl. auto. Qed.

(** Node.js is missing: line 12 is printed and the shell exits with 1. *)
Lemma version_check_missing s :
  has_node e (world (mach s)) = false →
  ∃ s', Setup.version_check e s = Halt 1 s'
        ∧ unchanged_but_log s s' ∧ out s' = out s ++ [msg_no_node].
Proof.
  intros H. destruct s as [m o tr ex a]. simpl in H.
  unfold Setup.version_check, bind, command_v_node, test, bind, command.
  simpl. rewrite H. simpl.
  destruct ex; simpl; eexists; (split; [reflexivity|]);
    unfold unchanged_but_log; simpl; rewrite ?app_nil_r;
      repeat split; reflexivity.
Qed.

(** The test of line 18 on a version line. *)
Lemma version_check_line s major minor patch :
  installed e (world (mach s)) (Version major minor patch) →
  if major <? 18
  then ∃ s', Setup.version_check e s = Halt 1 s'
             ∧ unchanged_but_log s s'
             ∧ out s' = out s
                   ++ [msg_old_node (Text.version_line major minor patch)]
  else ∃ s', Setup.version_check e s = Ret tt s'
             ∧ unchanged_but_log s s' ∧ out s' = out s.
Proof.
  intros [Hn Hv]. destruct s as [m o tr ex a]. simpl in Hn, Hv.
  pose proof (major_of_version_line major minor patch) as Hmaj.
  pose proof (lt_status_dec major) as Hlt.
  unfold Setup.version_check, bind, command_v_node, test_lt, test,
    node_major, node_v_text, stage, last_stage, bind, command, ret,
    act_node_v,
    act_cut, act_test_lt.
  simpl. rewrite Hn. simpl. rewrite Hv. rewrite Hmaj.
  simpl Z.of_N in *.
  rewrite Hlt.
  destruct (major <? 18).
  - simpl. rewrite Hv.
    rewrite (subst_text_line _ (version_line_nonempty major minor patch)).
    unfold echo, run, bind, command, exit_, act_print. simpl.
    destruct ex; simpl; eexists; (split; [reflexivity|]);
      unfold unchanged_but_log; simpl; rewrite ?app_nil_r;
      repeat split; reflexivity.
  - eexists. split; [reflexivity|]. unfold unchanged_but_log. simpl.
    rewrite ?app_nil_r.
    repeat split; reflexivity.
Qed.

End VersionCheck.

(* ================================================================== *)
(** ** The file-creation steps of [scripts/setup.sh] on the tree *)

Module SetupTreeFacts.
Import SetupTree.

Lemma is_file_lookup (t : tree) (p : path) :
  Tree.is_file t p = true ↔ ∃ c, t !! p = Some (File c).
Proof.
  unfold Tree.is_file. destruct (t !! p) as [[c|]|]; split;
    try discriminate; eauto; intros [c' H]; congruence.
Qed.

Lemma is_file_insert_ne (t : tree) (p q : path) (x : node) :
  p ≠ q → Tree.is_file (<[p := x]> t) q = Tree.is_file t q.
Proof. intros H. unfold Tree.is_file. rewrite lookup_insert_ne; auto. Qed.

Lemma is_file_insert_file (t : tree) (p : path) (c : string) :
  Tree.is_file (<[p := File c]> t) p = true.
Proof. unfold Tree.is_file. rewrite lookup_insert_eq. reflexivity. Qed.

Lemma write_inv (p : path) (c : string) (t t' : tree) :
  Tree.write p c t = Some t' →
  Tree.is_dir t p = false ∧ Tree.is_dir t (Tree.parent p) = true
  ∧ t' = <[p := File c]> t.
Proof.
  unfold Tree.write. intros H.
  destruct (Tree.is_dir t p); [discriminate|].
  destruct (Tree.is_dir t (Tree.parent p)); [|discriminate].
  simplify_eq. auto.
Qed.

Lemma write_ok (p : path) (c : string) (t : tree) :
  Tree.is_dir t p = false → Tree.is_dir t (Tree.parent p) = true →
  Tree.write p c t = Some (<[p := File c]> t).
Proof. unfold Tree.write. intros -> ->. reflexivity. Qed.

(** The ways [env_tree] succeeds: [.env] is there already, or it is
    copied from [.env.example], into the directory [.env] if it is one. *)
Lemma env_tree_inv (t t' : tree) :
  env_tree t = Some t' →
  (Tree.is_file t [".env"] = true ∧ t' = t)
  ∨ (∃ c, t !! [".env"] = None ∧ t !! [".env.example"] = Some (File c)
          ∧ t' = <[[".env"] := File c]> t)
  ∨ (∃ c, t !! [".env"] = Some Dir ∧ t !! [".env.example"] = Some (File c)
          ∧ Tree.is_dir t [".env"; ".env.example"] = false
          ∧ t' = <[[".env"; ".env.example"] := File c]> t).
Proof.
  unfold env_tree, Tree.is_file, Tree.cp.
  destruct (t !! [".env"]) as [[c0|]|] eqn:E; intros H.
  - left. simplify_eq. auto.
  - right; right.
    destruct (t !! [".env.example"]) as [[c|]|]; try discriminate.
    assert (Hd : Tree.is_dir t [".env"] = true)
      by (unfold Tree.is_dir; rewrite E; reflexivity).
    rewrite Hd in H. unfold Tree.basename in H. simpl in H.
    destruct (Tree.write [".env"; ".env.example"] c t) as [t1|] eqn:Hw;
      [|discriminate].
    apply write_inv in Hw as (Hnd & _ & ->). simplify_eq. eauto.
  - right; left.
    destruct (t !! [".env.example"]) as [[c|]|]; try discriminate.
    assert (Hd : Tree.is_dir t [".env"] = false)
      by (unfold Tree.is_dir; rewrite E; reflexivity).
    rewrite Hd in H.
    destruct (Tree.write [".env"] c t) as [t1|] eqn:Hw; [|discriminate].
    apply write_inv in Hw as (_ & _ & ->). simplify_eq. eauto.
Qed.

Lemma env_tree_frame (t t' : tree) (p : path) :
  env_tree t = Some t' → p ≠ [".env"] → p ≠ [".env"; ".env.example"] →
  t' !! p = t !! p.
Proof.
  intros H H1 H2.
  destruct (env_tree_inv _ _ H)
    as [[_ ->]|[(c & _ & _ & ->)|(c & _ & _ & _ & ->)]];
    [reflexivity|..]; apply lookup_insert_ne; congruence.
Qed.

(** [env_tree] reads three places of the tree only. *)
Lemma env_tree_fixed (t u : tree) :
  env_tree t = Some t →
  u !! [".env"] = t !! [".env"] →
  u !! [".env.example"] = t !! [".env.example"] →
  u !! [".env"; ".env.example"] = t !! [".env"; ".env.example"] →
  env_tree u = Some u.
Proof.
  intros H E1 E2 E3.
  destruct (env_tree_inv _ _ H)
    as [[Hf _]|[(c & Hn & _ & Ht)|(c & Hd & Hx & _ & Ht)]].
  - unfold env_tree, Tree.is_file in *. rewrite E1, Hf. reflexivity.
  - exfalso. rewrite Ht, lookup_insert_eq in Hn. discriminate.
  - assert (Hc : t !! [".env"; ".env.example"] = Some (File c))
      by (rewrite Ht; apply lookup_insert_eq).
    unfold env_tree, Tree.is_file, Tree.cp.
    rewrite E1, Hd, E2, Hx.
    assert (Hdir : Tree.is_dir u [".env"] = true)
      by (unfold Tree.is_dir; rewrite E1, Hd; reflexivity).
    rewrite Hdir. unfold Tree.basename. simpl.
    rewrite write_ok.
    + rewrite insert_id by (rewrite E3; exact Hc). reflexivity.
    + unfold Tree.is_dir. rewrite E3, Hc. reflexivity.
    + exact Hdir.
Qed.

Lemma env_tree_settled (t t' : tree) :
  env_tree t = Some t' → env_tree t' = Some t'.
Proof.
  intros H.
  destruct (env_tree_inv _ _ H)
    as [[Hf ->]|[(c & Hn & Hx & ->)|(c & Hd & Hx & Hnd & ->)]].
  - exact H.
  - unfold env_tree. rewrite is_file_insert_file. reflexivity.
  - unfold env_tree, Tree.is_file, Tree.cp.
    rewrite !lookup_insert_ne by discriminate. rewrite Hd, Hx.
    assert (Hdir : Tree.is_dir (<[[".env"; ".env.example"] := File c]> t)
                     [".env"] = true).
    { unfold Tree.is_dir. rewrite lookup_insert_ne by discriminate.
      rewrite Hd. reflexivity. }
    rewrite Hdir. unfold Tree.basename. simpl. rewrite write_ok.
    + rewrite insert_insert_eq. reflexivity.
    + unfold Tree.is_dir. rewrite lookup_insert_eq. reflexivity.
    + exact Hdir.
Qed.

(** The ways [package_tree] succeeds. *)
Lemma package_tree_inv (dir content : string) (t t' : tree) :
  package_tree dir content t = Some t' →
  (Tree.is_file t [dir; "package.json"] = true ∧ t' = t)
  ∨ (Tree.is_file t [dir; "package.json"] = false
     ∧ t !! [dir] = Some Dir
     ∧ t' = <[[dir; "package.json"] := File content]> t)
  ∨ (Tree.is_file t [dir; "package.json"] = false
     ∧ t !! [dir] = None
     ∧ t' = <[[dir; "package.json"] := File content]> (<[[dir] := Dir]> t)).
Proof.
  unfold package_tree. intros H.
  destruct (Tree.is_file t [dir; "package.json"]) eqn:Hf.
  - left. simplify_eq. auto.
  - right. simpl in H.
    destruct (t !! [dir]) as [[c|]|] eqn:E; try discriminate.
    + left. apply write_inv in H as (_ & _ & ->). auto.
    + right. apply write_inv in H as (_ & _ & ->). auto.
Qed.

Lemma package_tree_file (dir content : string) (t t' : tree) :
  package_tree dir content t = Some t' →
  Tree.is_file t' [dir; "package.json"] = true.
Proof.
  intros H.
  destruct (package_tree_inv _ _ _ _ H) as [[Hf ->]|[(_ & _ & ->)|(_ & _ & ->)]];
    [exact Hf|apply is_file_insert_file..].
Qed.

Lemma package_tree_frame (dir content : string) (t t' : tree) (p : path) :
  package_tree dir content t = Some t' →
  p ≠ [dir] → p ≠ [dir; "package.json"] → t' !! p = t !! p.
Proof.
  intros H H1 H2.
  destruct (package_tree_inv _ _ _ _ H) as [[_ ->]|[(_ & _ & ->)|(_ & _ & ->)]];
    [reflexivity|..]; rewrite ?lookup_insert_ne by congruence; reflexivity.
Qed.

Lemma package_tree_skip (dir content : string) (t : tree) :
  Tree.is_file t [dir; "package.json"] = true →
  package_tree dir content t = Some t.
Proof. unfold package_tree. intros ->. reflexivity. Qed.

(** Idempotence on the tree: after the three steps have succeeded, doing
    them again changes nothing. *)
Lemma files_tree_settled (t t' : tree) :
  files_tree t = Some t' → files_tree t' = Some t'.
Proof.
  unfold files_tree. intros H.
  destruct (env_tree t) as [t1|] eqn:H1; [|discriminate].
  destruct (package_tree "frontend" _ t1) as [t2|] eqn:H2; [|discriminate].
  assert (Henv : env_tree t' = Some t').
  { apply (env_tree_fixed t1); [exact (env_tree_settled _ _ H1)|..];
      (etrans; [eapply package_tree_frame; [exact H|discriminate..]
               |eapply package_tree_frame; [exact H2|discriminate..]]). }
  assert (Hfront : Tree.is_file t' ["frontend"; "package.json"] = true).
  { unfold Tree.is_file.
    rewrite (package_tree_frame _ _ _ _ _ H) by discriminate.
    exact (package_tree_file _ _ _ _ H2). }
  rewrite Henv, (package_tree_skip _ _ _ Hfront).
  apply package_tree_skip. exact (package_tree_file _ _ _ _ H).
Qed.

Lemma env_tree_ok (t : tree) :
  env_ready t = true → ∃ t', env_tree t = Some t'.
Proof.
  unfold env_ready, env_tree. intros H.
  destruct (Tree.is_file t [".env"]) eqn:Hf; [eauto|]. simpl in H.
  apply andb_true_iff in H as [Hx Hn]. apply bool_decide_eq_true in Hn.
  apply is_file_lookup in Hx as [c Hx].
  unfold Tree.cp. rewrite Hx.
  assert (Hd : Tree.is_dir t [".env"] = false)
    by (unfold Tree.is_dir; rewrite Hn; reflexivity).
  rewrite Hd, write_ok; eauto.
Qed.

Lemma package_tree_ok (dir content : string) (t : tree) :
  package_ready dir t = true → ∃ t', package_tree dir content t = Some t'.
Proof.
  unfold package_ready, package_tree. intros H.
  destruct (Tree.is_file t [dir; "package.json"]) eqn:Hf; [eauto|].
  simpl in H. apply andb_true_iff in H as [Hd Hn].
  apply bool_decide_eq_true in Hn. apply negb_true_iff in Hd.
  unfold Tree.is_file in Hd. simpl.
  destruct (t !! [dir]) as [[c|]|] eqn:E; [discriminate|..];
    (rewrite write_ok; [eauto|..]); unfold Tree.is_dir; simpl;
    rewrite ?lookup_insert_ne by discriminate;
    rewrite ?Hn, ?E, ?lookup_insert_eq; reflexivity.
Qed.

Lemma package_ready_agree (dir : string) (t u : tree) :
  u !! [dir] = t !! [dir] →
  u !! [dir; "package.json"] = t !! [dir; "package.json"] →
  package_ready dir u = package_ready dir t.
Proof.
  intros E1 E2. unfold package_ready, Tree.is_file. rewrite E1, E2.
  reflexivity.
Qed.

(** On a ready tree the three steps succeed. *)
Lemma files_tree_ok (t : tree) : ready t = true → ∃ t', files_tree t = Some t'.
Proof.
  unfold ready, files_tree.
  intros [[He Hf]%andb_true_iff Hb]%andb_true_iff.
  destruct (env_tree_ok t He) as [t1 H1]. rewrite H1.
  assert (Hf1 : package_ready "frontend" t1 = true).
  { rewrite (package_ready_agree "frontend" t t1); [exact Hf|..];
      eapply env_tree_frame; eauto; discriminate. }
  destruct (package_tree_ok "frontend" Setup.frontend_package_json t1 Hf1)
    as [t2 H2].
  rewrite H2. apply package_tree_ok.
  rewrite (package_ready_agree "backend" t1 t2);
    [|eapply package_tree_frame; eauto; discriminate..].
  rewrite (package_ready_agree "backend" t t1); [exact Hb|..];
    eapply env_tree_frame; eauto; discriminate.
Qed.

End SetupTreeFacts.

(* ================================================================== *)
(** ** Runs of [scripts/setup.sh] *)

Section SetupRun.
Context {W : Type}.
Variable e : env W.
Implicit Types (s : state W).

Lemma setup_boot (argv : list string) (t : tree) (w : W) :
  Setup.setup e (boot argv t w)
  = bind (Setup.version_check e) (λ _, Setup.provision e) (started argv t w).
Proof. reflexivity. Qed.

Lemma last_status_snoc (m : machine W) o tr ev ex a :
  last_status (St m o (tr ++ [ev]) ex a) = ev_status ev.
Proof. unfold last_status. simpl. rewrite last_snoc. reflexivity. Qed.

(** Whatever is installed, the version check leaves the machine as it
    found it, and it ends the script with status 1 or not at all. *)
Lemma version_check_frame s :
  match Setup.version_check e s with
  | Ret _ s' => unchanged_but_log s s'
  | Halt n s' => n = 1 ∧ mach s' = mach s
  end.
Proof.
  destruct s as [m o tr ex a].
  unfold Setup.version_check, bind, command_v_node, test_lt, test,
    node_major, node_v_text, stage, last_stage, bind, command, ret,
    act_node_v,
    act_cut, act_test_lt, echo, run, exit_, bind, command, ret, act_print.
  simpl.
  destruct (has_node e (world m)); simpl.
  - match goal with |- context [N.eqb ?x 0] => destruct (N.eqb x 0) end;
      simpl; [destruct ex; simpl; auto|repeat split].
  - destruct ex; simpl; auto.
Qed.

Lemma env_file_run s :
  errexit s = true → cwd (mach s) = [] →
  match SetupTree.env_tree (fs (mach s)) with
  | Some t' => ∃ s', Setup.env_file s = Ret tt s'
                     ∧ mach s' = with_fs (mach s) t'
                     ∧ errexit s' = true ∧ args s' = args s
  | None => ∃ n s', Setup.env_file (W := W) s = Halt n s'
  end.
Proof.
  destruct s as [[t c w] o tr ex a]. simpl. intros -> ->.
  unfold SetupTree.env_tree, Setup.env_file, not_f, test, echo, cp, run,
    bind, command, ret, act_print.
  simpl. destruct (Tree.is_file t [".env"]); simpl.
  - eexists. repeat split.
  - destruct (Tree.cp [".env.example"] [".env"] t) as [[|n] t']; simpl;
      eauto 10.
Qed.

Lemma frontend_package_run s :
  errexit s = true → cwd (mach s) = [] →
  match SetupTree.package_tree "frontend" Setup.frontend_package_json
          (fs (mach s)) with
  | Some t' => ∃ s', Setup.frontend_package s = Ret tt s'
                     ∧ mach s' = with_fs (mach s) t'
                     ∧ errexit s' = true ∧ args s' = args s
  | None => ∃ n s', Setup.frontend_package (W := W) s = Halt n s'
  end.
Proof.
  destruct s as [[t c w] o tr ex a]. simpl. intros -> ->.
  unfold SetupTree.package_tree, Setup.frontend_package, not_f, test, echo,
    mkdir_p, cat_to, run, bind, command, ret, act_print.
  simpl. destruct (Tree.is_file t ["frontend"; "package.json"]); simpl.
  - eexists. repeat split.
  - destruct (t !! ["frontend"]) as [[x|]|]; simpl; eauto;
      destruct (Tree.write ["frontend"; "package.json"] _ _); simpl;
      eauto 10.
Qed.

Lemma backend_package_run s :
  errexit s = true → cwd (mach s) = [] →
  match SetupTree.package_tree "backend" Setup.backend_package_json
          (fs (mach s)) with
  | Some t' => ∃ s', Setup.backend_package s = Ret tt s'
                     ∧ mach s' = with_fs (mach s) t'
                     ∧ errexit s' = true ∧ args s' = args s
  | None => ∃ n s', Setup.backend_package (W := W) s = Halt n s'
  end.
Proof.
  destruct s as [[t c w] o tr ex a]. simpl. intros -> ->.
  unfold SetupTree.package_tree, Setup.backend_package, not_f, test, echo,
    mkdir_p, cat_to, run, bind, command, ret, act_print.
  simpl. destruct (Tree.is_file t ["backend"; "package.json"]); simpl.
  - eexists. repeat split.
  - destruct (t !! ["backend"]) as [[x|]|]; simpl; eauto;
      destruct (Tree.write ["backend"; "package.json"] _ _); simpl;
      eauto 10.
Qed.

Lemma closing_run s :
  errexit s = true →
  ∃ s', Setup.closing s = Ret tt s' ∧ mach s' = mach s
        ∧ last_status s' = 0 ∧ args s' = args s.
Proof.
  intros He. unfold Setup.closing.
  rewrite !(bind_ret_eq _ _ _ _ _ (echo_run _ _)). rewrite echo_run.
  eexists. split; [reflexivity|].
  split; [reflexivity|]. split; [apply last_status_record|reflexivity].
Qed.

(** The three file-creation steps and the closing lines, from the tree
    [npm install] left. *)
Lemma files_run s :
  errexit s = true → cwd (mach s) = [] →
  let steps : sh W unit :=
    bind Setup.env_file (λ _,
    bind Setup.frontend_package (λ _,
    bind Setup.backend_package (λ _, Setup.closing))) in
  match SetupTree.files_tree (fs (mach s)) with
  | Some t' => ∃ s', steps s = Ret tt s'
                     ∧ mach s' = with_fs (mach s) t'
                     ∧ last_status s' = 0 ∧ args s' = args s
  | None => ∃ n s', steps s = Halt n s'
  end.
Proof.
  intros He Hc. simpl. unfold SetupTree.files_tree.
  pose proof (env_file_run s He Hc) as H1.
  destruct (SetupTree.env_tree (fs (mach s))) as [t1|];
    [destruct H1 as (s1 & E1 & M1 & He1 & A1)
    |destruct H1 as (n & s1 & E1); rewrite (bind_halt_eq _ _ _ _ _ E1);
     eauto].
  rewrite !(bind_ret_eq _ _ _ _ _ E1).
  assert (Hc1 : cwd (mach s1) = []) by (rewrite M1; exact Hc).
  pose proof (frontend_package_run s1 He1 Hc1) as H2.
  rewrite M1 in H2. simpl in H2.
  destruct (SetupTree.package_tree "frontend" _ t1) as [t2|];
    [destruct H2 as (s2 & E2 & M2 & He2 & A2)
    |destruct H2 as (n & s2 & E2); rewrite (bind_halt_eq _ _ _ _ _ E2);
     eauto].
  rewrite !(bind_ret_eq _ _ _ _ _ E2).
  assert (Hc2 : cwd (mach s2) = []) by (rewrite M2; exact Hc).
  pose proof (backend_package_run s2 He2 Hc2) as H3.
  rewrite M2 in H3. simpl in H3.
  destruct (SetupTree.package_tree "backend" _ t2) as [t3|];
    [destruct H3 as (s3 & E3 & M3 & He3 & A3)
    |destruct H3 as (n & s3 & E3); rewrite (bind_halt_eq _ _ _ _ _ E3);
     eauto].
  rewrite !(bind_ret_eq _ _ _ _ _ E3).
  destruct (closing_run s3 He3) as (s4 & E4 & M4 & L4 & A4).
  exists s4. split; [exact E4|].
  split; [rewrite M4, M3; reflexivity|].
  split; [exact L4|congruence].
Qed.

(** Lines 23-92 from a state under [errexit] in the project root. *)
Lemma provision_run s :
  errexit s = true → cwd (mach s) = [] →
  let r := exec e ["npm"; "install"] [] (world (mach s)) (fs (mach s)) in
  if ef_status r =? 0
  then match SetupTree.files_tree (ef_fs r) with
       | Some t' => ∃ s', Setup.provision e s = Ret tt s'
                          ∧ mach s' = Mach t' [] (ef_world r)
                          ∧ last_status s' = 0 ∧ args s' = args s
       | None => ∃ n s', Setup.provision e s = Halt n s'
       end
  else ∃ s', Setup.provision e s = Halt (ef_status r) s'
             ∧ mach s' = Mach (ef_fs r) [] (ef_world r).
Proof.
  destruct s as [[t c w] o tr ex a]. simpl. intros -> ->.
  set (r := exec e ["npm"; "install"] [] w t).
  unfold Setup.provision.
  rewrite !(bind_ret_eq _ _ _ _ _ (node_v_text_run _ _)).
  rewrite !(bind_ret_eq _ _ _ _ _ (echo_run _ _)).
  destruct (N.eqb_spec (ef_status r) 0) as [Hs|Hs].
  - erewrite bind_ret_eq; [|apply external_ok; exact Hs].
    match goal with
    | |- context [bind Setup.env_file _ ?s0] =>
        pose proof (files_run s0 eq_refl eq_refl) as H
    end.
    simpl in H. fold r in H.
    destruct (SetupTree.files_tree (ef_fs r)) as [t'|].
    + destruct H as (s' & E & M & L & A). exists s'. auto.
    + exact H.
  - erewrite bind_halt_eq; [|apply external_fail; [reflexivity|exact Hs]].
    eexists. split; reflexivity.
Qed.

End SetupRun.

Section SetupGate.
Context {W : Type}.
Variable e : env W.
Implicit Types (s : state W) (n : node_install).

Lemma version_check_probes : script probe_only (Setup.version_check e).
Proof. script_auto side_probe. Qed.

Lemma version_check_unmet s n :
  installed e (world (mach s)) n → meets_precondition n = false →
  ∃ s', Setup.version_check e s = Halt 1 s'
        ∧ unchanged_but_log s s' ∧ out s' = out s ++ [complaint n].
Proof.
  intros Hi Hm. destruct n as [|major minor patch].
  - apply version_check_missing. exact Hi.
  - pose proof (version_check_line e s major minor patch Hi) as H.
    simpl in Hm. apply N.leb_gt in Hm.
    apply N.ltb_lt in Hm. rewrite Hm in H. exact H.
Qed.

Lemma version_check_met s n :
  installed e (world (mach s)) n → meets_precondition n = true →
  ∃ s', Setup.version_check e s = Ret tt s'
        ∧ unchanged_but_log s s' ∧ out s' = out s.
Proof.
  intros Hi Hm. destruct n as [|major minor patch]; [discriminate|].
  pose proof (version_check_line e s major minor patch Hi) as H.
  simpl in Hm. apply N.leb_le in Hm.
  apply N.ltb_ge in Hm. rewrite Hm in H. exact H.
Qed.

Lemma setup_unmet (argv : list string) (t : tree) (w : W) n :
  installed e w n → meets_precondition n = false →
  ∃ s', Setup.setup e (boot argv t w) = Halt 1 s'
        ∧ mach s' = Mach t [] w
        ∧ out s' = [line_setting_up; complaint n]
        ∧ Forall (λ ev, modifies_files (ev_argv ev) = false) (trace s').
Proof.
  intros Hi Hm. rewrite setup_boot.
  destruct (version_check_unmet (started argv t w) n Hi Hm)
    as (s' & E & (M & _ & _) & O).
  exists s'. rewrite (bind_halt_eq _ _ _ _ _ E).
  repeat split; [exact M|exact O|].
  destruct (script_trace _ _ _ version_check_probes (started argv t w))
    as (evs & Ht & Hevs).
  rewrite E in Ht. simpl in Ht. rewrite Ht.
  repeat constructor. exact Hevs.
Qed.

Lemma setup_met (argv : list string) (t : tree) (w : W) n :
  installed e w n → meets_precondition n = true →
  ∃ s', Setup.version_check e (started argv t w) = Ret tt s'
        ∧ Setup.setup e (boot argv t w) = Setup.provision e s'
        ∧ mach s' = Mach t [] w ∧ errexit s' = true ∧ args s' = argv.
Proof.
  intros Hi Hm. rewrite setup_boot.
  destruct (version_check_met (started argv t w) n Hi Hm)
    as (s' & E & (M & He & A) & O).
  exists s'. rewrite (bind_ret_eq _ _ _ _ _ E). auto.
Qed.

End SetupGate.

(** The sample installations are what their names say. *)
Example node20_installed : installed Sample.node20 tt (Version 20 11 1).
Proof. split; reflexivity. Qed.

Example node16_installed : installed Sample.node16 tt (Version 16 20 2).
Proof. split; reflexivity. Qed.

Example no_node_installed : installed Sample.no_node tt Missing.
Proof. reflexivity. Qed.
(* ================================================================== *)
(** ** Runs of the Codespace [setup.sh] on a ready tree *)

Module CodespaceTreeFacts.
Import CodespaceTree.

Lemma forallb_Forall {A : Type} (f : A → bool) (l : list A) :
  forallb f l = true ↔ Forall (λ x, f x = true) l.
Proof.
  induction l as [|x l IH]; simpl.
  - split; [constructor|reflexivity].
  - rewrite andb_true_iff, IH. split.
    + intros [H1 H2]. constructor; assumption.
    + intros H. inversion H; subst. auto.
Qed.

Lemma Forall_In {A : Type} (P : A → Prop) (l : list A) :
  Forall P l ↔ ∀ x, In x l → P x.
Proof.
  induction l as [|y l IH]; simpl.
  - split; [intros _ x []|constructor].
  - split.
    + intros H x [<-|Hx]; inversion H; subst; [assumption|].
      apply IH; assumption.
    + intros H. constructor; [apply H; auto|]. apply IH. auto.
Qed.

Lemma ready_spec (t : tree) :
  ready t = true ↔
  SetupTree.env_ready t = true
  ∧ (∀ p, In p entered → Tree.is_dir t p = true)
  ∧ (∀ p, In p made → Tree.is_file t p = false)
  ∧ (∀ p, In p written → Tree.is_dir t p = false).
Proof.
  unfold ready. rewrite !andb_true_iff, !forallb_Forall, !Forall_In.
  split.
  - intros [[[He Hd] Hm] Hw]. repeat split; [exact He|exact Hd|..];
      intros p Hp; apply negb_true_iff; auto.
  - intros (He & Hd & Hm & Hw). repeat split; [exact He|exact Hd|..];
      intros p Hp; apply negb_true_iff; auto.
Qed.

Lemma entered_scaffold (p : path) : In p entered → In p scaffold.
Proof.
  intros H. unfold scaffold. apply in_or_app. right.
  apply in_or_app. left. exact H.
Qed.

Lemma made_scaffold (p : path) : In p made → In p scaffold.
Proof.
  intros H. unfold scaffold. apply in_or_app. right.
  apply in_or_app. right. apply in_or_app. left. exact H.
Qed.

Lemma written_scaffold (p : path) : In p written → In p scaffold.
Proof.
  intros H. unfold scaffold. apply in_or_app. right.
  apply in_or_app. right. apply in_or_app. right. exact H.
Qed.

Lemma is_dir_agree (t u : tree) (p : path) :
  u !! p = t !! p → Tree.is_dir u p = Tree.is_dir t p.
Proof. intros H. destruct p; [reflexivity|]. simpl. rewrite H. reflexivity. Qed.

Lemma is_file_agree (t u : tree) (p : path) :
  u !! p = t !! p → Tree.is_file u p = Tree.is_file t p.
Proof. intros H. unfold Tree.is_file. rewrite H. reflexivity. Qed.

Lemma env_ready_agree (t u : tree) :
  u !! [".env"] = t !! [".env"] →
  u !! [".env.example"] = t !! [".env.example"] →
  SetupTree.env_ready u = SetupTree.env_ready t.
Proof.
  intros E1 E2. unfold SetupTree.env_ready, Tree.is_file.
  rewrite E1, E2. reflexivity.
Qed.

(** Readiness is decided by the scaffold. *)
Lemma ready_frame (t u : tree) :
  (∀ p, In p scaffold → u !! p = t !! p) →
  ready t = true → ready u = true.
Proof.
  intros H (He & Hd & Hm & Hw)%ready_spec. apply ready_spec.
  split; [|split; [|split]].
  - rewrite (env_ready_agree t u); [exact He|apply H; simpl; auto..].
  - intros p Hp. rewrite (is_dir_agree t u); [auto|].
    apply H, entered_scaffold, Hp.
  - intros p Hp. rewrite (is_file_agree t u); [auto|].
    apply H, made_scaffold, Hp.
  - intros p Hp. rewrite (is_dir_agree t u); [auto|].
    apply H, written_scaffold, Hp.
Qed.

Lemma is_dir_insert_ne (t : tree) (p q : path) (x : node) :
  p ≠ q → Tree.is_dir (<[p := x]> t) q = Tree.is_dir t q.
Proof. intros H. apply is_dir_agree, lookup_insert_ne, H. Qed.

Lemma is_dir_insert_dir (t : tree) (p : path) :
  Tree.is_dir (<[p := Dir]> t) p = true.
Proof.
  destruct p; [reflexivity|]. simpl. rewrite lookup_insert_eq. reflexivity.
Qed.

Lemma is_dir_insert_file (t : tree) (p : path) (c : string) :
  p ≠ [] → Tree.is_dir (<[p := File c]> t) p = false.
Proof.
  destruct p; [contradiction|]. intros _. simpl.
  rewrite lookup_insert_eq. reflexivity.
Qed.

Lemma is_file_insert_dir (t : tree) (p : path) :
  Tree.is_file (<[p := Dir]> t) p = false.
Proof. unfold Tree.is_file. rewrite lookup_insert_eq. reflexivity. Qed.

Lemma env_ready_insert_ne (t : tree) (p : path) (x : node) :
  p ≠ [".env"] → p ≠ [".env.example"] →
  SetupTree.env_ready (<[p := x]> t) = SetupTree.env_ready t.
Proof.
  intros H1 H2. apply env_ready_agree; apply lookup_insert_ne; assumption.
Qed.

(** A new entry keeps the tree ready when it is of the kind the script
    expects at its place. *)
Lemma ready_insert (t : tree) (p : path) (x : node) :
  ready t = true →
  SetupTree.env_ready (<[p := x]> t) = true →
  (In p entered → x = Dir) →
  (In p made → x = Dir) →
  (In p written → ∃ c, x = File c) →
  ready (<[p := x]> t) = true.
Proof.
  intros (He & Hd & Hm & Hw)%ready_spec He' Xd Xm Xw. apply ready_spec.
  split; [exact He'|]. split; [|split]; intros q Hq.
  - destruct (decide (p = q)) as [<-|Hn].
    + rewrite (Xd Hq). apply is_dir_insert_dir.
    + rewrite is_dir_insert_ne by exact Hn. auto.
  - destruct (decide (p = q)) as [<-|Hn].
    + rewrite (Xm Hq). apply is_file_insert_dir.
    + rewrite SetupTreeFacts.is_file_insert_ne by exact Hn. auto.
  - destruct (decide (p = q)) as [<-|Hn].
    + destruct (Xw Hq) as [c ->]. apply is_dir_insert_file.
      intros ->. simpl in Hq. intuition discriminate.
    + rewrite is_dir_insert_ne by exact Hn. auto.
Qed.

Lemma ready_write (t : tree) (p : path) (c : string) :
  ready t = true → In p written → ready (<[p := File c]> t) = true.
Proof.
  intros Hr Hp. apply ready_insert; [exact Hr|..].
  - rewrite env_ready_insert_ne;
      [apply ready_spec in Hr; tauto|..];
      intros ->; simpl in Hp; intuition discriminate.
  - intros Hq. exfalso. simpl in Hp, Hq.
    intuition (subst; discriminate).
  - intros Hq. exfalso. simpl in Hp, Hq.
    intuition (subst; discriminate).
  - eauto.
Qed.

Lemma ready_mkdir (t : tree) (p : path) :
  ready t = true → In p made → ready (<[p := Dir]> t) = true.
Proof.
  intros Hr Hp. apply ready_insert; [exact Hr|..].
  - rewrite env_ready_insert_ne;
      [apply ready_spec in Hr; tauto|..];
      intros ->; simpl in Hp; intuition discriminate.
  - reflexivity.
  - reflexivity.
  - intros Hq. exfalso. simpl in Hp, Hq.
    intuition (subst; discriminate).
Qed.

Lemma ready_env (t : tree) (c : string) :
  ready t = true → ready (<[[".env"] := File c]> t) = true.
Proof.
  intros Hr. apply ready_insert; [exact Hr|..].
  - unfold SetupTree.env_ready.
    rewrite SetupTreeFacts.is_file_insert_file. reflexivity.
  - simpl. intuition discriminate.
  - simpl. intuition discriminate.
  - simpl. intuition discriminate.
Qed.

(** On a ready tree without [.env] the copy of line 18 succeeds and
    leaves a ready tree. *)
Lemma ready_cp_env (t : tree) :
  ready t = true → Tree.is_file t [".env"] = false →
  ∃ t', Tree.cp [".env.example"] [".env"] t = (0, t') ∧ ready t' = true.
Proof.
  intros Hr Hf.
  assert (He : SetupTree.env_ready t = true)
    by (apply ready_spec in Hr; tauto).
  destruct (SetupTreeFacts.env_tree_ok t He) as [t' Ht].
  pose proof (SetupTreeFacts.env_tree_inv t t' Ht) as Hinv.
  unfold SetupTree.env_tree in Ht. rewrite Hf in Ht.
  destruct (Tree.cp [".env.example"] [".env"] t) as [[|n] t''];
    [|discriminate].
  injection Ht as ->. exists t'. split; [reflexivity|].
  destruct Hinv as [[Hf' _]|[(c & _ & _ & ->)|(c & Hd & _)]].
  - congruence.
  - apply ready_env, Hr.
  - exfalso. unfold SetupTree.env_ready in He. rewrite Hf in He.
    simpl in He. apply andb_true_iff in He as [_ Hn].
    apply bool_decide_eq_true in Hn. congruence.
Qed.

End CodespaceTreeFacts.

Section Sure.
Context {W : Type}.
Variable e : env W.
Hypothesis Hcalm : calm e.
Implicit Types (s : state W) (c p : path) (ds : list path).

Import CodespaceTree CodespaceTreeFacts.

Lemma total_ret {A} (P : state W → Prop) (Q : A → state W → Prop) (a : A) :
  (∀ s, P s → Q a s) → total P (ret a) Q.
Proof. intros H s Hs. exists a, s. split; [reflexivity|apply H, Hs]. Qed.

Lemma total_bind {A B} (P : state W → Prop) (R : A → state W → Prop)
    (Q : B → state W → Prop) (m : sh W A) (k : A → sh W B) :
  total P m R → (∀ a, total (R a) (k a) Q) → total P (bind m k) Q.
Proof.
  intros Hm Hk s Hs. destruct (Hm s Hs) as (a & s1 & E1 & H1).
  destruct (Hk a s1 H1) as (b & s2 & E2 & H2).
  exists b, s2. split; [|exact H2].
  rewrite (bind_ret_eq _ _ _ _ _ E1). exact E2.
Qed.

Lemma total_post {A} (P : state W → Prop) (Q Q' : A → state W → Prop)
    (m : sh W A) :
  total P m Q' → (∀ a s, Q' a s → Q a s) → total P m Q.
Proof.
  intros Hm HQ s Hs. destruct (Hm s Hs) as (a & s1 & E1 & H1).
  exists a, s1. auto.
Qed.

Lemma total_run (P : state W → Prop) (Q : unit → state W → Prop)
    argv (act : action W) :
  (∀ s, P s → r_status (act (mach s)) = 0
              ∧ Q tt (record Stmt argv (act (mach s)) s)) →
  total P (run argv act) Q.
Proof.
  intros H s Hs. destruct (H s Hs) as [H0 HQ].
  exists tt, (record Stmt argv (act (mach s)) s).
  split; [apply run_ok, H0|exact HQ].
Qed.

Lemma total_test (P : state W → Prop) (Q : bool → state W → Prop)
    argv (act : action W) :
  (∀ s, P s → Q (r_status (act (mach s)) =? 0)
                (record Cond argv (act (mach s)) s)) →
  total P (test argv act) Q.
Proof.
  intros H s Hs. eexists _, _. split; [apply test_run|apply H, Hs].
Qed.

Lemma sound_forget c ds s : sound c ds s → sound c [] s.
Proof. intros (He & Hc & Hr & _). repeat split; auto. Qed.

Lemma sure_ret {A} c ds (a : A) :
  total (W := W) (sound c ds) (ret a) (λ _, sound c ds).
Proof. apply total_ret. auto. Qed.

Lemma sure_echo c ds line :
  total (sound c ds) (echo (W := W) line) (λ _, sound c ds).
Proof.
  apply total_run. intros s Hs. split; [reflexivity|exact Hs].
Qed.

Lemma sure_external c ds argv :
  classify argv = PackageManager →
  total (sound c ds) (external e argv) (λ _, sound c []).
Proof.
  intros Hk. apply total_run. intros s (He & Hc & Hr & _).
  destruct (Hcalm argv (cwd (mach s)) (world (mach s)) (fs (mach s)) Hk)
    as [H0 Hfr].
  split; [exact H0|]. repeat split; simpl; [exact He|exact Hc| |constructor].
  exact (ready_frame _ _ Hfr Hr).
Qed.

Lemma sure_cd c ds p :
  In (c ++ p) entered →
  total (sound c ds) (cd (W := W) p) (λ _, sound (c ++ p) ds).
Proof.
  intros Hp. apply total_run. intros s (He & Hc & Hr & Hds). simpl.
  assert (Hd : Tree.is_dir (fs (mach s)) (cwd (mach s) ++ p) = true).
  { rewrite Hc. apply ready_spec in Hr as (_ & Hd & _). auto. }
  rewrite Hd. simpl. split; [reflexivity|].
  repeat split; simpl; [exact He|rewrite Hc; reflexivity|exact Hr|exact Hds].
Qed.

Lemma sure_cd_back c ds (x : string) :
  total (sound (c ++ [x]) ds) (cd_up (W := W)) (λ _, sound c ds).
Proof.
  apply total_run. intros s (He & Hc & Hr & Hds). split; [reflexivity|].
  repeat split; simpl; [exact He| |exact Hr|exact Hds].
  rewrite Hc. unfold Tree.parent. apply removelast_last.
Qed.

Lemma sure_not_d c ds p :
  total (sound c ds) (not_d (W := W) p) (λ _, sound c ds).
Proof. apply total_test. intros s Hs. exact Hs. Qed.

Lemma sure_not_f c ds p :
  total (sound c ds) (not_f (W := W) p) (λ _, sound c ds).
Proof. apply total_test. intros s Hs. exact Hs. Qed.

Lemma sure_cat_to c ds p content :
  In (c ++ p) written →
  In (Tree.parent (c ++ p)) ([] :: entered ++ ds) →
  total (sound c ds) (cat_to (W := W) p content) (λ _, sound c ds).
Proof.
  intros Hp Hpar. apply total_run. intros s (He & Hc & Hr & Hds). simpl.
  rewrite Hc.
  assert (Hnd : Tree.is_dir (fs (mach s)) (c ++ p) = false)
    by (apply ready_spec in Hr as (_ & _ & _ & Hw); auto).
  assert (Hpd : Tree.is_dir (fs (mach s)) (Tree.parent (c ++ p)) = true).
  { destruct Hpar as [<-|[Hin|Hin]%in_app_or]; [reflexivity|..].
    - apply ready_spec in Hr as (_ & Hd & _). auto.
    - apply Forall_In with (x := Tree.parent (c ++ p)) in Hds; [|exact Hin].
      unfold Tree.is_dir. rewrite Hds.
      destruct (Tree.parent (c ++ p)); reflexivity. }
  rewrite (SetupTreeFacts.write_ok _ _ _ Hnd Hpd). simpl.
  split; [reflexivity|].
  repeat split; simpl; [exact He|exact Hc|apply ready_write; assumption|].
  apply Forall_In. intros d Hd.
  apply Forall_In with (x := d) in Hds; [|exact Hd].
  rewrite lookup_insert_ne; [exact Hds|].
  intros <-. unfold Tree.is_dir in Hnd. rewrite Hds in Hnd.
  destruct (c ++ p); discriminate.
Qed.

(** One step of [mkdir -p] on a ready tree. *)
Lemma ready_mkdir_step (t : tree) (d : path) :
  ready t = true → In d made →
  ∃ t', (match t !! d with
         | Some (File _) => None
         | Some Dir => Some t
         | None => Some (<[d := Dir]> t)
         end) = Some t'
        ∧ ready t' = true ∧ t' !! d = Some Dir
        ∧ ∀ q, t !! q = Some Dir → t' !! q = Some Dir.
Proof.
  intros Hr Hd.
  assert (Hf : Tree.is_file t d = false)
    by (apply ready_spec in Hr as (_ & _ & Hm & _); auto).
  unfold Tree.is_file in Hf.
  destruct (t !! d) as [[x|]|] eqn:E; [discriminate|..].
  - exists t. auto.
  - exists (<[d := Dir]> t). split; [reflexivity|].
    split; [apply ready_mkdir; assumption|].
    split; [apply lookup_insert_eq|].
    intros q Hq. rewrite lookup_insert_ne; [exact Hq|congruence].
Qed.

Lemma sure_mkdir_one c ds (x : string) :
  In (c ++ [x]) made →
  total (sound c ds) (mkdir_p (W := W) [x])
    (λ _, sound c ((c ++ [x]) :: ds)).
Proof.
  intros Hx. apply total_run. intros s (He & Hc & Hr & Hds). simpl.
  rewrite Hc.
  destruct (ready_mkdir_step _ _ Hr Hx) as (t' & E & Hr' & Hd' & Hk).
  destruct (fs (mach s) !! (c ++ [x])) as [[y|]|]; [discriminate|..];
    injection E as <-; simpl; (split; [reflexivity|]);
    (repeat split; simpl; [exact He|exact Hc|exact Hr'|]);
    (constructor; [exact Hd'|]);
    apply Forall_In; intros d Hd; apply Hk;
    apply Forall_In with (x := d) in Hds; assumption.
Qed.

Lemma sure_mkdir_two c ds (x y : string) :
  In (c ++ [x]) made → In ((c ++ [x]) ++ [y]) made →
  total (sound c ds) (mkdir_p (W := W) [x; y])
    (λ _, sound c (((c ++ [x]) ++ [y]) :: (c ++ [x]) :: ds)).
Proof.
  intros Hx Hy. apply total_run. intros s (He & Hc & Hr & Hds). simpl.
  rewrite Hc.
  destruct (ready_mkdir_step _ _ Hr Hx) as (t1 & E1 & Hr1 & Hd1 & Hk1).
  destruct (ready_mkdir_step _ _ Hr1 Hy) as (t2 & E2 & Hr2 & Hd2 & Hk2).
  assert (Hres : Tree.mkdir_p c [x; y] (fs (mach s)) = (0, t2)).
  { simpl.
    destruct (fs (mach s) !! (c ++ [x])) as [[z|]|]; [discriminate|..];
      injection E1 as <-;
      (destruct (_ !! ((c ++ [x]) ++ [y])) as [[z|]|]; [discriminate|..]);
      injection E2 as <-; reflexivity. }
  simpl in Hres. rewrite Hres. simpl. split; [reflexivity|].
  repeat split; simpl; [exact He|exact Hc|exact Hr2|].
  constructor; [exact Hd2|]. constructor; [apply Hk2, Hd1|].
  apply Forall_In. intros d Hd. apply Hk2, Hk1.
  apply Forall_In with (x := d) in Hds; assumption.
Qed.

End Sure.

(** Each command of a block is looked up among the rules above. *)
Ltac sure_side := first [ exact eq_refl | vm_compute; auto 20 ].

Ltac sure_atom :=
  lazymatch goal with
  | |- total _ (ret _) _ => apply sure_ret
  | |- total _ (echo _) _ => apply sure_echo
  | |- total _ (external _ _) _ => apply sure_external; [assumption|reflexivity]
  | |- total _ (cd _) _ => apply sure_cd; sure_side
  | |- total _ cd_up _ => apply sure_cd_back
  | |- total _ (not_d _) _ => apply sure_not_d
  | |- total _ (not_f _) _ => apply sure_not_f
  | |- total _ (cat_to _ _) _ => apply sure_cat_to; sure_side
  | |- total _ (mkdir_p [_]) _ => apply sure_mkdir_one; sure_side
  | |- total _ (mkdir_p [_; _]) _ => apply sure_mkdir_two; sure_side
  end.

Ltac sure_step :=
  lazymatch goal with
  | |- ∀ _ : bool, _ => intros []; cbv beta iota
  | |- ∀ _, _ => intro
  | |- total _ (bind _ _) _ => eapply total_bind
  | |- total _ _ _ =>
      first [ sure_atom
            | eapply total_post; [sure_atom|intros ? ?; apply sound_forget] ]
  end.

Section CodespaceRun.
Context {W : Type}.
Variable e : env W.
Hypothesis Hcalm : calm e.
Implicit Types (s : state W).

Import CodespaceTree CodespaceTreeFacts.

Lemma sure_system_dependencies :
  total (sound [] []) (Codespace.system_dependencies e) (λ _, sound [] []).
Proof. unfold Codespace.system_dependencies. repeat sure_step. Qed.

Lemma sure_env_file :
  total (sound [] []) (Codespace.env_file (W := W)) (λ _, sound [] []).
Proof.
  intros s (He & Hc & Hr & _). destruct s as [[t c w] o tr ex a].
  simpl in He, Hc, Hr. subst ex c.
  unfold Codespace.env_file, not_f, test, echo, cp, run, bind, command,
    ret, act_print.
  simpl. destruct (Tree.is_file t [".env"]) eqn:Hf; simpl.
  - eexists _, _. split; [reflexivity|].
    repeat split; first [assumption|constructor].
  - destruct (ready_cp_env t Hr Hf) as (t' & -> & Hr'). simpl.
    eexists _, _. split; [reflexivity|].
    repeat split; first [assumption|constructor].
Qed.

Lemma sure_frontend :
  total (sound [] []) (Codespace.frontend e) (λ _, sound [] []).
Proof. unfold Codespace.frontend. repeat sure_step. Qed.

Lemma sure_backend :
  total (sound [] []) (Codespace.backend e) (λ _, sound [] []).
Proof. unfold Codespace.backend. repeat sure_step. Qed.

Lemma sure_shared :
  total (sound [] []) (Codespace.shared e) (λ _, sound [] []).
Proof. unfold Codespace.shared. repeat sure_step. Qed.

Lemma sure_configuration :
  total (sound [] []) (Codespace.configuration (W := W)) (λ _, sound [] []).
Proof. unfold Codespace.configuration. repeat sure_step. Qed.

Lemma sure_closing :
  total (sound [] []) (Codespace.closing (W := W)) (λ _, sound [] []).
Proof. unfold Codespace.closing. repeat sure_step. Qed.

Lemma sure_main :
  total (sound [] []) (Codespace.main e) (λ _, sound [] []).
Proof.
  unfold Codespace.main.
  eapply total_bind; [apply sure_echo|intro].
  eapply total_bind; [apply sure_system_dependencies|intro].
  eapply total_bind; [apply sure_env_file|intro].
  eapply total_bind; [apply sure_echo|intro].
  eapply total_bind; [apply sure_external; [exact Hcalm|reflexivity]|intro].
  eapply total_bind; [apply sure_frontend|intro].
  eapply total_bind; [apply sure_backend|intro].
  eapply total_bind; [apply sure_shared|intro].
  eapply total_bind; [apply sure_configuration|intro].
  apply sure_closing.
Qed.

(** With the package managers doing their work, the Codespace script
    runs to its last line on a ready tree. *)
Lemma codespace_completes (argv : list string) (t : tree) (w : W) :
  ready t = true →
  ∃ s', Codespace.setup e (boot argv t w) = Ret tt s'
        ∧ last_status s' = 0.
Proof.
  intros Hr.
  assert (Hs : sound [] [] (armed argv t w)) by (repeat split; auto).
  destruct (sure_main _ Hs) as ([] & s' & E & _).
  exists s'. split; [exact E|].
  exact (codespace_ends_calm e (boot argv t w) tt s' E).
Qed.

End CodespaceRun.

(* ================================================================== *)
(** ** The claims of the specification *)

Section VersionClaims.
Context {W : Type}.
Variable e : env W.

(** C2. [scripts/setup.sh] exits with a non-zero status (1) and prints a
  message whenever the Node.js precondition is unmet, that is when
  Node.js is missing or its major version is below 18; when the
  precondition is met the version check returns and the script goes on
  with the provisioning steps of lines 23-92. *)
Theorem setup_version_precondition
    (argv : list string) (t : tree) (w : W) (n : node_install) :
  installed e w n →
  let o := Setup.setup e (boot argv t w) in
  if meets_precondition n
  then ∃ s', Setup.version_check e (started argv t w) = Ret tt s'
             ∧ o = Setup.provision e s'
  else passes o = false ∧ exit_status o = 1
       ∧ last (out (final o)) = Some (complaint n).
Proof.
  intros Hi o. destruct (meets_precondition n) eqn:Hm.
  - destruct (setup_met e argv t w n Hi Hm) as (s' & E & Ho & _).
    exists s'. auto.
  - destruct (setup_unmet e argv t w n Hi Hm) as (s' & E & _ & O & _).
    unfold o. rewrite E. simpl. rewrite O. auto.
Qed.

(** C3. When the Node.js precondition is unmet, [scripts/setup.sh] exits
  with status 1 and the project tree and everything outside it are as
  they were before the run; no command that could write a file has
  run. *)
Theorem setup_unmet_writes_nothing
    (argv : list string) (t : tree) (w : W) (n : node_install) :
  installed e w n → meets_precondition n = false →
  let o := Setup.setup e (boot argv t w) in
  exit_status o = 1
  ∧ fs (mach (final o)) = t
  ∧ world (mach (final o)) = w
  ∧ Forall (λ ev, modifies_files (ev_argv ev) = false) (trace (final o)).
Proof.
  intros Hi Hm o.
  destruct (setup_unmet e argv t w n Hi Hm) as (s' & E & M & _ & T).
  unfold o. rewrite E. simpl. rewrite M. auto.
Qed.

(** C9. The version check of [scripts/setup.sh] looks at the major
  component only: with Node.js [major.minor.patch] installed it passes
  exactly when [major] is at least 18, whatever [minor] and [patch]. *)
Theorem version_check_major_only (s : state W) (major minor patch : N) :
  installed e (world (mach s)) (Version major minor patch) →
  passes (Setup.version_check e s) = (18 <=? major).
Proof.
  intros Hi.
  pose proof (version_check_line e s major minor patch Hi) as H.
  destruct (N.ltb_spec major 18) as [Hlt|Hge].
  - destruct H as (s' & -> & _). symmetry. apply N.leb_gt. exact Hlt.
  - destruct H as (s' & -> & _). symmetry. apply N.leb_le. exact Hge.
Qed.


(** C1, amended. A second run of [scripts/setup.sh] after a run that
  reached its end leaves the project tree as the first run left it,
  provided the [npm install] of the second run, which is not guarded,
  changes nothing in that tree.  The steps that create [.env],
  [frontend/package.json] and [backend/package.json] are each guarded by
  a test on their target, and a re-run skips them or writes the same
  content again. *)
Theorem setup_rerun_keeps_tree
    (argv argv' : list string) (t : tree) (w : W) (s1 : state W) :
  Setup.setup e (boot argv t w) = Ret tt s1 →
  ef_fs (exec e ["npm"; "install"] [] (world (mach s1)) (fs (mach s1)))
  = fs (mach s1) →
  fs (mach (final (Setup.setup e
                     (boot argv' (fs (mach s1)) (world (mach s1))))))
  = fs (mach s1).
Proof.
  intros H1 Hnpm.
  (* the first run: the three steps succeeded on the tree npm left *)
  assert (Hsettled : SetupTree.files_tree (fs (mach s1)) = Some (fs (mach s1))).
  { rewrite setup_boot in H1. unfold bind in H1.
    pose proof (version_check_frame e (started argv t w)) as Hv.
    destruct (Setup.version_check e (started argv t w)) as [[] s0|k s0];
      [|discriminate].
    destruct Hv as (M & He & _). simpl in M, He.
    pose proof (provision_run e s0 He) as H.
    rewrite M in H. simpl in H. specialize (H eq_refl).
    destruct (ef_status (exec e ["npm"; "install"] [] w t) =? 0).
    - destruct (SetupTree.files_tree _) as [t'|] eqn:Ht.
      + destruct H as (s' & E & M' & _). rewrite E in H1.
        injection H1 as <-. rewrite M'. simpl.
        exact (SetupTreeFacts.files_tree_settled _ _ Ht).
      + destruct H as (k & s' & E). rewrite E in H1. discriminate.
    - destruct H as (s' & E & _). rewrite E in H1. discriminate. }
  (* the second run *)
  set (t1 := fs (mach s1)) in *. set (w1 := world (mach s1)) in *.
  rewrite setup_boot. unfold bind.
  pose proof (version_check_frame e (started argv' t1 w1)) as Hv.
  destruct (Setup.version_check e (started argv' t1 w1)) as [[] s0|k s0].
  - destruct Hv as (M & He & _). simpl in M, He.
    pose proof (provision_run e s0 He) as H.
    rewrite M in H. simpl in H. specialize (H eq_refl).
    fold w1 t1 in H. rewrite Hnpm in H.
    destruct (ef_status (exec e ["npm"; "install"] [] w1 t1) =? 0).
    + rewrite Hsettled in H. destruct H as (s' & E & M' & _).
      rewrite E. simpl. rewrite M'. reflexivity.
    + destruct H as (s' & E & M'). rewrite E. simpl. rewrite M'.
      reflexivity.
  - destruct Hv as [_ M]. simpl. rewrite M. reflexivity.
Qed.

End VersionClaims.

(** Node.js 20.11.1 meets the precondition: the check returns and the
    script goes on. *)
Lemma setup_version_precondition_witness :
  ∃ s', Setup.version_check Sample.node20 (started [] Sample.template tt)
        = Ret tt s'
        ∧ Setup.setup Sample.node20 (boot [] Sample.template tt)
          = Setup.provision Sample.node20 s'.
Proof.
  apply (setup_version_precondition Sample.node20 [] Sample.template tt
           (Version 20 11 1)).
  split; reflexivity.
Defined.

(** Node.js 16.20.2 does not: the run ends with status 1 on an untouched
    tree. *)
Lemma setup_unmet_writes_nothing_witness :
  let o := Setup.setup Sample.node16 (boot [] Sample.template tt) in
  exit_status o = 1
  ∧ fs (mach (final o)) = Sample.template
  ∧ world (mach (final o)) = tt
  ∧ Forall (λ ev, modifies_files (ev_argv ev) = false) (trace (final o)).
Proof.
  apply (setup_unmet_writes_nothing Sample.node16 [] Sample.template tt
           (Version 16 20 2)).
  - split; reflexivity.
  - reflexivity.
Defined.

Lemma version_check_major_only_witness :
  passes (Setup.version_check Sample.node20 (boot [] Sample.template tt))
  = (18 <=? 20).
Proof.
  apply (version_check_major_only Sample.node20 (boot [] Sample.template tt)
           20 11 1).
  split; reflexivity.
Defined.



(** C1, as stated, fails: [npm install] runs unguarded on every run.  In a
    project whose workspaces are [frontend] and [backend] the first run
    installs before their [package.json] exist and the second run after,
    so the two runs leave different lock files. *)
Lemma setup_rerun_changes_tree :
  let o1 := Setup.setup Sample.workspaces (boot [] Sample.template tt) in
  let o2 := Setup.setup Sample.workspaces
              (boot [] (fs (mach (final o1))) (world (mach (final o1)))) in
  passes o1 = true
  ∧ fs (mach (final o1)) !! ["package-lock.json"] = Some (File "root")
  ∧ fs (mach (final o2)) !! ["package-lock.json"]
    = Some (File "root frontend backend").
Proof. repeat split; vm_compute; reflexivity. Qed.

Lemma setup_rerun_keeps_tree_witness :
  let s1 := final (Setup.setup Sample.node20 (boot [] Sample.template tt)) in
  fs (mach (final (Setup.setup Sample.node20
                     (boot [] (fs (mach s1)) (world (mach s1))))))
  = fs (mach s1).
Proof.
  apply (setup_rerun_keeps_tree Sample.node20 [] [] Sample.template tt).
  - vm_compute. reflexivity.
  - reflexivity.
Defined.

Section ScriptClaims.
Context {W : Type}.
Variable e : env W.

(** How a run of either script ends. *)
Lemma script_of_outcome
    (p : provisioning) (argv : list string) (t : tree) (w : W) :
  match script_of p e (boot argv t w) with
  | Ret _ s' => tidy s' ∧ last_status s' = 0
  | Halt n s' => stopped n s'
  end.
Proof.
  pose proof (script_tidy known _ _ (main_of_script e p) (armed argv t w)
                (armed_tidy argv t w)) as H.
  rewrite <- script_of_boot in H.
  assert (Hc : ends_calm (script_of p e))
    by (destruct p; [apply setup_ends_calm|apply codespace_ends_calm]).
  specialize (Hc (boot argv t w)).
  destruct (script_of p e (boot argv t w)) as [[] s'|n s']; [|exact H].
  split; [exact H|]. exact (Hc tt s' eq_refl).
Qed.

(** C7. Neither provisioning script reads its command-line arguments: run
  with any two argument lists, a script runs the same commands, prints
  the same lines, leaves the same tree and outside world and exits with
  the same status; nothing but the positional parameters themselves
  differs.  The exit status is the only result it returns: it is 0
  exactly when the script has run to its last line. *)
Theorem scripts_ignore_arguments
    (p : provisioning) (a1 a2 : list string) (t : tree) (w : W) :
  let o1 := script_of p e (boot a1 t w) in
  let o2 := script_of p e (boot a2 t w) in
  o2 = on_final (with_args a2) o1
  ∧ trace (final o2) = trace (final o1)
  ∧ out (final o2) = out (final o1)
  ∧ mach (final o2) = mach (final o1)
  ∧ exit_status o2 = exit_status o1
  ∧ (exit_status o1 = 0 ↔ passes o1 = true).
Proof.
  intros o1 o2.
  assert (E : o2 = on_final (with_args a2) o1)
    by exact (script_args known _ _ (script_of_script e p) a2 (boot a1 t w)).
  split; [exact E|].
  pose proof (script_of_outcome p a1 t w) as H. fold o1 in H.
  rewrite E. clear E o2.
  destruct o1 as [[] s'|n s']; simpl.
  - destruct H as [_ H].
    change (last_status (with_args a2 s')) with (last_status s').
    rewrite H. repeat split; reflexivity.
  - destruct H as [Hn _].
    repeat split; try reflexivity; [contradiction|discriminate].
Qed.

(** C8, amended. Both provisioning scripts run under [set -e]: when a
  command that is a statement of the script, or the last stage of the
  pipeline assigned at line 17, returns a non-zero status, no further
  command runs and the script ends with that status.  The tests of the
  [if]s and the commands inside [$(...)] whose status is not that of a
  statement are exempt: a test returns non-zero on ordinary runs and the
  script goes on. *)
Theorem errexit_stops_at_failed_statement
    (p : provisioning) (argv : list string) (t : tree) (w : W)
    (pre post : list event) (ev : event) :
  trace (final (script_of p e (boot argv t w))) = pre ++ ev :: post →
  guarded (ev_ctx ev) = true → ev_status ev ≠ 0 →
  post = []
  ∧ passes (script_of p e (boot argv t w)) = false
  ∧ exit_status (script_of p e (boot argv t w)) = ev_status ev.
Proof.
  intros Ht Hc Hs.
  assert (Hf : failed_stmt ev = true).
  { unfold failed_stmt. rewrite Hc.
    destruct (N.eqb_spec (ev_status ev) 0); [contradiction|reflexivity]. }
  pose proof (script_of_outcome p argv t w) as H.
  destruct (script_of p e (boot argv t w)) as [[] s'|n s']; simpl in *.
  - exfalso. destruct H as [[_ Hall] _]. rewrite Ht in Hall.
    apply Forall_app in Hall as [_ Hall].
    apply Forall_cons in Hall as [Hall _]. congruence.
  - destruct H as (_ & pre' & ev' & Ht' & Hpre & _ & Hn).
    rewrite Ht in Ht'.
    destruct (failed_stmt_is_last _ _ _ _ _ Ht' Hpre Hf) as [-> ->].
    auto.
Qed.

(** C5, amended. Every command the two provisioning scripts run is a
  shell builtin, a core utility working on local files and text,
  [node -v], or one of the package-manager calls [sudo apt-get update],
  [sudo apt-get install], [npm install], [npm init], [npm pkg] and
  [npx create-next-app@latest]: no database client is run, and the
  network is reached through the package-manager calls only, which the
  scripts do make.  The only authentication check is the one [sudo]
  makes: the Codespace script runs [sudo] for the [apt-get] commands of
  lines 12 and 13 and for nothing else, and [scripts/setup.sh] never
  runs it.  The layout wrapper makes no call at all: what it returns is
  the [html] and [body] elements around its children. *)
Theorem scripts_run_local_commands_and_package_managers
    (p : provisioning) (argv : list string) (t : tree) (w : W) :
  Forall (λ ev,
            (local_command (ev_argv ev) = true
             ∨ package_call (ev_argv ev) = true)
            ∧ (elevates (ev_argv ev) = true →
               p = CodespaceSetup
               ∧ (ev_argv ev = ["sudo"; "apt-get"; "update"]
                  ∨ ev_argv ev = ["sudo"; "apt-get"; "install"; "-y"; "postgresql-client"; "git"; "curl"])))
    (trace (final (script_of p e (boot argv t w))))
  ∧ ∀ children : Layout.ReactNode,
      Layout.RootLayout children
      = Layout.Element "html" [("lang", "en")]
          [Layout.Element "body" [("className", "antialiased")]
             [children]].
Proof.
  split; [|reflexivity].
  destruct (script_trace (fits p) _ _ (script_of_fits e p) (boot argv t w))
    as (evs & -> & Hevs).
  exact Hevs.
Qed.


End ScriptClaims.

(** C8, as stated, fails: on a run of [scripts/setup.sh] with Node.js
    20.11.1 the command [[ 20 -lt 18 ]] returns 1, the commands after it
    run all the same and the script ends with status 0. *)
Lemma failed_test_does_not_stop_setup :
  let o := Setup.setup Sample.node20 (boot [] Sample.template tt) in
  trace (final o) !! 6%nat = Some (Ev ["["; "20"; "-lt"; "18"; "]"] Cond 1)
  ∧ trace (final o) !! 10%nat = Some (Ev ["npm"; "install"] Stmt 0)
  ∧ exit_status o = 0.
Proof. repeat split; vm_compute; reflexivity. Qed.

(** A statement that fails: without [.env] and [.env.example] the copy of
    line 32 returns 1, is the last command run, and its status is the
    script's. *)
Lemma errexit_stops_at_failed_statement_witness :
  (@nil event) = []
  ∧ passes (script_of ScriptsSetup Sample.node20 (boot [] ∅ tt)) = false
  ∧ exit_status (script_of ScriptsSetup Sample.node20 (boot [] ∅ tt))
    = ev_status (Ev ["cp"; ".env.example"; ".env"] Stmt 1).
Proof.
  apply (errexit_stops_at_failed_statement Sample.node20 ScriptsSetup [] ∅ tt
           (removelast
              (trace (final (script_of ScriptsSetup Sample.node20
                               (boot [] ∅ tt)))))).
  - vm_compute. reflexivity.
  - reflexivity.
  - discriminate.
Defined.

(** C5, as stated, fails: the Codespace script runs [sudo apt-get update],
    which has [sudo] check the invoking user and then fetches the package
    lists from the network, and [scripts/setup.sh] runs [npm install],
    which fetches packages from the registry. *)
Lemma scripts_fetch_packages :
  trace (final (Codespace.setup Sample.node20 (boot [] Sample.checkout tt)))
    !! 3%nat
  = Some (Ev ["sudo"; "apt-get"; "update"] Stmt 0)
  ∧ downloads ["sudo"; "apt-get"; "update"] = true
  ∧ elevates ["sudo"; "apt-get"; "update"] = true
  ∧ trace (final (Setup.setup Sample.node20 (boot [] Sample.template tt)))
      !! 10%nat
    = Some (Ev ["npm"; "install"] Stmt 0)
  ∧ downloads ["npm"; "install"] = true.
Proof. repeat split; vm_compute; reflexivity. Qed.

(** C4. For every children value, the empty ones included, [RootLayout]
    returns a fixed shell, an [html] element with [lang] "en" whose only
    child is a [body] element with class name "antialiased", and the only
    child of that [body] is the children value itself. *)
Theorem root_layout_wraps_children (children : Layout.ReactNode) :
  Layout.tag_of (Layout.RootLayout children) = Some "html"
  ∧ Layout.props_of (Layout.RootLayout children) = [("lang", "en")]
  ∧ ∃ body,
      Layout.children_of (Layout.RootLayout children) = [body]
      ∧ Layout.tag_of body = Some "body"
      ∧ Layout.props_of body = [("className", "antialiased")]
      ∧ Layout.children_of body = [children].
Proof. repeat split. eexists. repeat split. Qed.

(* ================================================================== *)
(** ** Regular expressions: the matcher decides the language *)

Module RegexFacts.
Import Regex.

Lemma nullable_lang (r : regex) : nullable r = true ↔ lang r [].
Proof.
  split.
  - induction r as [| |p|r1 IH1 r2 IH2|r1 IH1 r2 IH2|r IH]; simpl;
      try discriminate.
    + intros _. constructor.
    + intros [H1 H2]%andb_true_iff.
      change (@nil N) with (@nil N ++ []). constructor; auto.
    + intros [H|H]%orb_true_iff;
        [apply lang_alt_l|apply lang_alt_r]; auto.
    + intros _. constructor.
  - intros H. remember [] as s eqn:Es.
    induction H as [|p c Hp|r1 r2 s1 s2 H1 IH1 H2 IH2|r1 r2 s H IH
                   |r1 r2 s H IH|r|r s1 s2 H1 IH1 H2 IH2]; simpl;
      try reflexivity; try discriminate.
    + apply app_eq_nil in Es as [-> ->]. rewrite IH1, IH2; auto.
    + rewrite IH; auto.
    + rewrite IH; auto. apply orb_true_r.
Qed.

Lemma deriv_sound (c : N) (r : regex) (s : jsstring) :
  lang (deriv c r) s → lang r (c :: s).
Proof.
  revert s.
  induction r as [| |p|r1 IH1 r2 IH2|r1 IH1 r2 IH2|r IH]; simpl; intros s H.
  - inversion H.
  - inversion H.
  - destruct (p c) eqn:Hp; inversion H; subst. constructor. exact Hp.
  - destruct (nullable r1) eqn:Hn.
    + inversion H as [| | |? ? ? H'| ? ? ? H'| |]; subst.
      * inversion H' as [| |? ? s1 s2 Ha Hb| | | |]; subst.
        change (c :: s1 ++ s2) with ((c :: s1) ++ s2).
        constructor; auto.
      * change (c :: s) with ([] ++ c :: s).
        constructor; [apply nullable_lang; exact Hn|auto].
    + inversion H as [| |? ? s1 s2 Ha Hb| | | |]; subst.
      change (c :: s1 ++ s2) with ((c :: s1) ++ s2).
      constructor; auto.
  - inversion H; subst; [apply lang_alt_l|apply lang_alt_r]; auto.
  - inversion H as [| |? ? s1 s2 Ha Hb| | | |]; subst.
    change (c :: s1 ++ s2) with ((c :: s1) ++ s2).
    constructor; auto.
Qed.

Lemma deriv_complete (c : N) (r : regex) (w : jsstring) :
  lang r w → ∀ s, w = c :: s → lang (deriv c r) s.
Proof.
  induction 1 as [|p x Hp|r1 r2 s1 s2 H1 IH1 H2 IH2|r1 r2 w H IH
                 |r1 r2 w H IH|r|r s1 s2 H1 IH1 H2 IH2]; intros s E;
    simpl.
  - discriminate.
  - injection E as -> <-. rewrite Hp. constructor.
  - destruct s1 as [|x s1'].
    + simpl in E. subst s2.
      apply nullable_lang in H1. rewrite H1.
      apply lang_alt_r. apply IH2. reflexivity.
    + injection E as -> <-.
      destruct (nullable r1);
        [apply lang_alt_l|]; constructor; auto.
  - apply lang_alt_l. auto.
  - apply lang_alt_r. auto.
  - discriminate.
  - destruct s1 as [|x s1'].
    + simpl in E. apply (IH2 s E).
    + injection E as -> <-. constructor; auto.
Qed.

Lemma deriv_lang (c : N) (r : regex) (s : jsstring) :
  lang (deriv c r) s ↔ lang r (c :: s).
Proof.
  split; [apply deriv_sound|]. intros H. exact (deriv_complete c r _ H s eq_refl).
Qed.

Lemma test_lang (r : regex) (s : jsstring) : test r s = true ↔ lang r s.
Proof.
  revert r. induction s as [|c s IH]; intros r; simpl.
  - apply nullable_lang.
  - rewrite IH. apply deriv_lang.
Qed.

Lemma lang_seq_iff (r1 r2 : regex) (s : jsstring) :
  lang (Seq r1 r2) s ↔ ∃ s1 s2, s = s1 ++ s2 ∧ lang r1 s1 ∧ lang r2 s2.
Proof.
  split.
  - intros H. inversion H; subst. eauto.
  - intros (s1 & s2 & -> & H1 & H2). constructor; auto.
Qed.

Lemma lang_class_iff (p : N → bool) (s : jsstring) :
  lang (Class p) s ↔ ∃ c, s = [c] ∧ p c = true.
Proof.
  split.
  - intros H. inversion H; subst. eauto.
  - intros (c & -> & H). constructor. exact H.
Qed.

Lemma lang_chr_iff (c : N) (s : jsstring) : lang (Chr c) s ↔ s = [c].
Proof.
  unfold Chr. rewrite lang_class_iff. split.
  - intros (x & -> & ->%N.eqb_eq). reflexivity.
  - intros ->. exists c. split; [reflexivity|apply N.eqb_refl].
Qed.

Lemma lang_star_class (p : N → bool) (s : jsstring) :
  lang (Star (Class p)) s ↔ Forall (λ c, p c = true) s.
Proof.
  split.
  - intros H. remember (Star (Class p)) as r eqn:Er.
    induction H as [| | | | |r0|r0 s1 s2 H1 _ H2 IH2]; try discriminate.
    + constructor.
    + injection Er as ->. apply Forall_app. split; [|auto].
      inversion H1; subst. repeat constructor. assumption.
  - induction 1 as [|c s' Hc _ IH]; [constructor|].
    change (c :: s') with ([c] ++ s'). constructor; [|exact IH].
    constructor. exact Hc.
Qed.

Lemma lang_plus_class (p : N → bool) (s : jsstring) :
  lang (Plus (Class p)) s ↔ s ≠ [] ∧ Forall (λ c, p c = true) s.
Proof.
  unfold Plus. rewrite lang_seq_iff. split.
  - intros (s1 & s2 & -> & (c & -> & Hc)%lang_class_iff & H2%lang_star_class).
    split; [discriminate|]. constructor; assumption.
  - intros [Hne H]. destruct s as [|c s']; [contradiction|].
    apply Forall_cons in H as [Hc H].
    exists [c], s'. split; [reflexivity|]. split.
    + constructor. exact Hc.
    + apply lang_star_class. exact H.
Qed.

End RegexFacts.

(* ================================================================== *)
(** ** [validateEmail] and [formatDate] *)

Module UtilsFacts.
Import Utils.

Lemma plain_not_at (c : N) : plain c = true → c ≠ at_sign.
Proof.
  unfold plain. intros H ->. rewrite N.eqb_refl, orb_true_r in H.
  discriminate.
Qed.

Lemma plain_not_space (c : N) : plain c = true → is_space c = false.
Proof.
  unfold plain. intros H. apply negb_true_iff in H.
  apply orb_false_iff in H. tauto.
Qed.

Lemma occurrences_app (c : N) (s1 s2 : jsstring) :
  occurrences c (s1 ++ s2) = (occurrences c s1 + occurrences c s2)%nat.
Proof. unfold occurrences. rewrite filter_app. apply length_app. Qed.

Lemma occurrences_plain (s : jsstring) :
  all_plain s → occurrences at_sign s = 0%nat.
Proof.
  unfold occurrences. induction 1 as [|c s Hc _ IH]; [reflexivity|].
  rewrite filter_cons_False by (apply plain_not_at; exact Hc). exact IH.
Qed.

Lemma all_plain_no_space (s : jsstring) :
  all_plain s → Forall (λ c, is_space c = false) s.
Proof.
  intros H. eapply Forall_impl; [exact H|exact plain_not_space].
Qed.

Lemma validateEmail_shape (email : jsstring) :
  validateEmail email = true ↔ email_shape email.
Proof.
  unfold validateEmail, emailRegex, email_shape.
  rewrite RegexFacts.test_lang.
  split.
  - intros (user & s1 & -> & [Hu Hup]%RegexFacts.lang_plus_class
            & (a & s2 & -> & ->%RegexFacts.lang_chr_iff
               & (host & s3 & -> & [Hh Hhp]%RegexFacts.lang_plus_class
                  & (d & rest & -> & ->%RegexFacts.lang_chr_iff
                     & [Hr Hrp]%RegexFacts.lang_plus_class
                    )%RegexFacts.lang_seq_iff
                 )%RegexFacts.lang_seq_iff
              )%RegexFacts.lang_seq_iff
           )%RegexFacts.lang_seq_iff.
    exists user, host, rest. repeat split; assumption.
  - intros (user & host & rest & -> & Hu & Hh & Hr & Hup & Hhp & Hrp).
    apply RegexFacts.lang_seq_iff. exists user, ([at_sign] ++ host ++ [full_stop] ++ rest).
    split; [reflexivity|]. split; [apply RegexFacts.lang_plus_class; auto|].
    apply RegexFacts.lang_seq_iff. exists [at_sign], (host ++ [full_stop] ++ rest).
    split; [reflexivity|]. split; [apply RegexFacts.lang_chr_iff; reflexivity|].
    apply RegexFacts.lang_seq_iff. exists host, ([full_stop] ++ rest).
    split; [reflexivity|]. split; [apply RegexFacts.lang_plus_class; auto|].
    apply RegexFacts.lang_seq_iff. exists [full_stop], rest.
    split; [reflexivity|]. split; [apply RegexFacts.lang_chr_iff; reflexivity|].
    apply RegexFacts.lang_plus_class; auto.
Qed.

(** *** Dates *)

Lemma digit_is_digit (n : N) : is_digit (digit n).
Proof.
  unfold is_digit, digit.
  pose proof (N.mod_upper_bound n 10 ltac:(discriminate)) as H.
  remember (n mod 10) as m eqn:Em. clear Em. lia.
Qed.

Lemma split_without (sep : N) (s : jsstring) :
  Forall (λ c, c ≠ sep) s → split sep s = [s].
Proof.
  induction 1 as [|c s Hc _ IH]; simpl; [reflexivity|].
  destruct (N.eqb_spec c sep); [contradiction|]. rewrite IH. reflexivity.
Qed.

Lemma split_first (sep : N) (s1 s2 : jsstring) :
  Forall (λ c, c ≠ sep) s1 →
  split sep (s1 ++ sep :: s2) = s1 :: split sep s2.
Proof.
  induction 1 as [|c s Hc _ IH]; simpl.
  - rewrite N.eqb_refl. reflexivity.
  - destruct (N.eqb_spec c sep); [contradiction|]. rewrite IH. reflexivity.
Qed.

Lemma iso_year_chars (y : Z) :
  Forall (λ c, c ≠ 84) (iso_year y).
Proof.
  unfold iso_year, four, six.
  assert (D : ∀ n, digit n ≠ 84)
    by (intros n; pose proof (digit_is_digit n); unfold is_digit in *; lia).
  destruct ((0 <=? y) && (y <=? 9999))%Z.
  - repeat constructor; apply D.
  - constructor; [destruct (y <? 0)%Z; discriminate|].
    repeat constructor; apply D.
Qed.

Lemma iso_date_chars (y : Z) (month day : N) :
  Forall (λ c, c ≠ 84) (iso_date y month day).
Proof.
  unfold iso_date, two.
  assert (D : ∀ n, digit n ≠ 84)
    by (intros n; pose proof (digit_is_digit n); unfold is_digit in *; lia).
  apply Forall_app. split; [apply iso_year_chars|].
  repeat constructor; try apply D; discriminate.
Qed.

Lemma iso_year_length (y : Z) :
  length (iso_year y)
  = if ((0 <=? y) && (y <=? 9999))%Z then 4%nat else 7%nat.
Proof. unfold iso_year. destruct ((0 <=? y) && (y <=? 9999))%Z; reflexivity. Qed.

End UtilsFacts.

(** X1. [validateEmail] accepts exactly the strings made of a non-empty
    user part, [@], a non-empty part, a full stop and a non-empty rest,
    where none of the three parts contains white space or [@] (full stops
    are allowed in all of them). *)
Theorem validateEmail_accepts_exactly (email : jsstring) :
  Utils.validateEmail email = true ↔ Utils.email_shape email.
Proof. apply UtilsFacts.validateEmail_shape. Qed.

(** X2. An address [validateEmail] accepts contains exactly one [@] and no
    white space, and has at least five code units; so the empty string, a
    string without [@] and a string with two [@] are all rejected. *)
Theorem validateEmail_accepted_is_sane (email : jsstring) :
  Utils.validateEmail email = true →
  Utils.occurrences Utils.at_sign email = 1%nat
  ∧ Forall (λ c, Utils.is_space c = false) email
  ∧ (5 ≤ length email)%nat.
Proof.
  intros (user & host & rest & -> & Hu & Hh & Hr & Hup & Hhp & Hrp)
    %UtilsFacts.validateEmail_shape.
  split; [|split].
  - rewrite !UtilsFacts.occurrences_app.
    rewrite (UtilsFacts.occurrences_plain user Hup),
      (UtilsFacts.occurrences_plain host Hhp),
      (UtilsFacts.occurrences_plain rest Hrp).
    reflexivity.
  - repeat (apply Forall_app; split);
      try (apply UtilsFacts.all_plain_no_space; assumption);
      repeat constructor.
  - rewrite !length_app. simpl.
    destruct user; [contradiction|]. destruct host; [contradiction|].
    destruct rest; [contradiction|]. simpl. lia.
Qed.

(** The address a@b.c, by its code units. *)
Lemma validateEmail_accepted_is_sane_witness :
  Utils.occurrences Utils.at_sign [97; 64; 98; 46; 99] = 1%nat
  ∧ Forall (λ c, Utils.is_space c = false) [97; 64; 98; 46; 99]
  ∧ (5 ≤ length [97; 64; 98; 46; 99])%nat.
Proof.
  apply (validateEmail_accepted_is_sane [97; 64; 98; 46; 99]).
  reflexivity.
Defined.

(** X3. [formatDate] returns the date part of the ISO format, that is the
    UTC calendar date [YYYY-MM-DD], whatever the time of day: ten code
    units for the years 0 to 9999 and thirteen (a sign and six digits for
    the year) otherwise.  On an invalid date it returns nothing, since
    [toISOString] throws. *)
Theorem formatDate_is_utc_date (date : Utils.Date) :
  match date with
  | Utils.Invalid => Utils.formatDate date = None
  | Utils.Utc y month day _ _ _ _ =>
      Utils.formatDate date = Some (Utils.iso_date y month day)
      ∧ length (Utils.iso_date y month day)
        = if ((0 <=? y) && (y <=? 9999))%Z then 10%nat else 13%nat
  end.
Proof.
  destruct date as [|y month day hours minutes seconds ms]; [reflexivity|].
  split.
  - unfold Utils.formatDate, Utils.toISOString.
    change (Utils.iso_date y month day ++ [84] ++ ?r)
      with (Utils.iso_date y month day ++ 84 :: r).
    rewrite UtilsFacts.split_first by apply UtilsFacts.iso_date_chars.
    reflexivity.
  - unfold Utils.iso_date. rewrite length_app, UtilsFacts.iso_year_length.
    destruct ((0 <=? y) && (y <=? 9999))%Z; reflexivity.
Qed.

(** 29 February 2024, 23:59:59.999 UTC. *)
Example formatDate_leap_day :
  Utils.formatDate (Utils.Utc 2024 2 29 23 59 59 999)
  = Some [50; 48; 50; 52; 45; 48; 50; 45; 50; 57].
Proof. reflexivity. Qed.
(* ================================================================== *)
(** ** [scripts/setup.sh]: the version check on any output of [node -v] *)

Section VersionMore.
Context {W : Type}.
Variable e : env W.
Implicit Types (s : state W).

(** With Node.js found, the check is decided by the status of
    [[ "$NODE_VERSION" -lt 18 ]] alone. *)
Lemma version_check_text s :
  has_node e (world (mach s)) = true →
  let a := major_text (node_v e (world (mach s))).2 in
  if Text.lt_status a 18 =? 0
  then passes (Setup.version_check e s) = false
  else ∃ s', Setup.version_check e s = Ret tt s'
             ∧ unchanged_but_log s s'
             ∧ trace s'
               = trace s
                 ++ [ Ev ["command"; "-v"; "node"] Cond 0;
                      Ev ["node"; "-v"] Sub (node_v e (world (mach s))).1;
                      Ev ["cut"; "-dv"; "-f2"] Sub 0;
                      Ev ["cut"; "-d."; "-f1"] Tail 0;
                      Ev ["["; a; "-lt"; "18"; "]"] Cond
                        (Text.lt_status a 18) ].
Proof.
  intros Hn a. destruct s as [m o tr ex a0]. simpl in Hn, a.
  unfold Setup.version_check, bind, command_v_node, test_lt, test,
    node_major, node_v_text, stage, last_stage, bind, command, ret,
    act_node_v, act_cut, act_test_lt.
  simpl. rewrite Hn. simpl. fold (major_text (node_v e (world m)).2).
  fold a. change (Z.of_N 18) with 18%Z.
  destruct (Text.lt_status a 18 =? 0) eqn:Hlt.
  - unfold echo, run, bind, command, exit_, act_print. simpl.
    destruct ex; reflexivity.
  - eexists. split; [reflexivity|]. unfold unchanged_but_log. simpl.
    rewrite <- !app_assoc. repeat split; reflexivity.
Qed.

Lemma major_of_bare_version_line major minor patch :
  major_text [bare_version_line major minor patch] = Text.dec major.
Proof.
  unfold major_text, bare_version_line. simpl map.
  assert (Hv : Text.has_char "v"
                 (Text.dec major +:+ "." +:+ Text.dec minor +:+ "."
                  +:+ Text.dec patch) = false).
  { repeat rewrite TextFacts.has_char_app.
    rewrite !(TextFacts.digits_without "v" _ eq_refl (TextFacts.dec_digits _)).
    reflexivity. }
  assert (E1 : Text.cut "v" 2
                 (Text.dec major +:+ "." +:+ Text.dec minor +:+ "."
                  +:+ Text.dec patch)
               = Text.dec major +:+ "." +:+ Text.dec minor +:+ "."
                 +:+ Text.dec patch).
  { unfold Text.cut. rewrite (TextFacts.split_on_absent _ _ Hv). reflexivity. }
  rewrite E1.
  assert (E2 : Text.cut "." 1
                 (Text.dec major +:+ "." +:+ Text.dec minor +:+ "."
                  +:+ Text.dec patch) = Text.dec major).
  { unfold Text.cut.
    change (Text.dec major +:+ "." +:+ Text.dec minor +:+ "." +:+ Text.dec patch)
      with (Text.dec major
            +:+ String "." (Text.dec minor +:+ "." +:+ Text.dec patch)).
    rewrite TextFacts.split_on_first
      by (apply TextFacts.digits_without;
          [reflexivity|apply TextFacts.dec_digits]).
    pose proof (TextFacts.split_on_nonempty "."
                  (Text.dec minor +:+ "." +:+ Text.dec patch)).
    destruct (Text.split_on "." (Text.dec minor +:+ "." +:+ Text.dec patch));
      [contradiction|reflexivity]. }
  rewrite E2. apply TextFacts.subst_text_line, TextFacts.dec_nonempty.
Qed.

(** X4. The version check of [scripts/setup.sh] fails open: when
  [command -v node] finds Node.js but the text the pipeline of line 17
  extracts from the output of [node -v] is not an integer (for instance
  because [node -v] printed nothing), the test [[ ... -lt 18 ]] returns
  2, which the [if] takes as false.  The check then returns: the
  commands it has run are the look-up, [node -v], the two [cut] and the
  test, so neither message of the script is echoed and no [exit] runs,
  and the machine is unchanged.  (The diagnostic bash itself prints on
  standard error for the failed test is outside the model.) *)
Theorem version_check_fails_open s :
  has_node e (world (mach s)) = true →
  Text.parse_int (major_text (node_v e (world (mach s))).2) = None →
  ∃ s', Setup.version_check e s = Ret tt s'
        ∧ unchanged_but_log s s'
        ∧ trace s'
          = trace s
            ++ [ Ev ["command"; "-v"; "node"] Cond 0;
                 Ev ["node"; "-v"] Sub (node_v e (world (mach s))).1;
                 Ev ["cut"; "-dv"; "-f2"] Sub 0;
                 Ev ["cut"; "-d."; "-f1"] Tail 0;
                 Ev ["["; major_text (node_v e (world (mach s))).2;
                     "-lt"; "18"; "]"] Cond 2 ].
Proof.
  intros Hn Hp. pose proof (version_check_text s Hn) as H. simpl in H.
  unfold Text.lt_status in H. rewrite Hp in H. exact H.
Qed.

(** X5. The leading [v] of the version line is optional for the check:
  [cut -d'v' -f2] prints a line without [v] whole, so for a [node -v]
  that prints [major.minor.patch] the check still passes exactly when
  [major] is at least 18. *)
Theorem version_check_accepts_bare_version s (major minor patch : N) :
  has_node e (world (mach s)) = true →
  (node_v e (world (mach s))).2 = [bare_version_line major minor patch] →
  passes (Setup.version_check e s) = (18 <=? major).
Proof.
  intros Hn Hv. pose proof (version_check_text s Hn) as H. simpl in H.
  rewrite Hv, major_of_bare_version_line, TextFacts.lt_status_dec in H.
  destruct (N.ltb_spec major 18) as [Hlt|Hge].
  - rewrite H. symmetry. apply N.leb_gt. exact Hlt.
  - destruct H as (s' & -> & _). symmetry. apply N.leb_le. exact Hge.
Qed.

End VersionMore.

Lemma version_check_fails_open_witness :
  ∃ s', Setup.version_check Cases.broken_node (boot [] Sample.template tt)
        = Ret tt s'
        ∧ unchanged_but_log (boot [] Sample.template tt) s'
        ∧ trace s'
          = [ Ev ["command"; "-v"; "node"] Cond 0;
              Ev ["node"; "-v"] Sub 127;
              Ev ["cut"; "-dv"; "-f2"] Sub 0;
              Ev ["cut"; "-d."; "-f1"] Tail 0;
              Ev ["["; EmptyString; "-lt"; "18"; "]"] Cond 2 ].
Proof.
  apply (version_check_fails_open Cases.broken_node
           (boot [] Sample.template tt)); reflexivity.
Defined.

Lemma version_check_accepts_bare_version_witness :
  passes (Setup.version_check Cases.bare20 (boot [] Sample.template tt))
  = (18 <=? 20).
Proof.
  apply (version_check_accepts_bare_version Cases.bare20
           (boot [] Sample.template tt) 20 11 1); reflexivity.
Defined.
(* ================================================================== *)
(** ** [scripts/setup.sh]: the tree a completed run leaves *)

Module SetupTreeMore.
Import SetupTree SetupTreeFacts.

Lemma files_tree_inv (t0 t1 : tree) :
  files_tree t0 = Some t1 →
  ∃ ta tb, env_tree t0 = Some ta
           ∧ package_tree "frontend" Setup.frontend_package_json ta = Some tb
           ∧ package_tree "backend" Setup.backend_package_json tb = Some t1.
Proof.
  unfold files_tree. intros H.
  destruct (env_tree t0) as [ta|]; [|discriminate].
  destruct (package_tree "frontend" _ ta) as [tb|] eqn:E; [|discriminate].
  eauto.
Qed.

Lemma not_file_not_dir (t : tree) (p : path) :
  Tree.is_file t p = false → Tree.is_dir t p = false → p ≠ [] →
  t !! p = None.
Proof.
  unfold Tree.is_file, Tree.is_dir. intros Hf Hd Hp.
  destruct p as [|x q]; [contradiction|].
  destruct (t !! (x :: q)) as [[c|]|]; congruence.
Qed.

(** [package_tree] creates; it changes nothing that is there. *)
Lemma package_tree_creates (dir content : string) (t t' : tree) :
  package_tree dir content t = Some t' →
  (Tree.is_file t [dir; "package.json"] = true ∧ t' = t)
  ∨ (t !! [dir; "package.json"] = None
     ∧ (t !! [dir] = Some Dir ∨ t !! [dir] = None)
     ∧ t' !! [dir] = Some Dir
     ∧ t' !! [dir; "package.json"] = Some (File content)
     ∧ ∀ p, p ≠ [dir] → p ≠ [dir; "package.json"] → t' !! p = t !! p).
Proof.
  unfold package_tree. intros H.
  destruct (Tree.is_file t [dir; "package.json"]) eqn:Hf.
  - left. simplify_eq. auto.
  - right. simpl in H.
    destruct (t !! [dir]) as [[c|]|] eqn:E; try discriminate.
    + apply write_inv in H as (Hd & _ & ->).
      split; [apply not_file_not_dir; auto; discriminate|].
      split; [auto|].
      rewrite lookup_insert_ne by discriminate.
      rewrite lookup_insert_eq. repeat split; [exact E|].
      intros p _ Hp. apply lookup_insert_ne. congruence.
    + apply write_inv in H as (Hd & _ & ->).
      assert (Hd' : Tree.is_dir t [dir; "package.json"] = false).
      { unfold Tree.is_dir in *.
        rewrite lookup_insert_ne in Hd by discriminate. exact Hd. }
      split; [apply not_file_not_dir; auto; discriminate|].
      split; [auto|].
      rewrite lookup_insert_ne by discriminate.
      rewrite !lookup_insert_eq. repeat split.
      intros p Hp1 Hp2. rewrite !lookup_insert_ne by congruence.
      reflexivity.
Qed.

Lemma package_tree_only_creates
    (dir content : string) (t t' : tree) (p : path) :
  package_tree dir content t = Some t' →
  t' !! p = t !! p
  ∨ ((p = [dir] ∨ p = [dir; "package.json"]) ∧ t !! p = None).
Proof.
  intros H.
  destruct (package_tree_creates _ _ _ _ H)
    as [[_ ->]|(Hn & Hd & Hd' & Hf' & Hfr)]; [auto|].
  destruct (decide (p = [dir])) as [->|N1].
  - destruct Hd as [Hd|Hd]; [left; congruence|right; auto].
  - destruct (decide (p = [dir; "package.json"])) as [->|N2];
      [right; auto|left; auto].
Qed.

Lemma env_tree_only_creates (t t' : tree) (p : path) :
  env_tree t = Some t' →
  t' !! p = t !! p
  ∨ (p = [".env"] ∧ t !! p = None)
  ∨ p = [".env"; ".env.example"].
Proof.
  intros H.
  destruct (env_tree_inv _ _ H)
    as [[_ ->]|[(c & Hn & _ & ->)|(c & _ & _ & _ & ->)]]; [auto|..].
  - destruct (decide (p = [".env"])) as [->|N1]; [auto|].
    left. apply lookup_insert_ne. congruence.
  - destruct (decide (p = [".env"; ".env.example"])) as [->|N1]; [auto|].
    left. apply lookup_insert_ne. congruence.
Qed.

(** The three steps together: an entry of the tree is left as it was, or
    it is one of six and was missing; the one entry that can be
    overwritten is the copy inside a directory [.env]. *)
Lemma files_tree_only_creates (t0 t1 : tree) (p : path) :
  files_tree t0 = Some t1 →
  t1 !! p = t0 !! p
  ∨ (In p setup_reach ∧ (t0 !! p = None ∨ p = [".env"; ".env.example"])).
Proof.
  intros (ta & tb & Ha & Hb & Hc)%files_tree_inv.
  pose proof (env_tree_only_creates _ _ p Ha) as Da.
  pose proof (package_tree_only_creates _ _ _ _ p Hb) as Db.
  pose proof (package_tree_only_creates _ _ _ _ p Hc) as Dc.
  destruct Da as [Ea|[[Pa Ea]|Pa]];
    destruct Db as [Eb|[[Pb|Pb] Eb]];
    destruct Dc as [Ec|[[Pc|Pc] Ec]];
    try (left; congruence);
    try (exfalso; congruence);
    subst p; right; (split; [unfold setup_reach; simpl; auto 10|]);
    first [ right; reflexivity | left; congruence ].
Qed.

(** What the steps guarantee and what they put where something was
    missing. *)
Lemma files_tree_creates (t0 t1 : tree) :
  files_tree t0 = Some t1 →
  (Tree.is_file t1 ["frontend"; "package.json"] = true
   ∧ Tree.is_file t1 ["backend"; "package.json"] = true
   ∧ (Tree.is_file t1 [".env"] = true
      ∨ Tree.is_file t1 [".env"; ".env.example"] = true))
  ∧ (t0 !! [".env"] = None →
     Tree.is_file t1 [".env"] = true
     ∧ t1 !! [".env"] = t0 !! [".env.example"])
  ∧ (t0 !! ["frontend"; "package.json"] = None →
     t1 !! ["frontend"; "package.json"]
     = Some (File Setup.frontend_package_json)
     ∧ t1 !! ["frontend"] = Some Dir)
  ∧ (t0 !! ["backend"; "package.json"] = None →
     t1 !! ["backend"; "package.json"]
     = Some (File Setup.backend_package_json)
     ∧ t1 !! ["backend"] = Some Dir).
Proof.
  intros (ta & tb & Ha & Hb & Hc)%files_tree_inv.
  assert (Fb : ∀ p, p ≠ ["frontend"] → p ≠ ["frontend"; "package.json"] →
                    tb !! p = ta !! p)
    by (intros p; apply package_tree_frame with (1 := Hb)).
  assert (Fc : ∀ p, p ≠ ["backend"] → p ≠ ["backend"; "package.json"] →
                    t1 !! p = tb !! p)
    by (intros p; apply package_tree_frame with (1 := Hc)).
  assert (Fa : ∀ p, p ≠ [".env"] → p ≠ [".env"; ".env.example"] →
                    ta !! p = t0 !! p)
    by (intros p; apply env_tree_frame with (1 := Ha)).
  split; [split; [|split]|split; [|split]].
  - unfold Tree.is_file. rewrite Fc by discriminate.
    exact (package_tree_file _ _ _ _ Hb).
  - exact (package_tree_file _ _ _ _ Hc).
  - unfold Tree.is_file. rewrite !Fc, !Fb by discriminate.
    destruct (env_tree_inv _ _ Ha)
      as [[Hf ->]|[(c & _ & _ & ->)|(c & _ & _ & _ & ->)]].
    + left. exact Hf.
    + left. rewrite lookup_insert_eq. reflexivity.
    + right. rewrite lookup_insert_eq. reflexivity.
  - intros Hn. unfold Tree.is_file. rewrite !Fc, !Fb by discriminate.
    destruct (env_tree_inv _ _ Ha)
      as [[Hf ->]|[(c & _ & Hx & ->)|(c & Hd & _ & _ & ->)]].
    + unfold Tree.is_file in Hf. rewrite Hn in Hf. discriminate.
    + rewrite lookup_insert_eq, Hx. auto.
    + congruence.
  - intros Hn. rewrite !Fc by discriminate.
    rewrite <- Fa in Hn by discriminate.
    destruct (package_tree_creates _ _ _ _ Hb)
      as [[Hf _]|(_ & _ & Hd' & Hf' & _)]; [|auto].
    unfold Tree.is_file in Hf. rewrite Hn in Hf. discriminate.
  - intros Hn.
    rewrite <- Fa, <- Fb in Hn by discriminate.
    destruct (package_tree_creates _ _ _ _ Hc)
      as [[Hf _]|(_ & _ & Hd' & Hf' & _)]; [|auto].
    unfold Tree.is_file in Hf. rewrite Hn in Hf. discriminate.
Qed.

End SetupTreeMore.

Section SetupComplete.
Context {W : Type}.
Variable e : env W.

(** A run that reaches the last line: [npm install] returned 0 and the
    three steps succeeded on the tree it left. *)
Lemma setup_complete_inv
    (argv : list string) (t : tree) (w : W) (s1 : state W) :
  Setup.setup e (boot argv t w) = Ret tt s1 →
  ef_status (npm_install e t w) = 0
  ∧ SetupTree.files_tree (ef_fs (npm_install e t w)) = Some (fs (mach s1))
  ∧ world (mach s1) = ef_world (npm_install e t w)
  ∧ cwd (mach s1) = [].
Proof.
  intros H1. rewrite setup_boot in H1. unfold bind in H1.
  pose proof (version_check_frame e (started argv t w)) as Hv.
  destruct (Setup.version_check e (started argv t w)) as [[] s0|k s0];
    [|discriminate].
  destruct Hv as (M & He & _). simpl in M, He.
  pose proof (provision_run e s0 He) as H.
  rewrite M in H. simpl in H. specialize (H eq_refl).
  fold (npm_install e t w) in H.
  destruct (N.eqb_spec (ef_status (npm_install e t w)) 0) as [Hs|Hs].
  - destruct (SetupTree.files_tree _) as [t'|] eqn:Ht.
    + destruct H as (s' & E & M' & _). rewrite E in H1.
      injection H1 as <-. rewrite M'. simpl. auto.
    + destruct H as (k & s' & E). rewrite E in H1. discriminate.
  - destruct H as (s' & E & _). rewrite E in H1. discriminate.
Qed.

(** X6. What a completed run of [scripts/setup.sh] guarantees: in the tree
  it leaves, [frontend/package.json] and [backend/package.json] are
  regular files, and [.env] is one too (or a directory holding a copy of
  [.env.example]); where [npm install] left one of the three missing, the
  new file holds the here-document of the script (for [.env], the
  content of [.env.example]) and the package directory exists. *)
Theorem setup_creates_missing_files
    (argv : list string) (t : tree) (w : W) (s1 : state W) :
  Setup.setup e (boot argv t w) = Ret tt s1 →
  let t0 := ef_fs (npm_install e t w) in
  let t1 := fs (mach s1) in
  (Tree.is_file t1 ["frontend"; "package.json"] = true
   ∧ Tree.is_file t1 ["backend"; "package.json"] = true
   ∧ (Tree.is_file t1 [".env"] = true
      ∨ Tree.is_file t1 [".env"; ".env.example"] = true))
  ∧ (t0 !! [".env"] = None →
     Tree.is_file t1 [".env"] = true
     ∧ t1 !! [".env"] = t0 !! [".env.example"])
  ∧ (t0 !! ["frontend"; "package.json"] = None →
     t1 !! ["frontend"; "package.json"]
     = Some (File Setup.frontend_package_json)
     ∧ t1 !! ["frontend"] = Some Dir)
  ∧ (t0 !! ["backend"; "package.json"] = None →
     t1 !! ["backend"; "package.json"]
     = Some (File Setup.backend_package_json)
     ∧ t1 !! ["backend"] = Some Dir).
Proof.
  intros (_ & Hf & _)%setup_complete_inv.
  exact (SetupTreeMore.files_tree_creates _ _ Hf).
Qed.

(** X7. After [npm install], a completed run of [scripts/setup.sh] only
  creates: every entry of the tree is as [npm install] left it, except
  that an entry among [.env], [frontend], [frontend/package.json],
  [backend], [backend/package.json] can be new where there was none,
  and that a directory [.env] receives a copy of [.env.example]; so no
  existing [.env] or [package.json] is overwritten and nothing is
  deleted.  Outside the tree the run changes nothing after
  [npm install], and it ends in the directory it started in. *)
Theorem setup_only_creates
    (argv : list string) (t : tree) (w : W) (s1 : state W) (p : path) :
  Setup.setup e (boot argv t w) = Ret tt s1 →
  (fs (mach s1) !! p = ef_fs (npm_install e t w) !! p
   ∨ (In p setup_reach
      ∧ (ef_fs (npm_install e t w) !! p = None
         ∨ p = [".env"; ".env.example"])))
  ∧ world (mach s1) = ef_world (npm_install e t w)
  ∧ cwd (mach s1) = [].
Proof.
  intros (_ & Hf & Hw & Hc)%setup_complete_inv.
  split; [|auto].
  exact (SetupTreeMore.files_tree_only_creates _ _ p Hf).
Qed.

(** X8. When the version check has passed and the [npm install] of line
  27 returns a non-zero status, [scripts/setup.sh] ends there with that
  status: [npm install] is the last command run, none of the steps that
  create [.env] or a [package.json] has run, and the machine is as
  [npm install] left it. *)
Theorem setup_stops_when_npm_install_fails
    (argv : list string) (t : tree) (w : W) :
  passes (Setup.version_check e (started argv t w)) = true →
  ef_status (npm_install e t w) ≠ 0 →
  let o := Setup.setup e (boot argv t w) in
  passes o = false
  ∧ exit_status o = ef_status (npm_install e t w)
  ∧ mach (final o)
    = Mach (ef_fs (npm_install e t w)) [] (ef_world (npm_install e t w))
  ∧ last (trace (final o))
    = Some (Ev ["npm"; "install"] Stmt (ef_status (npm_install e t w))).
Proof.
  intros Hp Hs o. unfold o. clear o.
  pose proof (version_check_frame e (started argv t w)) as Hv.
  destruct (Setup.version_check e (started argv t w)) as [[] s0|k s0] eqn:Ev;
    [|discriminate].
  destruct Hv as (M & He & _). simpl in M, He.
  rewrite setup_boot, (bind_ret_eq _ _ _ _ _ Ev).
  unfold Setup.provision.
  rewrite !(bind_ret_eq _ _ _ _ _ (node_v_text_run _ _)).
  rewrite !(bind_ret_eq _ _ _ _ _ (echo_run _ _)).
  erewrite bind_halt_eq;
    [|apply external_fail; [exact He|simpl; rewrite M; exact Hs]].
  simpl. rewrite M. simpl. rewrite last_snoc. auto.
Qed.

End SetupComplete.

(** On a fresh checkout with the template only, all three files are
    created. *)
Lemma setup_creates_missing_files_witness :
  let t0 := ef_fs (npm_install Sample.node20 Sample.template tt) in
  let t1 := fs (mach (final (Setup.setup Sample.node20
                               (boot [] Sample.template tt)))) in
  (Tree.is_file t1 ["frontend"; "package.json"] = true
   ∧ Tree.is_file t1 ["backend"; "package.json"] = true
   ∧ (Tree.is_file t1 [".env"] = true
      ∨ Tree.is_file t1 [".env"; ".env.example"] = true))
  ∧ (t0 !! [".env"] = None →
     Tree.is_file t1 [".env"] = true
     ∧ t1 !! [".env"] = t0 !! [".env.example"])
  ∧ (t0 !! ["frontend"; "package.json"] = None →
     t1 !! ["frontend"; "package.json"]
     = Some (File Setup.frontend_package_json)
     ∧ t1 !! ["frontend"] = Some Dir)
  ∧ (t0 !! ["backend"; "package.json"] = None →
     t1 !! ["backend"; "package.json"]
     = Some (File Setup.backend_package_json)
     ∧ t1 !! ["backend"] = Some Dir).
Proof.
  apply (setup_creates_missing_files Sample.node20 [] Sample.template tt).
  vm_compute. reflexivity.
Defined.

(** In a checkout where the developer has filled in [.env], the run leaves
    it alone. *)
Lemma setup_only_creates_witness :
  let s1 := final (Setup.setup Sample.node20 (boot [] Cases.configured tt)) in
  (fs (mach s1) !! [".env"]
   = ef_fs (npm_install Sample.node20 Cases.configured tt) !! [".env"]
   ∨ (In [".env"] setup_reach
      ∧ (ef_fs (npm_install Sample.node20 Cases.configured tt) !! [".env"]
         = None
         ∨ [".env"] = [".env"; ".env.example"])))
  ∧ world (mach s1) = ef_world (npm_install Sample.node20 Cases.configured tt)
  ∧ cwd (mach s1) = [].
Proof.
  apply (setup_only_creates Sample.node20 [] Cases.configured tt).
  vm_compute. reflexivity.
Defined.

(** Without network [npm install] fails and the script ends with its
    status. *)
Lemma setup_stops_when_npm_install_fails_witness :
  let o := Setup.setup Cases.offline (boot [] Sample.template tt) in
  passes o = false
  ∧ exit_status o = ef_status (npm_install Cases.offline Sample.template tt)
  ∧ mach (final o)
    = Mach (ef_fs (npm_install Cases.offline Sample.template tt)) []
        (ef_world (npm_install Cases.offline Sample.template tt))
  ∧ last (trace (final o))
    = Some (Ev ["npm"; "install"] Stmt
              (ef_status (npm_install Cases.offline Sample.template tt))).
Proof.
  apply (setup_stops_when_npm_install_fails Cases.offline [] Sample.template
           tt).
  - reflexivity.
  - discriminate.
Defined.
(* ================================================================== *)
(** ** The Codespace [setup.sh]: its blocks *)

Section Triples.
Context {W : Type}.
Implicit Types (s : state W) (c p : path) (T : tree → Prop).

Lemma triple_ret {A} (P : state W → Prop) (Q : A → state W → Prop) (a : A) :
  (∀ s, P s → Q a s) → triple P (ret a) Q.
Proof. intros H s Hs. apply H, Hs. Qed.

Lemma triple_bind {A B} (P : state W → Prop) (R : A → state W → Prop)
    (Q : B → state W → Prop) (m : sh W A) (k : A → sh W B) :
  triple P m R → (∀ a, triple (R a) (k a) Q) → triple P (bind m k) Q.
Proof.
  intros Hm Hk s Hs. unfold bind. specialize (Hm s Hs).
  destruct (m s) as [a s'|n s']; [apply Hk, Hm|exact I].
Qed.

Lemma triple_post {A} (P : state W → Prop) (Q Q' : A → state W → Prop)
    (m : sh W A) :
  triple P m Q' → (∀ a s, Q' a s → Q a s) → triple P m Q.
Proof.
  intros Hm HQ s Hs. specialize (Hm s Hs).
  destruct (m s) as [a s'|n s']; [apply HQ, Hm|exact I].
Qed.

(** A statement that returns has returned 0, since [errexit] is on. *)
Lemma triple_run (P : state W → Prop) (Q : unit → state W → Prop)
    argv (act : action W) :
  (∀ s, P s → errexit s = true → r_status (act (mach s)) = 0 →
        Q tt (record Stmt argv (act (mach s)) s)) →
  (∀ s, P s → errexit s = true) →
  triple P (run argv act) Q.
Proof.
  intros H He s Hs. unfold run, bind, command. rewrite (He s Hs).
  simpl. rewrite andb_true_r.
  destruct (N.eqb_spec (r_status (act (mach s))) 0) as [E|E]; simpl;
    [|exact I].
  apply H; auto.
Qed.

Lemma triple_test (P : state W → Prop) (Q : bool → state W → Prop)
    argv (act : action W) :
  (∀ s, P s → Q (r_status (act (mach s)) =? 0)
                (record Cond argv (act (mach s)) s)) →
  triple P (test argv act) Q.
Proof. intros H s Hs. rewrite test_run. apply H, Hs. Qed.

Lemma within_echo c T line :
  triple (within c T) (echo (W := W) line) (λ _, within c T).
Proof.
  apply triple_run; [|intros s H; apply H].
  intros s (He & Hc & HT) _ _. repeat split; assumption.
Qed.

Lemma within_cd c T p :
  triple (within c T) (cd (W := W) p) (λ _, within (c ++ p) T).
Proof.
  apply triple_run; [|intros s H; apply H].
  intros s (He & Hc & HT) _. simpl.
  destruct (Tree.is_dir (fs (mach s)) (cwd (mach s) ++ p)); simpl;
    [intros _|discriminate].
  repeat split; simpl; [exact He|rewrite Hc; reflexivity|exact HT].
Qed.

Lemma within_cd_up c T :
  triple (within c T) (cd_up (W := W)) (λ _, within (Tree.parent c) T).
Proof.
  apply triple_run; [|intros s H; apply H].
  intros s (He & Hc & HT) _ _.
  repeat split; simpl; [exact He|rewrite Hc; reflexivity|exact HT].
Qed.

Lemma within_cd_back c T (x : string) :
  triple (within (c ++ [x]) T) (cd_up (W := W)) (λ _, within c T).
Proof.
  eapply triple_post; [apply within_cd_up|]. intros u s.
  unfold Tree.parent. rewrite removelast_last. auto.
Qed.

(** A program of the oracle leaves any tree, in the same directory. *)
Lemma within_external c T (e : env W) argv :
  triple (within c T) (external e argv) (λ _, home c).
Proof.
  apply triple_run; [|intros s H; apply H].
  intros s (He & Hc & HT) _ _. repeat split; simpl; assumption.
Qed.

Lemma within_not_d c T p :
  triple (within c T) (not_d (W := W) p)
    (λ b, within c (λ t, T t ∧ b = negb (Tree.is_dir t (c ++ p)))).
Proof.
  apply triple_test. intros s (He & Hc & HT). simpl.
  repeat split; simpl; [exact He|exact Hc|exact HT|].
  rewrite Hc. destruct (Tree.is_dir (fs (mach s)) (c ++ p)); reflexivity.
Qed.

Lemma within_not_f c T p :
  triple (within c T) (not_f (W := W) p)
    (λ b, within c (λ t, T t ∧ b = negb (Tree.is_file t (c ++ p)))).
Proof.
  apply triple_test. intros s (He & Hc & HT). simpl.
  repeat split; simpl; [exact He|exact Hc|exact HT|].
  rewrite Hc. destruct (Tree.is_file (fs (mach s)) (c ++ p)); reflexivity.
Qed.

Lemma within_cat_to c T p content :
  triple (within c T) (cat_to (W := W) p content)
    (λ _, within c (λ t', ∃ t, T t
                               ∧ Tree.write (c ++ p) content t = Some t')).
Proof.
  apply triple_run; [|intros s H; apply H].
  intros s (He & Hc & HT) _. simpl. rewrite Hc.
  destruct (Tree.write (c ++ p) content (fs (mach s))) as [t'|] eqn:Hw;
    simpl; [intros _|discriminate].
  repeat split; simpl; [exact He|exact Hc|]. eauto.
Qed.

Lemma within_mkdir_p c T p :
  triple (within c T) (mkdir_p (W := W) p)
    (λ _, within c (λ t', ∃ t, T t ∧ Tree.mkdir_p c p t = (0, t'))).
Proof.
  apply triple_run; [|intros s H; apply H].
  intros s (He & Hc & HT) _. simpl. rewrite Hc.
  destruct (Tree.mkdir_p c p (fs (mach s))) as [n t'] eqn:Hm; simpl.
  intros ->. repeat split; simpl; [exact He|exact Hc|]. eauto.
Qed.

Lemma within_cp c T a b :
  triple (within c T) (cp (W := W) a b)
    (λ _, within c (λ t', ∃ t, T t
                               ∧ Tree.cp (c ++ a) (c ++ b) t = (0, t'))).
Proof.
  apply triple_run; [|intros s H; apply H].
  intros s (He & Hc & HT) _. simpl. rewrite Hc.
  destruct (Tree.cp (c ++ a) (c ++ b) (fs (mach s))) as [n t'] eqn:Hm; simpl.
  intros ->. repeat split; simpl; [exact He|exact Hc|]. eauto.
Qed.

Lemma within_weaken c T T' s :
  (∀ t, T t → T' t) → within c T s → within c T' s.
Proof. intros H (He & Hc & HT). repeat split; auto. Qed.

(** The same, keeping only where the shell is. *)
Lemma home_of c T s : within c T s → home c s.
Proof. apply within_weaken. auto. Qed.

Lemma home_ret {A} c T (a : A) :
  triple (W := W) (within c T) (ret a) (λ _, home c).
Proof. apply triple_ret. intros s. apply home_of. Qed.

Lemma home_not_d c T p : triple (within c T) (not_d (W := W) p) (λ _, home c).
Proof.
  eapply triple_post; [apply within_not_d|]. intros b s. apply home_of.
Qed.

Lemma home_not_f c T p : triple (within c T) (not_f (W := W) p) (λ _, home c).
Proof.
  eapply triple_post; [apply within_not_f|]. intros b s. apply home_of.
Qed.

Lemma home_cat_to c T p content :
  triple (within c T) (cat_to (W := W) p content) (λ _, home c).
Proof.
  eapply triple_post; [apply within_cat_to|]. intros b s. apply home_of.
Qed.

Lemma home_mkdir_p c T p :
  triple (within c T) (mkdir_p (W := W) p) (λ _, home c).
Proof.
  eapply triple_post; [apply within_mkdir_p|]. intros b s. apply home_of.
Qed.

Lemma home_cp c T a b :
  triple (within c T) (cp (W := W) a b) (λ _, home c).
Proof.
  eapply triple_post; [apply within_cp|]. intros x s. apply home_of.
Qed.

End Triples.

(** Where the shell is along a program: each command is looked up among
    the rules above. *)
Ltac home_step :=
  lazymatch goal with
  | |- ∀ _ : bool, _ => intros []; cbv beta iota
  | |- ∀ _, _ => intro
  | |- triple _ (bind _ _) _ => eapply triple_bind
  | |- triple _ (ret _) _ => apply home_ret
  | |- triple _ (echo _) _ => apply within_echo
  | |- triple _ (external _ _) _ => apply within_external
  | |- triple _ (cd _) _ => apply within_cd
  | |- triple _ cd_up _ => apply within_cd_back
  | |- triple _ (not_d _) _ => apply home_not_d
  | |- triple _ (not_f _) _ => apply home_not_f
  | |- triple _ (cat_to _ _) _ => apply home_cat_to
  | |- triple _ (mkdir_p _) _ => apply home_mkdir_p
  | |- triple _ (cp _ _) _ => apply home_cp
  end.

Section Blocks.
Context {W : Type}.
Variable e : env W.
Implicit Types (s : state W).

Lemma system_dependencies_home (c : path) :
  triple (home c) (Codespace.system_dependencies e) (λ _, home c).
Proof. unfold Codespace.system_dependencies. repeat home_step. Qed.

Lemma env_file_home (c : path) :
  triple (home c) (Codespace.env_file (W := W)) (λ _, home c).
Proof.
  unfold Codespace.env_file. eapply triple_bind; [apply home_not_f|].
  intros []; [repeat home_step|].
  eapply triple_post; [apply within_echo|]. auto.
Qed.

Lemma frontend_home (c : path) :
  triple (home c) (Codespace.frontend e) (λ _, home c).
Proof. unfold Codespace.frontend. repeat home_step. Qed.

Lemma backend_home (c : path) :
  triple (home c) (Codespace.backend e) (λ _, home c).
Proof. unfold Codespace.backend. repeat home_step. Qed.

Lemma shared_home (c : path) :
  triple (home c) (Codespace.shared e) (λ _, home c).
Proof. unfold Codespace.shared. repeat home_step. Qed.

Lemma closing_within (c : path) (T : tree → Prop) :
  triple (within c T) (Codespace.closing (W := W)) (λ _, within c T).
Proof. unfold Codespace.closing. repeat home_step. Qed.

(** Lines 248-291 in the project root. *)
Lemma configuration_run s :
  errexit s = true → cwd (mach s) = [] →
  let t := fs (mach s) in
  if Tree.is_dir t [".prettierrc"] || Tree.is_dir t [".eslintrc.js"]
  then ∃ s', Codespace.configuration s = Halt 1 s'
  else ∃ s', Codespace.configuration s = Ret tt s'
             ∧ errexit s' = true
             ∧ cwd (mach s') = [] ∧ world (mach s') = world (mach s)
             ∧ fs (mach s') !! [".prettierrc"]
               = (if Tree.is_file t [".prettierrc"] then t !! [".prettierrc"]
                  else Some (File Codespace.prettierrc))
             ∧ fs (mach s') !! [".eslintrc.js"]
               = (if Tree.is_file t [".eslintrc.js"] then t !! [".eslintrc.js"]
                  else Some (File Codespace.eslintrc_js))
             ∧ ∀ p, p ≠ [".prettierrc"] → p ≠ [".eslintrc.js"] →
                    fs (mach s') !! p = t !! p.
Proof.
  destruct s as [[t c w] o tr ex a]. simpl. intros -> ->.
  unfold Codespace.configuration.
  rewrite (bind_ret_eq _ _ _ _ _ (echo_run _ _)).
  unfold not_f, cat_to, test, run, bind, command, ret, Tree.write,
    Tree.is_file, Tree.is_dir, Tree.parent.
  simpl.
  destruct (t !! [".prettierrc"]) as [[c1|]|] eqn:E1;
    destruct (t !! [".eslintrc.js"]) as [[c2|]|] eqn:E2;
    repeat first [ rewrite E1 | rewrite E2 | rewrite lookup_insert_eq
                 | rewrite lookup_insert_ne by discriminate
                 | progress simpl ];
    (eexists; split; [reflexivity|]) || (eexists; reflexivity);
    simpl; rewrite ?lookup_insert_eq;
    rewrite ?lookup_insert_ne by discriminate;
    rewrite ?lookup_insert_eq;
    repeat split; try assumption;
    intros p H1 H2; rewrite ?lookup_insert_ne by congruence; reflexivity.
Qed.

Lemma configuration_configures :
  triple (home []) (Codespace.configuration (W := W))
    (λ _, within [] configured).
Proof.
  unfold triple. intros s (He & Hc & _).
  pose proof (configuration_run s He Hc) as H. cbv zeta in H.
  destruct (Tree.is_dir (fs (mach s)) [".prettierrc"]
            || Tree.is_dir (fs (mach s)) [".eslintrc.js"]).
  - destruct H as (s' & ->). exact I.
  - destruct H as (s' & -> & He' & Hc' & _ & P1 & P2 & _).
    repeat split; [exact He'|exact Hc'|..]; unfold Tree.is_file.
    + rewrite P1. unfold Tree.is_file.
      destruct (fs (mach s) !! [".prettierrc"]) as [[c1|]|]; reflexivity.
    + rewrite P2. unfold Tree.is_file.
      destruct (fs (mach s) !! [".eslintrc.js"]) as [[c1|]|]; reflexivity.
Qed.

Lemma main_configures :
  triple (home []) (Codespace.main e) (λ _, within [] configured).
Proof.
  unfold Codespace.main.
  eapply triple_bind; [apply within_echo|intro].
  eapply triple_bind; [apply system_dependencies_home|intro].
  eapply triple_bind; [apply env_file_home|intro].
  eapply triple_bind; [apply within_echo|intro].
  eapply triple_bind; [apply within_external|intro].
  eapply triple_bind; [apply frontend_home|intro].
  eapply triple_bind; [apply backend_home|intro].
  eapply triple_bind; [apply shared_home|intro].
  eapply triple_bind; [apply configuration_configures|intro].
  apply closing_within.
Qed.

(** The files the backend block writes once its packages are
    installed. *)
Lemma backend_sources_written (c1 c3 : string) (t0 t1 t2 t' : tree) :
  Tree.write ["backend"; "tsconfig.json"] c1 t0 = Some t1 →
  Tree.mkdir_p ["backend"] ["src"] t1 = (0, t2) →
  Tree.write ["backend"; "src"; "index.ts"] c3 t2 = Some t' →
  t' !! ["backend"; "tsconfig.json"] = Some (File c1)
  ∧ t' !! ["backend"; "src"] = Some Dir
  ∧ t' !! ["backend"; "src"; "index.ts"] = Some (File c3).
Proof.
  intros (_ & _ & ->)%SetupTreeFacts.write_inv Hm
         (_ & _ & ->)%SetupTreeFacts.write_inv.
  simpl in Hm. rewrite lookup_insert_ne in Hm by discriminate.
  rewrite lookup_insert_eq.
  rewrite !lookup_insert_ne by discriminate.
  destruct (t0 !! ["backend"; "src"]) as [[x|]|] eqn:E;
    [discriminate|..]; injection Hm as <-.
  - rewrite lookup_insert_eq, lookup_insert_ne by discriminate. auto.
  - rewrite lookup_insert_eq, lookup_insert_ne by discriminate.
    rewrite lookup_insert_eq. auto.
Qed.

Lemma backend_installs :
  triple
    (within [] (λ t, Tree.is_dir t ["backend"; "node_modules"] = false))
    (Codespace.backend e)
    (λ _, within []
            (λ t, t !! ["backend"; "tsconfig.json"]
                  = Some (File Codespace.backend_tsconfig_json)
                  ∧ t !! ["backend"; "src"] = Some Dir
                  ∧ t !! ["backend"; "src"; "index.ts"]
                    = Some (File Codespace.backend_index_ts))).
Proof.
  unfold Codespace.backend.
  eapply triple_bind; [apply within_echo|intro].
  eapply triple_bind; [apply within_cd|intro].
  eapply triple_bind; [apply within_not_d|].
  intros [|]; cbv beta iota.
  - eapply triple_bind; [|intro; apply (within_cd_back [])].
    eapply triple_post.
    + eapply triple_bind; [apply within_echo|intro].
      do 8 (eapply triple_bind; [apply within_external|intro]).
      eapply triple_bind; [apply within_echo|intro].
      eapply triple_bind; [apply within_cat_to|intro].
      eapply triple_bind; [apply within_mkdir_p|intro].
      apply within_cat_to.
    + intros _ s (He & Hc & t2 & (t1 & (t0 & _ & H1) & H2) & H3).
      repeat split; [exact He|exact Hc|..];
        apply (backend_sources_written _ _ _ _ _ _ H1 H2 H3).
  - unfold triple. intros s (_ & _ & HT & Hb). exfalso.
    change (false
            = negb (Tree.is_dir (fs (mach s)) ["backend"; "node_modules"]))
      in Hb.
    rewrite HT in Hb. discriminate.
Qed.

(** X9. A block of the Codespace script whose package directory is set up
  already does nothing: when the directory exists and holds what the
  guard looks for ([node_modules] for [frontend] and [backend],
  [package.json] for [shared]), the block runs four builtins ([echo],
  [cd], the test, [cd ..]), calls neither [npm] nor [npx], and leaves the
  tree, the working directory and everything outside as they were. *)
Theorem codespace_block_skips_when_set_up (b : block) s :
  cwd (mach s) = [] →
  Tree.is_dir (fs (mach s)) [block_dir b] = true →
  block_set_up b (fs (mach s)) = true →
  ∃ s' evs, block_of e b s = Ret tt s'
            ∧ mach s' = mach s
            ∧ trace s' = trace s ++ evs
            ∧ length evs = 4%nat
            ∧ Forall (λ ev, classify (ev_argv ev) = Builtin) evs.
Proof.
  destruct s as [[t c w] o tr ex a]. simpl. intros -> Hd Hs.
  destruct b; simpl in Hd, Hs |- *;
    unfold Codespace.frontend, Codespace.backend, Codespace.shared;
    rewrite (bind_ret_eq _ _ _ _ _ (echo_run _ _));
    unfold cd, cd_up, not_d, not_f, test, run, bind, command, ret;
    simpl; rewrite Hd; simpl; rewrite Hs; simpl;
    eexists _, [_; _; _; _];
    (split; [reflexivity|]); simpl; rewrite <- ?app_assoc;
    repeat split; repeat constructor.
Qed.

(** X10. Each block of the Codespace script needs its package directory:
  when [frontend], [backend] or [shared] is not a directory of the
  project root, [cd] fails and, under [set -e], the script ends there
  with status 1 and the machine unchanged. *)
Theorem codespace_block_needs_directory (b : block) s :
  errexit s = true → cwd (mach s) = [] →
  Tree.is_dir (fs (mach s)) [block_dir b] = false →
  ∃ s', block_of e b s = Halt 1 s'
        ∧ mach s' = mach s
        ∧ last (trace s') = Some (Ev ["cd"; block_dir b] Stmt 1).
Proof.
  destruct s as [[t c w] o tr ex a]. simpl. intros -> -> Hd.
  destruct b; simpl in Hd |- *;
    unfold Codespace.frontend, Codespace.backend, Codespace.shared;
    rewrite (bind_ret_eq _ _ _ _ _ (echo_run _ _));
    unfold cd, run, bind, command, ret;
    simpl; rewrite Hd; simpl;
    eexists; (split; [reflexivity|]); simpl;
    rewrite last_snoc; auto.
Qed.

(** X11. The configuration step of the Codespace script (lines 248-291),
  run in the project root under [set -e]: it fails with status 1 exactly
  when [.prettierrc] or [.eslintrc.js] is a directory; otherwise it
  returns, each of the two files is as it was if it was a regular file
  and holds the here-document of the script if it was missing, and no
  other entry of the tree, nor anything outside it, is changed. *)
Theorem configuration_creates_missing_files s :
  errexit s = true → cwd (mach s) = [] →
  let t := fs (mach s) in
  if Tree.is_dir t [".prettierrc"] || Tree.is_dir t [".eslintrc.js"]
  then ∃ s', Codespace.configuration s = Halt 1 s'
  else ∃ s', Codespace.configuration s = Ret tt s'
             ∧ errexit s' = true
             ∧ cwd (mach s') = [] ∧ world (mach s') = world (mach s)
             ∧ fs (mach s') !! [".prettierrc"]
               = (if Tree.is_file t [".prettierrc"] then t !! [".prettierrc"]
                  else Some (File Codespace.prettierrc))
             ∧ fs (mach s') !! [".eslintrc.js"]
               = (if Tree.is_file t [".eslintrc.js"] then t !! [".eslintrc.js"]
                  else Some (File Codespace.eslintrc_js))
             ∧ ∀ p, p ≠ [".prettierrc"] → p ≠ [".eslintrc.js"] →
                    fs (mach s') !! p = t !! p.
Proof. exact (configuration_run s). Qed.

(** X12. A run of the Codespace script that reaches its last line ends in
  the directory it started in, the project root: every [cd] into
  [frontend], [backend] and [shared] has been undone by its [cd ..]; and
  in the tree it leaves, [.prettierrc] and [.eslintrc.js] are regular
  files of the project root. *)
Theorem codespace_ends_in_project_root
    (argv : list string) (t : tree) (w : W) (s1 : state W) :
  Codespace.setup e (boot argv t w) = Ret tt s1 →
  cwd (mach s1) = []
  ∧ Tree.is_file (fs (mach s1)) [".prettierrc"] = true
  ∧ Tree.is_file (fs (mach s1)) [".eslintrc.js"] = true.
Proof.
  change (Codespace.setup e (boot argv t w))
    with (Codespace.main e (armed argv t w)).
  intros H.
  assert (Hh : home [] (armed argv t w)) by (repeat split).
  pose proof (main_configures (armed argv t w) Hh) as Hm.
  rewrite H in Hm. destruct Hm as (_ & Hc & H1 & H2). auto.
Qed.

(** X13. When [backend/node_modules] is not a directory, a run of the
  backend block of the Codespace script that reaches its end has
  written [backend/tsconfig.json] and [backend/src/index.ts] with the
  here-documents of the script, whatever was there before and whatever
  the [npm] commands before them did, inside a directory [backend/src];
  and it has returned to the project root. *)
Theorem backend_block_writes_sources s (s' : state W) :
  errexit s = true → cwd (mach s) = [] →
  Tree.is_dir (fs (mach s)) ["backend"; "node_modules"] = false →
  Codespace.backend e s = Ret tt s' →
  fs (mach s') !! ["backend"; "tsconfig.json"]
  = Some (File Codespace.backend_tsconfig_json)
  ∧ fs (mach s') !! ["backend"; "src"] = Some Dir
  ∧ fs (mach s') !! ["backend"; "src"; "index.ts"]
    = Some (File Codespace.backend_index_ts)
  ∧ cwd (mach s') = [].
Proof.
  intros He Hc Hd H.
  pose proof (backend_installs s (conj He (conj Hc Hd))) as Hb.
  rewrite H in Hb. destruct Hb as (_ & Hc' & H1 & H2 & H3). auto.
Qed.

(** X14. The two scripts create [.env] in the same way: from any state,
  lines 15-22 of the Codespace script and lines 29-36 of
  [scripts/setup.sh] leave the same tree, working directory and outside
  world, and either both go on or both end the script, with the same
  status; they differ in the lines they print. *)
Theorem env_file_steps_agree s :
  mach (final (Codespace.env_file s)) = mach (final (Setup.env_file s))
  ∧ passes (Codespace.env_file s) = passes (Setup.env_file s)
  ∧ exit_status (Codespace.env_file s) = exit_status (Setup.env_file s)
  ∧ map ev_status (trace (final (Codespace.env_file s)))
    = map ev_status (trace (final (Setup.env_file s))).
Proof.
  destruct s as [[t c w] o tr ex a].
  unfold Codespace.env_file, Setup.env_file, not_f, test, echo, cp, run,
    bind, command, ret, act_print.
  simpl. destruct (Tree.is_file t (c ++ [".env"])); simpl.
  - unfold last_status. simpl. rewrite !last_snoc, !map_app. auto.
  - destruct (Tree.cp (c ++ [".env.example"]) (c ++ [".env"]) t)
      as [[|n] t']; simpl.
    + unfold last_status. simpl. rewrite !last_snoc, !map_app. auto.
    + destruct ex; simpl; unfold last_status; simpl;
        rewrite ?last_snoc, ?map_app; auto.
Qed.

(** X15. The configuration step of the Codespace script is idempotent: run
  again in the state a completed run of it left, it completes and
  changes nothing in the tree, the working directory or outside, since
  both guards now find their file. *)
Theorem configuration_is_idempotent s (s1 : state W) :
  errexit s = true → cwd (mach s) = [] →
  Codespace.configuration s = Ret tt s1 →
  ∃ s2, Codespace.configuration s1 = Ret tt s2 ∧ mach s2 = mach s1.
Proof.
  intros He Hc H.
  pose proof (configuration_configures s (conj He (conj Hc I))) as H1.
  rewrite H in H1. destruct H1 as (He1 & Hc1 & F1 & F2).
  pose proof (configuration_run s1 He1 Hc1) as H2. cbv zeta in H2.
  assert (D1 : Tree.is_dir (fs (mach s1)) [".prettierrc"] = false).
  { unfold Tree.is_file in F1. unfold Tree.is_dir.
    destruct (fs (mach s1) !! [".prettierrc"]) as [[c|]|];
      [reflexivity|discriminate..]. }
  assert (D2 : Tree.is_dir (fs (mach s1)) [".eslintrc.js"] = false).
  { unfold Tree.is_file in F2. unfold Tree.is_dir.
    destruct (fs (mach s1) !! [".eslintrc.js"]) as [[c|]|];
      [reflexivity|discriminate..]. }
  rewrite D1, D2, F1, F2 in H2. simpl in H2.
  destruct H2 as (s2 & E & _ & Hc2 & Hw & P1 & P2 & Hfr).
  exists s2. split; [exact E|].
  assert (Hfs : fs (mach s2) = fs (mach s1)).
  { apply map_eq. intros p.
    destruct (decide (p = [".prettierrc"])) as [->|N1]; [exact P1|].
    destruct (decide (p = [".eslintrc.js"])) as [->|N2]; [exact P2|].
    apply Hfr; assumption. }
  destruct (mach s2) as [t2 c2 w2], (mach s1) as [t1 c1 w1].
  simpl in *. congruence.
Qed.

End Blocks.

(** With [frontend/node_modules] in place the frontend block is skipped. *)
Lemma codespace_block_skips_when_set_up_witness :
  ∃ s' evs,
    block_of Sample.node20 Frontend (armed [] Cases.frontend_installed tt)
    = Ret tt s'
    ∧ mach s' = mach (armed [] Cases.frontend_installed tt)
    ∧ trace s' = trace (armed [] Cases.frontend_installed tt) ++ evs
    ∧ length evs = 4%nat
    ∧ Forall (λ ev, classify (ev_argv ev) = Builtin) evs.
Proof.
  apply (codespace_block_skips_when_set_up Sample.node20 Frontend
           (armed [] Cases.frontend_installed tt));
    vm_compute; reflexivity.
Defined.

(** A checkout without a [shared] directory stops the shared block. *)
Lemma codespace_block_needs_directory_witness :
  ∃ s', block_of Sample.node20 Shared (armed [] Sample.template tt)
        = Halt 1 s'
        ∧ mach s' = mach (armed [] Sample.template tt)
        ∧ last (trace s') = Some (Ev ["cd"; block_dir Shared] Stmt 1).
Proof.
  apply (codespace_block_needs_directory Sample.node20 Shared
           (armed [] Sample.template tt));
    vm_compute; reflexivity.
Defined.

(** On a checkout without the two files both are created. *)
Lemma configuration_creates_missing_files_witness :
  let s := armed (W := unit) [] Sample.checkout tt in
  let t := fs (mach s) in
  if Tree.is_dir t [".prettierrc"] || Tree.is_dir t [".eslintrc.js"]
  then ∃ s', Codespace.configuration s = Halt 1 s'
  else ∃ s', Codespace.configuration s = Ret tt s'
             ∧ errexit s' = true
             ∧ cwd (mach s') = [] ∧ world (mach s') = world (mach s)
             ∧ fs (mach s') !! [".prettierrc"]
               = (if Tree.is_file t [".prettierrc"] then t !! [".prettierrc"]
                  else Some (File Codespace.prettierrc))
             ∧ fs (mach s') !! [".eslintrc.js"]
               = (if Tree.is_file t [".eslintrc.js"] then t !! [".eslintrc.js"]
                  else Some (File Codespace.eslintrc_js))
             ∧ ∀ p, p ≠ [".prettierrc"] → p ≠ [".eslintrc.js"] →
                    fs (mach s') !! p = t !! p.
Proof.
  apply (configuration_creates_missing_files
           (armed (W := unit) [] Sample.checkout tt)); reflexivity.
Defined.

(** A complete run on a checkout with the three package directories. *)
Lemma codespace_ends_in_project_root_witness :
  let s1 := final (Codespace.setup Sample.node20
                     (boot [] Sample.checkout tt)) in
  cwd (mach s1) = []
  ∧ Tree.is_file (fs (mach s1)) [".prettierrc"] = true
  ∧ Tree.is_file (fs (mach s1)) [".eslintrc.js"] = true.
Proof.
  apply (codespace_ends_in_project_root Sample.node20 [] Sample.checkout tt).
  vm_compute. reflexivity.
Defined.

Lemma backend_block_writes_sources_witness :
  let s' := final (Codespace.backend Sample.node20
                     (armed [] Sample.checkout tt)) in
  fs (mach s') !! ["backend"; "tsconfig.json"]
  = Some (File Codespace.backend_tsconfig_json)
  ∧ fs (mach s') !! ["backend"; "src"] = Some Dir
  ∧ fs (mach s') !! ["backend"; "src"; "index.ts"]
    = Some (File Codespace.backend_index_ts)
  ∧ cwd (mach s') = [].
Proof.
  apply (backend_block_writes_sources Sample.node20
           (armed [] Sample.checkout tt)).
  - reflexivity.
  - reflexivity.
  - vm_compute. reflexivity.
  - vm_compute. reflexivity.
Defined.

Lemma configuration_is_idempotent_witness :
  ∃ s2,
    Codespace.configuration
      (final (Codespace.configuration
                (armed (W := unit) [] Sample.checkout tt)))
    = Ret tt s2
    ∧ mach s2
      = mach (final (Codespace.configuration
                       (armed (W := unit) [] Sample.checkout tt))).
Proof.
  apply (configuration_is_idempotent
           (armed (W := unit) [] Sample.checkout tt)); reflexivity.
Defined.
